(** * sql-toolkit: error classification, hook chain, transactions and retry

    A shallow embedding of the [db] package of Skryldev/sql-toolkit
    (db/hooks.go, db/tx.go and the package's files for the connection
    handle, the errors, the context sentinels and the drivers) and of the
    user repository built on it (repo/user_repo.go), and the properties of
    the error mapper, hook chain, executor operations, transaction helper,
    retry helper, batch helper, driver registry and repository.

    Conventions of the embedding.
    - A Go [error] interface value is an [option error]: [None] is [nil].
    - Pointer-typed errors ([*errors.errorString], [*fmt.wrapError],
      [*DBError]) are compared by structure.  An [errors.New] value carries
      the address that gives it its identity.  A wrapper that the code
      allocates holds the wrapped value as a strict sub-term, so it differs
      from that value, as the fresh pointer does in Go.
    - Error types from outside the package (drivers, callers) are
      [driverError]s: a text, the methods the mapper looks for, an optional
      [Unwrap].  They bring no [Is] or [As] method of their own, and there
      are no multi-errors ([Unwrap() []error]).
    - Effects (driver calls, hooks, the clock, waiting) are state passing
      over an external state, with panics as an outcome.  Hooks and
      [database/sql] act on the external state only and always come back;
      [database/sql] does not panic, hooks may.
    - The package's own calls leave markers in a trace, which is how the
      theorems count and order them.
    - A function that allocates an error with [fmt.Errorf] without [%w], or
      with [errors.New], takes the address of the new value as an argument.
    - Callbacks that compute a value (an [ErrorMapper], the [RetryOn]
      predicate, the [argsFn] of [BatchExec], the [DSN] of a driver) are
      functions.  Slices of hooks may hold nil entries; the other interface
      values handed to the package are not nil.
    - A Go map that the code ranges over is the list of its entries in the
      order of that iteration. *)

From Stdlib Require Import String Ascii List ZArith Lia Bool.
From Stdlib Require Import DecimalString.
Import ListNotations.
Open Scope string_scope.
Open Scope Z_scope.

Set Implicit Arguments.

(* ------------------------------------------------------------------------- *)
(** * Go strings: the functions of package [strings] the mapper uses *)
(* ------------------------------------------------------------------------- *)

Module strings.

(** [len(s)] in bytes. *)
Definition len (s : string) : Z := Z.of_nat (String.length s).

(** [strings.HasPrefix(s, sub)]. *)
Definition HasPrefix (s sub : string) : bool := String.prefix sub s.

(** [strings.Index(s, sub)]: first byte offset of [sub] in [s], or -1. *)
Fixpoint Index (s sub : string) : Z :=
  if HasPrefix s sub then 0
  else match s with
       | EmptyString => -1
       | String _ s' => let r := Index s' sub in if r <? 0 then -1 else r + 1
       end.

(** [strings.LastIndex(s, sub)]: last byte offset of [sub] in [s], or -1. *)
Fixpoint LastIndex (s sub : string) : Z :=
  match s with
  | EmptyString => if HasPrefix s sub then 0 else -1
  | String _ s' =>
      let r := LastIndex s' sub in
      if 0 <=? r then r + 1 else if HasPrefix s sub then 0 else -1
  end.

(** [strings.Contains(s, sub)]. *)
Definition Contains (s sub : string) : bool := 0 <=? Index s sub.

(** The slice [s[i:]]. *)
Definition from (s : string) (i : Z) : string :=
  String.substring (Z.to_nat i) (String.length s - Z.to_nat i) s.

(** The slice [s[:j]]. *)
Definition upto (s : string) (j : Z) : string :=
  String.substring 0 (Z.to_nat j) s.

End strings.

(* ------------------------------------------------------------------------- *)
(** * Go error values *)
(* ------------------------------------------------------------------------- *)

(** What a driver's error type may expose besides [Error()]: the methods the
  mapper looks for by duck typing. *)
Record driverCaps : Type := {
  capGetCode  : option string;   (* GetCode() string   (lib/pq) *)
  capSQLState : option string;   (* SQLState() string  (pgx)    *)
  capNumber   : option Z         (* Number() uint16    (MySQL)  *)
}.

Definition noCaps : driverCaps :=
  {| capGetCode := None; capSQLState := None; capNumber := None |}.

(** The dynamic types an [error] can have here. *)
#[warnings="-register-all"]
Inductive error : Type :=
| errorString (addr : positive) (s : string)
    (* errors.New(s); [addr] is the pointer, its identity *)
| deadlineExceededError
    (* context.DeadlineExceeded *)
| wrapError (msg : string) (err : option error)
    (* fmt.Errorf with one %w verb: Unwrap() returns err *)
| DBError (Sentinel : option error) (Cause : option error) (Message : string)
    (* &DBError{Sentinel, Cause, Message} *)
| driverError (msg : string) (caps : driverCaps) (cause : option error).
  (* an error type of a driver or of the caller: Error() returns msg,
     Unwrap() returns cause when there is one *)

(** Induction that reaches through the [option]s. *)
Section error_induction.
Variable P : error -> Prop.
Let Popt (o : option error) : Prop :=
  match o with Some e => P e | None => True end.
Hypothesis HerrorString : forall a s, P (errorString a s).
Hypothesis Hdeadline : P deadlineExceededError.
Hypothesis HwrapError : forall m o, Popt o -> P (wrapError m o).
Hypothesis HDBError : forall s c m, Popt s -> Popt c -> P (DBError s c m).
Hypothesis HdriverError : forall m k o, Popt o -> P (driverError m k o).

Fixpoint error_deep_ind (e : error) : P e :=
  let opt (o : option error) : Popt o :=
    match o return Popt o with
    | Some x => error_deep_ind x
    | None => I
    end in
  match e return P e with
  | errorString a s => HerrorString a s
  | deadlineExceededError => Hdeadline
  | wrapError m o => HwrapError m o (opt o)
  | DBError s c m => HDBError s c m (opt s) (opt c)
  | driverError m k o => HdriverError m k o (opt o)
  end.
End error_induction.

(** ** Sentinels *)

(** Package [db] ([var ( ErrNotFound = errors.New(...) ... )]). *)
Definition ErrNotFound : error :=
  errorString 1 "sqltoolkit/db: record not found".
Definition ErrDuplicateKey : error :=
  errorString 2 "sqltoolkit/db: duplicate key".
Definition ErrForeignKeyViolation : error :=
  errorString 3 "sqltoolkit/db: foreign key violation".
Definition ErrDeadlock : error :=
  errorString 4 "sqltoolkit/db: deadlock detected".
Definition ErrTimeout : error :=
  errorString 5 "sqltoolkit/db: query timeout".
Definition ErrCheckViolation : error :=
  errorString 6 "sqltoolkit/db: check constraint violation".
Definition ErrConnectionFailed : error :=
  errorString 7 "sqltoolkit/db: connection failed".

(** Packages [database/sql] and [context]. *)
Definition sql_ErrNoRows : error :=
  errorString 101 "sql: no rows in result set".
Definition sql_ErrTxDone : error :=
  errorString 102 "sql: transaction has already been committed or rolled back".
Definition context_Canceled : error :=
  errorString 103 "context canceled".
Definition context_DeadlineExceeded : error := deadlineExceededError.

(** [useContextPackage], run from [init], sets the two package variables. *)
Definition context_deadline_exceeded : error := context_DeadlineExceeded.
Definition context_canceled : error := context_Canceled.

(** ** Equality of error values ([==] on the interface values) *)

Definition option_string_eqb (a b : option string) : bool :=
  match a, b with
  | Some x, Some y => String.eqb x y
  | None, None => true
  | _, _ => false
  end.

Definition option_Z_eqb (a b : option Z) : bool :=
  match a, b with
  | Some x, Some y => Z.eqb x y
  | None, None => true
  | _, _ => false
  end.

Definition driverCaps_eqb (a b : driverCaps) : bool :=
  option_string_eqb (capGetCode a) (capGetCode b)
  && option_string_eqb (capSQLState a) (capSQLState b)
  && option_Z_eqb (capNumber a) (capNumber b).

Fixpoint error_eqb (a b : error) : bool :=
  let opt (x y : option error) : bool :=
    match x, y with
    | Some u, Some v => error_eqb u v
    | None, None => true
    | _, _ => false
    end in
  match a, b with
  | errorString p s, errorString q t => Pos.eqb p q && String.eqb s t
  | deadlineExceededError, deadlineExceededError => true
  | wrapError m x, wrapError n y => String.eqb m n && opt x y
  | DBError s c m, DBError s' c' m' => opt s s' && opt c c' && String.eqb m m'
  | driverError m k x, driverError n l y =>
      String.eqb m n && driverCaps_eqb k l && opt x y
  | _, _ => false
  end.

(** ** The [Error()] method and the fmt verbs applied to errors *)

Fixpoint Error (e : error) : string :=
  match e with
  | errorString _ s => s
  | deadlineExceededError => "context deadline exceeded"
  | wrapError msg _ => msg
  | DBError s c m =>
      (* %s of e.Sentinel and %v of e.Cause; a nil operand prints as fmt does *)
      let sentinel := match s with Some x => Error x | None => "%!s(<nil>)" end in
      let cause := match c with Some x => Error x | None => "<nil>" end in
      if String.eqb m EmptyString
      then sentinel ++ " (cause: " ++ cause ++ ")"
      else sentinel ++ ": " ++ m ++ " (cause: " ++ cause ++ ")"
  | driverError msg _ _ => msg
  end.

(** [%v] of an error operand. *)
Definition fmt_v (e : option error) : string :=
  match e with Some x => Error x | None => "<nil>" end.

(** [%w] of an error operand. *)
Definition fmt_w (e : option error) : string :=
  match e with Some x => Error x | None => "%!w(<nil>)" end.

(** [%d] of an int. *)
Definition fmt_d (n : Z) : string := NilZero.string_of_int (Z.to_int n).

(** ** Package [errors] *)

(** The [Unwrap() error] method, for the types that have one. *)
Definition Unwrap (e : error) : option error :=
  match e with
  | wrapError _ x => x
  | DBError _ c _ => c
  | driverError _ _ x => x
  | _ => None
  end.

(** The loop of [errors.Is]: equal to the target, or the [Is] method says so
  ([DBError.Is] is [errors.Is(e.Sentinel, target)]), or go on with
  [Unwrap()]. *)
Fixpoint is_chain (err target : error) : bool :=
  error_eqb err target
  || match err with
     | DBError s c _ =>
         match s with Some x => is_chain x target | None => false end
         || match c with Some x => is_chain x target | None => false end
     | wrapError _ (Some x) => is_chain x target
     | driverError _ _ (Some x) => is_chain x target
     | _ => false
     end.

Definition errors_Is (err target : option error) : bool :=
  match err, target with
  | Some e, Some t => is_chain e t
  | None, None => true
  | _, _ => false
  end.

(** [errors.As(err, &dbe)] with [dbe] of type [*DBError]: the first [*DBError]
  on the chain. *)
Fixpoint as_DBError (err : error) : option error :=
  match err with
  | DBError _ _ _ => Some err
  | wrapError _ (Some x) => as_DBError x
  | driverError _ _ (Some x) => as_DBError x
  | _ => None
  end.

(** [errors.As(err, &c)] with [c] of an interface type asking for one method:
  the first value on the chain that has it, here its result. *)
Fixpoint as_cap (A : Type) (cap : driverCaps -> option A) (err : error)
  : option A :=
  match err with
  | driverError _ k x =>
      match cap k with
      | Some v => Some v
      | None => match x with Some y => as_cap cap y | None => None end
      end
  | wrapError _ (Some x) => as_cap cap x
  | DBError _ (Some x) _ => as_cap cap x
  | _ => None
  end.

(** ** Error helpers *)

Definition IsNotFound (err : option error) := errors_Is err (Some ErrNotFound).
Definition IsDuplicateKey (err : option error) := errors_Is err (Some ErrDuplicateKey).
Definition IsForeignKeyViolation (err : option error) :=
  errors_Is err (Some ErrForeignKeyViolation).
Definition IsDeadlock (err : option error) := errors_Is err (Some ErrDeadlock).
Definition IsTimeout (err : option error) := errors_Is err (Some ErrTimeout).
Definition IsCheckViolation (err : option error) :=
  errors_Is err (Some ErrCheckViolation).

(* ------------------------------------------------------------------------- *)
(** * The error mapper *)
(* ------------------------------------------------------------------------- *)

Definition ErrorMapper : Type := option error -> option error.

(** [&DBError{Sentinel: s, Cause: cause}]. *)
Definition newDBError (s : error) (cause : error) : option error :=
  Some (DBError (Some s) (Some cause) EmptyString).

Definition mapByPGCode (code : string) (cause : error) : option error :=
  if String.eqb code "23505" then newDBError ErrDuplicateKey cause
  else if String.eqb code "23503" then newDBError ErrForeignKeyViolation cause
  else if String.eqb code "23514" then newDBError ErrCheckViolation cause
  else if String.eqb code "40P01" then newDBError ErrDeadlock cause
  else if String.eqb code "57014" then newDBError ErrTimeout cause
  else if existsb (String.eqb code)
            ["08000"; "08003"; "08006"; "08001"; "08004"; "08007"; "08P01"]
       then newDBError ErrConnectionFailed cause
  else None.

Definition pqCodeFromString (s : string) : string :=
  let marker := "(SQLSTATE " in
  let idx := strings.LastIndex s marker in
  if idx <? 0 then EmptyString
  else
    let rest := strings.from s (idx + strings.len marker) in
    let end_ := strings.Index rest ")" in
    if end_ <? 0 then rest else strings.upto rest end_.

Definition mapPQError (err : error) : option error :=
  match as_cap capGetCode err with
  | None => mapByPGCode (pqCodeFromString (Error err)) err
  | Some code => mapByPGCode code err
  end.

Definition mapPGXError (err : error) : option error :=
  match as_cap capSQLState err with
  | None => None
  | Some state => mapByPGCode state err
  end.

Definition mapMySQLError (err : error) : option error :=
  match as_cap capNumber err with
  | None => None
  | Some number =>
      if Z.eqb number 1062 then newDBError ErrDuplicateKey err
      else if existsb (Z.eqb number) [1452; 1216; 1217]
           then newDBError ErrForeignKeyViolation err
      else if Z.eqb number 1213 then newDBError ErrDeadlock err
      else if Z.eqb number 3024 then newDBError ErrTimeout err
      else if existsb (Z.eqb number) [1045; 2002; 2003; 2006; 2013]
           then newDBError ErrConnectionFailed err
      else None
  end.

Definition mapSQLiteError (err : error) : option error :=
  let s := Error err in
  if strings.Contains s "UNIQUE constraint failed"
  then newDBError ErrDuplicateKey err
  else if strings.Contains s "FOREIGN KEY constraint failed"
  then newDBError ErrForeignKeyViolation err
  else if strings.Contains s "CHECK constraint failed"
  then newDBError ErrCheckViolation err
  else if strings.Contains s "database is locked"
  then newDBError ErrDeadlock err
  else None.

Definition defaultMap (err : option error) : option error :=
  match err with
  | None => None
  | Some e =>
      (* Standard library sentinel *)
      if errors_Is err (Some sql_ErrNoRows) then newDBError ErrNotFound e
      (* Context errors *)
      else if errors_Is err (Some context_deadline_exceeded)
              || errors_Is err (Some context_canceled)
      then newDBError ErrTimeout e
      (* Already mapped: do not double-wrap *)
      else if match as_DBError e with Some _ => true | None => false end
      then err
      else match mapPQError e with
           | Some mapped => Some mapped
           | None =>
      match mapPGXError e with
      | Some mapped => Some mapped
      | None =>
      match mapMySQLError e with
      | Some mapped => Some mapped
      | None =>
      match mapSQLiteError e with
      | Some mapped => Some mapped
      | None => err
      end end end end
  end.

Definition DefaultErrorMapper : ErrorMapper := defaultMap.


(* ------------------------------------------------------------------------- *)
(** * Effects: state passing with panics *)
(* ------------------------------------------------------------------------- *)

(** The value a panic carries (what [recover()] returns). *)
Definition panicValue : Type := string.

Inductive outcome (A : Type) : Type :=
| Returned (a : A)
| Panicked (p : panicValue).

Arguments Returned {A} a.
Arguments Panicked {A} p.

(** A computation over a state [W] that returns or panics. *)
Definition M (W A : Type) : Type := W -> W * outcome A.

Definition ret {W A : Type} (a : A) : M W A := fun w => (w, Returned a).

Definition bind {W A B : Type} (m : M W A) (k : A -> M W B) : M W B :=
  fun w =>
    match m w with
    | (w', Returned a) => k a w'
    | (w', Panicked p) => (w', Panicked p)
    end.

Definition panic {W A : Type} (p : panicValue) : M W A :=
  fun w => (w, Panicked p).

(** [defer func() { ... }()] around [body]: the deferred function runs on
  every exit of [body] and sees how it ended; what it yields is what the
  enclosing function does (return, or go on panicking). *)
Definition defer_ {W A : Type} (body : M W A) (deferred : outcome A -> M W A)
  : M W A :=
  fun w => let (w', o) := body w in deferred o w'.

Declare Scope go_scope.
Delimit Scope go_scope with go.
Notation "x <- m ;; k" := (bind m (fun x => k))
  (at level 61, m at next level, right associativity) : go_scope.
Notation "' p <- m ;; k" := (bind m (fun x => match x with p => k end))
  (at level 61, p pattern, m at next level, right associativity) : go_scope.
Notation "m ;; k" := (bind m (fun _ => k))
  (at level 61, right associativity) : go_scope.
Open Scope go_scope.

(* ------------------------------------------------------------------------- *)
(** * Time, contexts, values *)
(* ------------------------------------------------------------------------- *)

Definition Time : Type := Z.       (* an instant, in nanoseconds *)
Definition Duration : Type := Z.   (* time.Duration *)

(** A bound parameter of a statement ([any]). *)
Inductive any : Type :=
| VNil
| VInt (n : Z)
| VString (s : string)
| VBool (b : bool).

(** [context.Context], as built by package [context]. *)
Inductive Context : Type :=
| Background
| withCancel (parent : Context)
| withDeadline (parent : Context) (d : Time)
| withValue (parent : Context) (key val : string).

(** [ctx.Deadline()]: [Some d] when a deadline is set (the [ok] result). *)
Fixpoint Deadline (ctx : Context) : option Time :=
  match ctx with
  | Background => None
  | withCancel p => Deadline p
  | withDeadline p d =>
      match Deadline p with
      | Some cur => Some (Z.min cur d)
      | None => Some d
      end
  | withValue p _ _ => Deadline p
  end.

(** [context.WithDeadline(parent, d)]. *)
Definition context_WithDeadline (parent : Context) (d : Time) : Context :=
  match Deadline parent with
  | Some cur => if cur <? d then withCancel parent else withDeadline parent d
  | None => withDeadline parent d
  end.

(** [context.WithTimeout(parent, timeout)] called at instant [t]. *)
Definition context_WithTimeout (parent : Context) (timeout : Duration) (t : Time)
  : Context :=
  context_WithDeadline parent (t + timeout).

(* ------------------------------------------------------------------------- *)
(** * database/sql: what the toolkit calls *)
(* ------------------------------------------------------------------------- *)

Definition sqlResult : Type := option (Z * Z). (* LastInsertId, RowsAffected *)
Definition sqlRows : Type := option (list (list any)).
Definition sqlStmt : Type := nat.
Definition sqlTx : Type := nat.

(** [*sql.Row]: the error of the query, kept until [Scan], and the first row. *)
Record sqlRow : Type := {
  rowErr : option error;
  rowVals : option (list any)
}.

(** The [Scan] method of [sql.Row]: the error it returns. *)
Definition sqlRow_Scan (r : sqlRow) : option error :=
  match rowErr r with
  | Some e => Some e
  | None =>
      match rowVals r with
      | None => Some sql_ErrNoRows
      | Some _ => None
      end
  end.

(** [sql.TxOptions]. *)
Record sql_TxOptions : Type := {
  sql_Isolation : Z;
  sql_ReadOnly : bool
}.

(* ------------------------------------------------------------------------- *)
(** * Hooks, the connection handle and the transaction handle *)
(* ------------------------------------------------------------------------- *)

Section Toolkit.

(** Everything outside the package: the database server and driver, the
    internal state of the caller's hooks, the wall clock. *)
Variable Ext : Type.

(** [time.Now()] reads the clock of the external state. *)
Variable now : Ext -> Time.

(** ** Hook interface *)

Record Hook : Type := {
  BeforeQuery : Context -> string -> list any -> M Ext unit;
  AfterQuery : Context -> string -> list any -> Duration -> option error
               -> M Ext unit
}.

(** ** Composite hook helper *)

(** [for _, h := range c.hooks { call(h) }] on a slice that may hold nil
    entries: calling a method of a nil interface value panics. *)
Fixpoint rangeHooks (call : Hook -> M Ext unit) (hooks : list (option Hook))
  : M Ext unit :=
  match hooks with
  | [] => ret tt
  | None :: _ =>
      panic "runtime error: invalid memory address or nil pointer dereference"
  | Some h :: rest => call h ;; rangeHooks call rest
  end.

Definition compositeHook_BeforeQuery (hooks : list (option Hook))
    (ctx : Context) (q : string) (args : list any) : M Ext unit :=
  rangeHooks (fun h => BeforeQuery h ctx q args) hooks.

Definition compositeHook_AfterQuery (hooks : list (option Hook))
    (ctx : Context) (q : string) (args : list any) (d : Duration)
    (err : option error) : M Ext unit :=
  rangeHooks (fun h => AfterQuery h ctx q args d err) hooks.

Definition CompositeHook (hooks : list (option Hook)) : Hook :=
  {| BeforeQuery := compositeHook_BeforeQuery hooks;
     AfterQuery := compositeHook_AfterQuery hooks |}.

(** ** What a run leaves behind *)

(** The calls a run makes, in order.  The first five are markers of the
    package's own calls; the others are the calls into [database/sql], with
    what they returned. *)
Inductive event : Type :=
| EvNotifyBefore (ctx : Context) (query : string) (args : list any)
    (* hookChain.Before is called *)
| EvNotifyAfter (ctx : Context) (query : string) (args : list any)
    (d : Duration) (err : option error)
    (* hookChain.After is called *)
| EvBeforeQuery (i : nat) (ctx : Context) (query : string) (args : list any)
    (* the chain calls BeforeQuery of its i-th hook *)
| EvAfterQuery (i : nat) (ctx : Context) (query : string) (args : list any)
    (d : Duration) (err : option error)
    (* the chain calls AfterQuery of its i-th hook *)
| EvSlogError (msg : string) (p : panicValue)
    (* slog.Error(msg, "panic", p) *)
| EvExecContext (tx : option sqlTx) (ctx : Context) (query : string)
    (args : list any) (res : sqlResult) (err : option error)
| EvQueryContext (tx : option sqlTx) (ctx : Context) (query : string)
    (args : list any) (rows : sqlRows) (err : option error)
| EvQueryRowContext (tx : option sqlTx) (ctx : Context) (query : string)
    (args : list any) (row : sqlRow)
| EvPrepareContext (tx : option sqlTx) (ctx : Context) (query : string)
    (stmt : sqlStmt) (err : option error)
| EvBeginTx (ctx : Context) (opts : option sql_TxOptions) (tx : sqlTx)
    (err : option error)
| EvCommit (tx : sqlTx) (err : option error)
| EvRollback (tx : sqlTx) (err : option error).

Record world : Type := {
  ext : Ext;
  trace : list event
}.

Definition emit (e : event) : M world unit :=
  fun w => ({| ext := ext w; trace := trace w ++ [e] |}, Returned tt).

(** A computation of the outside, run inside the package. *)
Definition external {A : Type} (f : M Ext A) : M world A :=
  fun w => let (x, o) := f (ext w) in ({| ext := x; trace := trace w |}, o).

(** A call into [database/sql]: it returns, and the call is recorded. *)
Definition sqlcall {A : Type} (f : Ext -> Ext * A) (ev : A -> event)
  : M world A :=
  fun w =>
    let (x, a) := f (ext w) in
    ({| ext := x; trace := trace w ++ [ev a] |}, Returned a).

Definition time_Now : M world Time := fun w => (w, Returned (now (ext w))).

Definition time_Since (start : Time) : M world Duration :=
  t <- time_Now ;; ret (t - start).

(** ** hookChain: the internal dispatcher *)

Record hookChain : Type := { chain_hooks : list Hook }.

Definition newHookChain (hooks : list (option Hook)) : hookChain :=
  {| chain_hooks :=
       flat_map (fun h => match h with Some x => [x] | None => [] end) hooks |}.

Definition safeBeforeQuery (h : Hook) (ctx : Context) (query : string)
    (args : list any) : M world unit :=
  defer_ (external (BeforeQuery h ctx query args))
    (fun o =>
       match o with
       | Panicked r =>
           emit (EvSlogError "sqltoolkit/db: hook panic in BeforeQuery" r)
       | Returned _ => ret tt
       end).

Definition safeAfterQuery (h : Hook) (ctx : Context) (query : string)
    (args : list any) (d : Duration) (err : option error) : M world unit :=
  defer_ (external (AfterQuery h ctx query args d err))
    (fun o =>
       match o with
       | Panicked r =>
           emit (EvSlogError "sqltoolkit/db: hook panic in AfterQuery" r)
       | Returned _ => ret tt
       end).

(** [for _, h := range c.hooks { safeBeforeQuery(h, ...) }], from the
    [i]-th hook on. *)
Fixpoint rangeBefore (i : nat) (hooks : list Hook) (ctx : Context)
    (query : string) (args : list any) : M world unit :=
  match hooks with
  | [] => ret tt
  | h :: rest =>
      emit (EvBeforeQuery i ctx query args) ;;
      safeBeforeQuery h ctx query args ;;
      rangeBefore (S i) rest ctx query args
  end.

Fixpoint rangeAfter (i : nat) (hooks : list Hook) (ctx : Context)
    (query : string) (args : list any) (d : Duration) (err : option error)
  : M world unit :=
  match hooks with
  | [] => ret tt
  | h :: rest =>
      emit (EvAfterQuery i ctx query args d err) ;;
      safeAfterQuery h ctx query args d err ;;
      rangeAfter (S i) rest ctx query args d err
  end.

Definition hookChain_Before (c : hookChain) (ctx : Context) (query : string)
    (args : list any) : M world unit :=
  emit (EvNotifyBefore ctx query args) ;;
  rangeBefore 0 (chain_hooks c) ctx query args.

Definition hookChain_After (c : hookChain) (ctx : Context) (query : string)
    (args : list any) (d : Duration) (err : option error) : M world unit :=
  emit (EvNotifyAfter ctx query args d err) ;;
  rangeAfter 0 (chain_hooks c) ctx query args d err.

(** ** Config and DB *)

Record Config : Type := {
  DSN : string;
  DriverName : string;
  MaxOpenConns : Z;
  MaxIdleConns : Z;
  ConnMaxLifetime : Duration;
  ConnMaxIdleTime : Duration;
  DefaultTimeout : Duration;
  Hooks : list (option Hook)
}.

(** [*sql.DB] with the transactions it hands out: the methods the package
    calls.  [None] as first argument is a call on the pool, [Some tx] a call
    on that transaction. *)
Record sqlDB : Type := {
  ExecContext : option sqlTx -> Context -> string -> list any
                -> Ext -> Ext * (sqlResult * option error);
  QueryContext : option sqlTx -> Context -> string -> list any
                 -> Ext -> Ext * (sqlRows * option error);
  QueryRowContext : option sqlTx -> Context -> string -> list any
                    -> Ext -> Ext * sqlRow;
  PrepareContext : option sqlTx -> Context -> string
                   -> Ext -> Ext * (sqlStmt * option error);
  BeginTx : Context -> option sql_TxOptions -> Ext -> Ext * (sqlTx * option error);
  Commit : sqlTx -> Ext -> Ext * option error;
  Rollback : sqlTx -> Ext -> Ext * option error
}.

Record DB : Type := {
  DB_sqldb : sqlDB;
  DB_cfg : Config;
  DB_hooks : hookChain;
  DB_errMap : ErrorMapper
}.

(** The handle [Open] builds once the pool is open and answers the ping. *)
Definition opened (sqldb : sqlDB) (cfg : Config) : DB :=
  {| DB_sqldb := sqldb;
     DB_cfg := cfg;
     DB_hooks := newHookChain (Hooks cfg);
     DB_errMap := DefaultErrorMapper |}.

Definition SetErrorMapper (d : DB) (m : ErrorMapper) : DB :=
  {| DB_sqldb := DB_sqldb d; DB_cfg := DB_cfg d; DB_hooks := DB_hooks d;
     DB_errMap := m |}.

(** ** Row and Stmt *)

Record Row : Type := {
  Row_raw : sqlRow;
  Row_errMap : ErrorMapper
}.

Definition Row_Scan (r : Row) : option error :=
  let err := sqlRow_Scan (Row_raw r) in
  Row_errMap r err.

Record Stmt : Type := {
  Stmt_stmt : sqlStmt;
  Stmt_query : string;
  Stmt_hooks : hookChain;
  Stmt_errMap : ErrorMapper
}.

(** ** Internal helpers *)

Definition applyDefaultTimeout (d : DB) (ctx : Context) : M world Context :=
  if DefaultTimeout (DB_cfg d) =? 0 then ret ctx
  else
    match Deadline ctx with
    | Some _ => ret ctx (* caller already set a deadline *)
    | None =>
        t <- time_Now ;;
        ret (context_WithTimeout ctx (DefaultTimeout (DB_cfg d)) t)
    end.

Definition DB_mapErr (d : DB) (err : option error) : option error :=
  match err with
  | None => None
  | Some _ => DB_errMap d err
  end.

(** ** Query execution helpers of DB *)

Definition DB_Exec (d : DB) (ctx : Context) (query : string) (args : list any)
  : M world (sqlResult * option error) :=
  ctx <- applyDefaultTimeout d ctx ;;
  start <- time_Now ;;
  hookChain_Before (DB_hooks d) ctx query args ;;
  '(res, err) <- sqlcall (ExecContext (DB_sqldb d) None ctx query args)
                   (fun r => EvExecContext None ctx query args (fst r) (snd r)) ;;
  let err := DB_mapErr d err in
  elapsed <- time_Since start ;;
  hookChain_After (DB_hooks d) ctx query args elapsed err ;;
  ret (res, err).

Definition DB_Query (d : DB) (ctx : Context) (query : string) (args : list any)
  : M world (sqlRows * option error) :=
  ctx <- applyDefaultTimeout d ctx ;;
  start <- time_Now ;;
  hookChain_Before (DB_hooks d) ctx query args ;;
  '(rows, err) <- sqlcall (QueryContext (DB_sqldb d) None ctx query args)
                    (fun r => EvQueryContext None ctx query args (fst r) (snd r)) ;;
  let err := DB_mapErr d err in
  elapsed <- time_Since start ;;
  hookChain_After (DB_hooks d) ctx query args elapsed err ;;
  ret (rows, err).

Definition DB_QueryRow (d : DB) (ctx : Context) (query : string)
    (args : list any) : M world Row :=
  ctx <- applyDefaultTimeout d ctx ;;
  start <- time_Now ;;
  hookChain_Before (DB_hooks d) ctx query args ;;
  raw <- sqlcall (QueryRowContext (DB_sqldb d) None ctx query args)
           (EvQueryRowContext None ctx query args) ;;
  elapsed <- time_Since start ;;
  hookChain_After (DB_hooks d) ctx query args elapsed None ;; (* err unknown until Scan *)
  ret {| Row_raw := raw; Row_errMap := DB_errMap d |}.

Definition DB_Prepare (d : DB) (ctx : Context) (query : string)
  : M world (option Stmt * option error) :=
  ctx <- applyDefaultTimeout d ctx ;;
  '(s, err) <- sqlcall (PrepareContext (DB_sqldb d) None ctx query)
                 (fun r => EvPrepareContext None ctx query (fst r) (snd r)) ;;
  match err with
  | Some _ => ret (None, DB_mapErr d err)
  | None =>
      ret (Some {| Stmt_stmt := s; Stmt_query := query;
                   Stmt_hooks := DB_hooks d; Stmt_errMap := DB_errMap d |},
           None)
  end.

(** ** Tx: the transaction wrapper *)

Record Tx : Type := {
  Tx_conn : sqlDB;     (* the session the transaction runs on *)
  Tx_sqltx : sqlTx;
  Tx_hooks : hookChain;
  Tx_errMap : ErrorMapper;
  Tx_cfg : Config
}.

Definition Tx_mapErr (t : Tx) (err : option error) : option error :=
  match err with
  | None => None
  | Some _ => Tx_errMap t err
  end.

Definition Tx_Exec (t : Tx) (ctx : Context) (query : string) (args : list any)
  : M world (sqlResult * option error) :=
  start <- time_Now ;;
  hookChain_Before (Tx_hooks t) ctx query args ;;
  '(res, err) <- sqlcall (ExecContext (Tx_conn t) (Some (Tx_sqltx t)) ctx query args)
                   (fun r => EvExecContext (Some (Tx_sqltx t)) ctx query args
                               (fst r) (snd r)) ;;
  let err := Tx_mapErr t err in
  elapsed <- time_Since start ;;
  hookChain_After (Tx_hooks t) ctx query args elapsed err ;;
  ret (res, err).

Definition Tx_Query (t : Tx) (ctx : Context) (query : string) (args : list any)
  : M world (sqlRows * option error) :=
  start <- time_Now ;;
  hookChain_Before (Tx_hooks t) ctx query args ;;
  '(rows, err) <- sqlcall (QueryContext (Tx_conn t) (Some (Tx_sqltx t)) ctx query args)
                    (fun r => EvQueryContext (Some (Tx_sqltx t)) ctx query args
                                (fst r) (snd r)) ;;
  let err := Tx_mapErr t err in
  elapsed <- time_Since start ;;
  hookChain_After (Tx_hooks t) ctx query args elapsed err ;;
  ret (rows, err).

Definition Tx_QueryRow (t : Tx) (ctx : Context) (query : string)
    (args : list any) : M world Row :=
  start <- time_Now ;;
  hookChain_Before (Tx_hooks t) ctx query args ;;
  raw <- sqlcall (QueryRowContext (Tx_conn t) (Some (Tx_sqltx t)) ctx query args)
           (EvQueryRowContext (Some (Tx_sqltx t)) ctx query args) ;;
  elapsed <- time_Since start ;;
  hookChain_After (Tx_hooks t) ctx query args elapsed None ;;
  ret {| Row_raw := raw; Row_errMap := Tx_errMap t |}.

Definition Tx_Prepare (t : Tx) (ctx : Context) (query : string)
  : M world (option Stmt * option error) :=
  '(s, err) <- sqlcall (PrepareContext (Tx_conn t) (Some (Tx_sqltx t)) ctx query)
                 (fun r => EvPrepareContext (Some (Tx_sqltx t)) ctx query
                             (fst r) (snd r)) ;;
  match err with
  | Some _ => ret (None, Tx_mapErr t err)
  | None =>
      ret (Some {| Stmt_stmt := s; Stmt_query := query;
                   Stmt_hooks := Tx_hooks t; Stmt_errMap := Tx_errMap t |},
           None)
  end.

(** ** ExecTx: the transaction helper on DB *)

Record TxOptions : Type := {
  Isolation : Z;
  ReadOnly : bool
}.

(** [fmt.Errorf("sqltoolkit/db: rollback failed (%v) after original error: %w",
    rbErr, err)]. *)
Definition rollbackFailed (rbErr err : option error) : error :=
  wrapError
    ("sqltoolkit/db: rollback failed (" ++ fmt_v rbErr
       ++ ") after original error: " ++ fmt_w err)
    err.

(** The calls on [*sql.DB] and [*sql.Tx] that [ExecTxOpts] makes. *)
Definition beginTx (d : DB) (ctx : Context) (sqlOpts : option sql_TxOptions)
  : M world (sqlTx * option error) :=
  sqlcall (BeginTx (DB_sqldb d) ctx sqlOpts)
    (fun r => EvBeginTx ctx sqlOpts (fst r) (snd r)).

Definition commit (d : DB) (sqltx : sqlTx) : M world (option error) :=
  sqlcall (Commit (DB_sqldb d) sqltx) (EvCommit sqltx).

Definition rollback (d : DB) (sqltx : sqlTx) : M world (option error) :=
  sqlcall (Rollback (DB_sqldb d) sqltx) (EvRollback sqltx).

(** [sqlOpts], from the variadic [opts]. *)
Definition sqlOptsOf (opts : list TxOptions) : option sql_TxOptions :=
  match opts with
  | o :: _ => Some {| sql_Isolation := Isolation o; sql_ReadOnly := ReadOnly o |}
  | [] => None
  end.

(** [&Tx{sqltx: sqltx, hooks: d.hooks, errMap: d.errMap, cfg: d.cfg}]. *)
Definition newTx (d : DB) (sqltx : sqlTx) : Tx :=
  {| Tx_conn := DB_sqldb d; Tx_sqltx := sqltx; Tx_hooks := DB_hooks d;
     Tx_errMap := DB_errMap d; Tx_cfg := DB_cfg d |}.

(** The deferred function of [ExecTxOpts]; [o] is how the function body
    ended: by a panic, or by a return that set the named result [err]. *)
Definition ExecTxOpts_deferred (d : DB) (sqltx : sqlTx)
    (o : outcome (option error)) : M world (option error) :=
  match o with
  | Panicked p =>
      _ <- rollback d sqltx ;;
      panic p (* re-panic after rollback *)
  | Returned (Some e) =>
      rbErr <- rollback d sqltx ;;
      match rbErr with
      | Some _ =>
          (* Wrap both errors so callers see the full picture. *)
          ret (Some (rollbackFailed rbErr (Some e)))
      | None => ret (Some e)
      end
  | Returned None => ret None
  end.

(** The statements of [ExecTxOpts] after the [defer]. *)
Definition ExecTxOpts_body (d : DB) (sqltx : sqlTx)
    (fn : Tx -> M world (option error)) : M world (option error) :=
  err <- fn (newTx d sqltx) ;;
  match err with
  | Some _ => ret (DB_mapErr d err) (* rollback handled by defer *)
  | None =>
      err <- commit d sqltx ;;
      match err with
      | Some _ => ret (DB_mapErr d err)
      | None => ret None
      end
  end.

Definition DB_ExecTxOpts (d : DB) (ctx : Context)
    (fn : Tx -> M world (option error)) (opts : list TxOptions)
  : M world (option error) :=
  ctx <- applyDefaultTimeout d ctx ;;
  let sqlOpts := sqlOptsOf opts in
  '(sqltx, err) <- beginTx d ctx sqlOpts ;;
  match err with
  | Some _ => ret (DB_mapErr d err)
  | None =>
      (* Ensure rollback on panic or error. *)
      defer_ (ExecTxOpts_body d sqltx fn) (ExecTxOpts_deferred d sqltx)
  end.

Definition DB_ExecTx (d : DB) (ctx : Context)
    (fn : Tx -> M world (option error)) (opts : list TxOptions)
  : M world (option error) :=
  DB_ExecTxOpts d ctx fn opts.

(** ** Querier: the interface shared by DB and Tx *)

Inductive Querier : Type :=
| QuerierDB (d : DB)
| QuerierTx (t : Tx).

(** The methods of the interface, and what each returns. *)
Inductive method : Type := mExec | mQuery | mQueryRow | mPrepare.

Inductive reply : Type :=
| ExecReply (res : sqlResult) (err : option error)
| QueryReply (rows : sqlRows) (err : option error)
| QueryRowReply (row : Row)
| PrepareReply (stmt : option Stmt) (err : option error).

(** The call [q.m(ctx, query, args...)] ([Prepare] takes no [args]). *)
Definition invoke (q : Querier) (m : method) (ctx : Context) (query : string)
    (args : list any) : M world reply :=
  match q, m with
  | QuerierDB d, mExec =>
      '(res, err) <- DB_Exec d ctx query args ;; ret (ExecReply res err)
  | QuerierDB d, mQuery =>
      '(rows, err) <- DB_Query d ctx query args ;; ret (QueryReply rows err)
  | QuerierDB d, mQueryRow =>
      row <- DB_QueryRow d ctx query args ;; ret (QueryRowReply row)
  | QuerierDB d, mPrepare =>
      '(s, err) <- DB_Prepare d ctx query ;; ret (PrepareReply s err)
  | QuerierTx t, mExec =>
      '(res, err) <- Tx_Exec t ctx query args ;; ret (ExecReply res err)
  | QuerierTx t, mQuery =>
      '(rows, err) <- Tx_Query t ctx query args ;; ret (QueryReply rows err)
  | QuerierTx t, mQueryRow =>
      row <- Tx_QueryRow t ctx query args ;; ret (QueryRowReply row)
  | QuerierTx t, mPrepare =>
      '(s, err) <- Tx_Prepare t ctx query ;; ret (PrepareReply s err)
  end.

Definition Querier_hooks (q : Querier) : hookChain :=
  match q with QuerierDB d => DB_hooks d | QuerierTx t => Tx_hooks t end.

Definition Querier_mapErr (q : Querier) : option error -> option error :=
  match q with QuerierDB d => DB_mapErr d | QuerierTx t => Tx_mapErr t end.

(** The error the caller ends up with: the one returned next to the result,
or for [QueryRow] the one [Scan] returns on the row. *)
Definition replyErr (r : reply) : option error :=
match r with
| ExecReply _ err | QueryReply _ err | PrepareReply _ err => err
| QueryRowReply row => Row_Scan row
end.

End Toolkit.

Arguments ExecReply {Ext} res err.
Arguments QueryReply {Ext} rows err.
Arguments QueryRowReply {Ext} row.


(* ------------------------------------------------------------------------- *)
(** * WithRetry: the resilience helper *)
(* ------------------------------------------------------------------------- *)

Record RetryConfig : Type := {
  MaxAttempts : Z;
  Delay : Duration;
  RetryOn : option (option error -> bool)
}.

(** [fmt.Errorf("sqltoolkit/db: all %d attempts failed, last error: %w",
  cfg.MaxAttempts, lastErr)]. *)
Definition allAttemptsFailed (maxAttempts : Z) (lastErr : option error) : error :=
  wrapError
    ("sqltoolkit/db: all " ++ fmt_d maxAttempts
       ++ " attempts failed, last error: " ++ fmt_w lastErr)
    lastErr.

Section Retry.

(** The state the operation and the wait act on. *)
Variable W : Type.

(** The [select] between [ctx.Done()] and [time.After(delay)]: [None] when
    the timer fires, [Some e] when the context is done first, [e] being what
    [ctx.Err()] then returns. *)
Variable selectDone : Context -> Duration -> W -> W * option error.

Definition retryOnOf (cfg : RetryConfig) : option error -> bool :=
  match RetryOn cfg with
  | Some f => f
  | None => fun err => IsDeadlock err || IsTimeout err
  end.

(** The [for] loop of [WithRetry], with [remaining] iterations to go:
    [remaining] is [cfg.MaxAttempts - attempt], or 0 when that is negative. *)
Fixpoint retryLoop (remaining : nat) (ctx : Context) (cfg : RetryConfig)
    (fn : M W (option error)) (attempt : Z) (lastErr : option error)
  : M W (option error) :=
  match remaining with
  | O => ret (Some (allAttemptsFailed (MaxAttempts cfg) lastErr))
  | S k =>
      done <- (if 0 <? attempt
               then fun w => let (w', r) := selectDone ctx (Delay cfg) w in
                             (w', Returned r)
               else ret None) ;;
      match done with
      | Some ctxErr => ret (Some ctxErr)
      | None =>
          lastErr <- fn ;;
          match lastErr with
          | None => ret None
          | Some _ =>
              if negb (retryOnOf cfg lastErr) then ret lastErr
              else retryLoop k ctx cfg fn (attempt + 1) lastErr
          end
      end
  end.

Definition WithRetry (ctx : Context) (cfg : RetryConfig)
    (fn : M W (option error)) : M W (option error) :=
  retryLoop (Z.to_nat (MaxAttempts cfg)) ctx cfg fn 0 None.

End Retry.

(* ------------------------------------------------------------------------- *)
(** * Instrumented retries: the calls [WithRetry] makes *)
(* ------------------------------------------------------------------------- *)

(** What [WithRetry] does, step by step: a call of the operation with how it
  ended, or a wait with the context whose [Done] channel the [select] reads,
  the duration asked for and what ended it. *)
Inductive retryEvent : Type :=
| Attempt (r : outcome (option error))
| Wait (ctx : Context) (d : Duration) (done : option error).

Definition isAttempt (ev : retryEvent) : bool :=
  match ev with Attempt _ => true | Wait _ _ _ => false end.

Section RetryLog.

Variable W : Type.

(** The operation [fn], with each call written to a log next to the state.
    [fn] acts on [W] alone and cannot reach the log. *)
Definition loggedFn (fn : M W (option error))
  : M (W * list retryEvent) (option error) :=
  fun s => let (w', o) := fn (fst s) in ((w', (snd s ++ [Attempt o])%list), o).

(** The same for the [select]. *)
Definition loggedSelect (sel : Context -> Duration -> W -> W * option error)
  : Context -> Duration -> W * list retryEvent
    -> (W * list retryEvent) * option error :=
  fun ctx d s =>
    let (w', r) := sel ctx d (fst s) in
    ((w', (snd s ++ [Wait ctx d r])%list), r).

(** The loop of [WithRetry] run on the logged operation and wait. *)
Definition loggedLoop (sel : Context -> Duration -> W -> W * option error)
  (ctx : Context) (cfg : RetryConfig) (fn : M W (option error))
  (k : nat) (attempt : Z) (lastErr : option error)
  : M (W * list retryEvent) (option error) :=
retryLoop (loggedSelect sel) k ctx cfg (loggedFn fn) attempt lastErr.

End RetryLog.

(** How many times the operation was called. *)
Definition attempts (log : list retryEvent) : nat :=
  length (filter isAttempt log).

(** The steps after which the loop goes on: a wait the timer ended, and an
    attempt that returned an error. *)
Definition running (ev : retryEvent) : bool :=
  match ev with
  | Wait _ _ None => true
  | Attempt (Returned (Some _)) => true
  | _ => false
  end.

(** The logs [WithRetry] can leave when called with context [ctx] and delay
  [delay]: empty, or a first attempt, then after an attempt either a
  completed wait and the next attempt, or a wait cut short by the context,
  which ends the log.  Every wait is on [ctx] and for [delay]. *)
Inductive retryLog (ctx : Context) (delay : Duration)
  : list retryEvent -> Prop :=
| retryLog_none : retryLog ctx delay []
| retryLog_first r : retryLog ctx delay [Attempt r]
| retryLog_next l r r' :
  retryLog ctx delay (l ++ [Attempt r]) ->
  retryLog ctx delay (l ++ [Attempt r; Wait ctx delay None; Attempt r'])
| retryLog_cancelled l r e :
  retryLog ctx delay (l ++ [Attempt r]) ->
  retryLog ctx delay (l ++ [Attempt r; Wait ctx delay (Some e)]).

(* ------------------------------------------------------------------------- *)
(** * Reading traces *)
(* ------------------------------------------------------------------------- *)

Definition isSlog (ev : event) : bool :=
  match ev with EvSlogError _ _ => true | _ => false end.

(** The events the hook chain adds while it walks its hooks. *)
Definition isHookEvent (ev : event) : bool :=
  match ev with
  | EvBeforeQuery _ _ _ _ | EvAfterQuery _ _ _ _ _ _ | EvSlogError _ _ => true
  | _ => false
  end.

(** A trace without the log lines of recovered panics. *)
Definition dropSlog (evs : list event) : list event :=
  filter (fun ev => negb (isSlog ev)) evs.

(** The panic values logged, in order. *)
Definition slogged (evs : list event) : list (string * panicValue) :=
  flat_map (fun ev => match ev with EvSlogError m p => [(m, p)] | _ => [] end) evs.

(** The calls of an executor operation itself: the two notifications and the
  call into [database/sql]. *)
Definition skeleton (evs : list event) : list event :=
  filter (fun ev => negb (isHookEvent ev)) evs.

(** The context a call into [database/sql] was made with. *)
Definition callCtx (ev : event) : option Context :=
  match ev with
  | EvExecContext _ ctx _ _ _ _ | EvQueryContext _ ctx _ _ _ _
  | EvQueryRowContext _ ctx _ _ _ | EvPrepareContext _ ctx _ _ _
  | EvBeginTx ctx _ _ _ => Some ctx
  | _ => None
  end.

(** The error a statement came back with: the returned error, or for
  [QueryRowContext] the error the row holds until [Scan]. *)
Definition callErr (ev : event) : option error :=
  match ev with
  | EvExecContext _ _ _ _ _ err | EvQueryContext _ _ _ _ _ err => err
  | EvQueryRowContext _ _ _ _ row => rowErr row
  | EvPrepareContext _ _ _ _ err => err
  | _ => None
  end.

(** [ev] is the call method [m] of a Querier makes, on the pool or on [tx]. *)
Definition isCallOf (m : method) (tx : option sqlTx) (query : string)
    (args : list any) (ev : event) : Prop :=
  match m, ev with
  | mExec, EvExecContext tx' _ q a _ _ => tx' = tx /\ q = query /\ a = args
  | mQuery, EvQueryContext tx' _ q a _ _ => tx' = tx /\ q = query /\ a = args
  | mQueryRow, EvQueryRowContext tx' _ q a _ => tx' = tx /\ q = query /\ a = args
  | mPrepare, EvPrepareContext tx' _ q _ _ => tx' = tx /\ q = query
  | _, _ => False
  end.

(** The classified error the mapper itself makes of [sql.ErrNoRows]
  (what [Row.Scan] returns when no row matches). *)
Definition notFoundError : error :=
  DBError (Some ErrNotFound) (Some sql_ErrNoRows) EmptyString.

(* ------------------------------------------------------------------------- *)
(** * Reference runs, for stating what the package does *)
(* ------------------------------------------------------------------------- *)

Section Observation.

Variable Ext : Type.
Variable now : Ext -> Time.

(** The walk of the chain seen from outside: every hook is called in turn
    on the state the one before left, whether that one panicked or not.
    The result is the state after the last hook and the panics raised. *)
Fixpoint runHooks (call : Hook Ext -> M Ext unit) (hooks : list (Hook Ext)) (x : Ext)
  : Ext * list panicValue :=
  match hooks with
  | [] => (x, [])
  | h :: rest =>
      let (x', o) := call h x in
      let (x'', ps) := runHooks call rest x' in
      (x'', match o with Panicked p => p :: ps | Returned _ => ps end)
  end.

(** The loop of [hookChain.Before] and of [hookChain.After], once for both. *)
Fixpoint rangeSafe (marker : nat -> event) (msg : string)
    (call : Hook Ext -> M Ext unit) (i : nat) (hooks : list (Hook Ext))   : M (world Ext) unit :=
  match hooks with
  | [] => ret tt
  | h :: rest =>
      emit (marker i) ;;
      defer_ (external (call h))
        (fun o =>
           match o with
           | Panicked r => emit (EvSlogError msg r)
           | Returned _ => ret tt
           end) ;;
      rangeSafe marker msg call (S i) rest
  end.

Definition beforeMarkers (n : nat) ctx q args : list event :=
  EvNotifyBefore ctx q args
  :: map (fun k => EvBeforeQuery k ctx q args) (seq 0 n).

Definition afterMarkers (n : nat) ctx q args d err : list event :=
  EvNotifyAfter ctx q args d err
  :: map (fun k => EvAfterQuery k ctx q args d err) (seq 0 n).

(** The external state after the chain has called [BeforeQuery], and
[AfterQuery], of every hook, and the panics raised on the way. *)
Definition extBefore (hooks : hookChain Ext) ctx q args (x : Ext) : Ext :=
fst (runHooks (fun h => BeforeQuery h ctx q args) (chain_hooks hooks) x).

Definition panicsBefore (hooks : hookChain Ext) ctx q args (x : Ext)
  : list panicValue :=
snd (runHooks (fun h => BeforeQuery h ctx q args) (chain_hooks hooks) x).

Definition extAfter (hooks : hookChain Ext) ctx q args d err (x : Ext) : Ext :=
fst (runHooks (fun h => AfterQuery h ctx q args d err) (chain_hooks hooks) x).

Definition panicsAfter (hooks : hookChain Ext) ctx q args d err (x : Ext)
  : list panicValue :=
snd (runHooks (fun h => AfterQuery h ctx q args d err) (chain_hooks hooks) x).

(** A hook computation with its panic taken away: the same effect on the
external state, and a normal return. *)
Definition quiet (m : M Ext unit) : M Ext unit :=
fun x => let (x', _) := m x in (x', Returned tt).

(** The hook [h] as it would be if its methods never panicked. *)
Definition calm (h : Hook Ext) : Hook Ext :=
{| BeforeQuery := fun ctx q args => quiet (BeforeQuery h ctx q args);
   AfterQuery := fun ctx q args d err => quiet (AfterQuery h ctx q args d err) |}.

Definition calmChain (c : hookChain Ext) : hookChain Ext :=
{| chain_hooks := map calm (chain_hooks c) |}.

(** The same handle with every hook of its chain calmed. *)
Definition calmQuerier (q : Querier Ext) : Querier Ext :=
match q with
| QuerierDB d =>
    QuerierDB {| DB_sqldb := DB_sqldb d; DB_cfg := DB_cfg d;
                 DB_hooks := calmChain (DB_hooks d); DB_errMap := DB_errMap d |}
| QuerierTx t =>
    QuerierTx {| Tx_conn := Tx_conn t; Tx_sqltx := Tx_sqltx t;
                 Tx_hooks := calmChain (Tx_hooks t); Tx_errMap := Tx_errMap t;
                 Tx_cfg := Tx_cfg t |}
end.

(** The transaction a handle runs its statements on, if any. *)
Definition Querier_tx (q : Querier Ext) : option sqlTx :=
match q with QuerierDB _ => None | QuerierTx t => Some (Tx_sqltx t) end.

(** The session a handle runs its statements on, and its mapper. *)
Definition Querier_conn (q : Querier Ext) : sqlDB Ext :=
match q with QuerierDB d => DB_sqldb d | QuerierTx t => Tx_conn t end.

Definition Querier_errMap (q : Querier Ext) : ErrorMapper :=
match q with QuerierDB d => DB_errMap d | QuerierTx t => Tx_errMap t end.

(** The call into [database/sql] that method [m] stands for, on the session
and the transaction of the handle: the state it leaves and the event it is
in a trace. *)
Definition sqlCallOf (q : Querier Ext) (m : method) (ctx : Context)
  (query : string) (args : list any) (x : Ext) : Ext * event :=
match m with
| mExec =>
    let (x', r) := ExecContext (Querier_conn q) (Querier_tx q) ctx query args x in
    (x', EvExecContext (Querier_tx q) ctx query args (fst r) (snd r))
| mQuery =>
    let (x', r) := QueryContext (Querier_conn q) (Querier_tx q) ctx query args x in
    (x', EvQueryContext (Querier_tx q) ctx query args (fst r) (snd r))
| mQueryRow =>
    let (x', row) :=
      QueryRowContext (Querier_conn q) (Querier_tx q) ctx query args x in
    (x', EvQueryRowContext (Querier_tx q) ctx query args row)
| mPrepare =>
    let (x', r) := PrepareContext (Querier_conn q) (Querier_tx q) ctx query x in
    (x', EvPrepareContext (Querier_tx q) ctx query (fst r) (snd r))
end.

(** What the caller is handed for a statement that came back as [call]: the
values of [database/sql] as they are, the error classified by the mapper of
the handle, and for [QueryRow] the row with that mapper. *)
Definition replyOf (q : Querier Ext) (call : event) : option (reply Ext) :=
match call with
| EvExecContext _ _ _ _ res err => Some (ExecReply res (Querier_mapErr q err))
| EvQueryContext _ _ _ _ rows err => Some (QueryReply rows (Querier_mapErr q err))
| EvQueryRowContext _ _ _ _ row =>
    Some (QueryRowReply {| Row_raw := row; Row_errMap := Querier_errMap q |})
| _ => None
end.

(** The statements that [Exec], [Query] and [QueryRow] of both handles have
in common, after the default timeout: read the clock, notify before, call
[database/sql], notify after with the elapsed time and an error. *)
Definition observed {A : Type} (hooks : hookChain Ext) (ctx : Context)
  (query : string) (args : list any) (call : Ext -> Ext * A) (ev : A -> event)
  (errOf : A -> option error) : M (world Ext) A :=
start <- time_Now now ;;
hookChain_Before hooks ctx query args ;;
a <- sqlcall call ev ;;
elapsed <- time_Since now start ;;
hookChain_After hooks ctx query args elapsed (errOf a) ;;
ret a.

End Observation.

Arguments calm {Ext} h.
Arguments quiet {Ext} m x.


(* ------------------------------------------------------------------------- *)
(** * A small database, for concrete runs *)
(* ------------------------------------------------------------------------- *)

(** The outside world of the concrete runs: a clock, the flag [database/sql]
    keeps on a transaction once [Commit] or [Rollback] was called on it, and
    the names of the hooks called so far. *)
Record demoState : Type := {
  clock : Time;
  txDone : bool;
  calls : list string
}.

Definition demoNow (s : demoState) : Time := clock s.

Definition demoStart : demoState :=
  {| clock := 100; txDone := false; calls := [] |}.

Definition demoWorld : world demoState := {| ext := demoStart; trace := [] |}.

(** A statement takes five nanoseconds. *)
Definition tick (s : demoState) : demoState :=
  {| clock := clock s + 5; txDone := txDone s; calls := calls s |}.

Definition finish (s : demoState) : demoState :=
  {| clock := clock s; txDone := true; calls := calls s |}.

(** A session whose statements come back with [stmtErr], whose single rows
    are [row], and whose commit comes back with [commitErr].  [Commit] and
    [Rollback] answer as [database/sql] does: the first of them finishes the
    transaction, and every later one returns [sql.ErrTxDone]. *)
Definition demoSql (stmtErr : option error) (row : sqlRow)
    (commitErr : option error) : sqlDB demoState :=
  {| ExecContext := fun _ _ _ _ s =>
       (tick s, (match stmtErr with None => Some (1, 1) | Some _ => None end,
                 stmtErr));
     QueryContext := fun _ _ _ _ s =>
       (tick s, (match stmtErr with None => Some [] | Some _ => None end,
                 stmtErr));
     QueryRowContext := fun _ _ _ _ s => (tick s, row);
     PrepareContext := fun _ _ _ s => (s, (1%nat, stmtErr));
     BeginTx := fun _ _ s =>
       ({| clock := clock s; txDone := false; calls := calls s |}, (7%nat, None));
     Commit := fun _ s =>
       if txDone s then (s, Some sql_ErrTxDone) else (finish s, commitErr);
     Rollback := fun _ s =>
       if txDone s then (s, Some sql_ErrTxDone) else (finish s, None) |}.

Definition note (name : string) (s : demoState) : demoState :=
  {| clock := clock s; txDone := txDone s; calls := calls s ++ [name] |}.

(** A hook that writes its name down. *)
Definition noteHook (name : string) : Hook demoState :=
  {| BeforeQuery := fun _ _ _ s => (note name s, Returned tt);
     AfterQuery := fun _ _ _ _ _ s => (note name s, Returned tt) |}.

(** A hook that writes its name down and panics. *)
Definition panicHook (name : string) : Hook demoState :=
  {| BeforeQuery := fun _ _ _ s => (note name s, Panicked name);
     AfterQuery := fun _ _ _ _ _ s => (note name s, Panicked name) |}.

Definition demoConfig (timeout : Duration) (hooks : list (option (Hook demoState)))
  : Config demoState :=
  {| DSN := ":memory:"; DriverName := "sqlite3";
     MaxOpenConns := 0; MaxIdleConns := 0;
     ConnMaxLifetime := 0; ConnMaxIdleTime := 0;
     DefaultTimeout := timeout; Hooks := hooks |}.

Definition goodRow : sqlRow := {| rowErr := None; rowVals := Some [VInt 1] |}.

(** A healthy database with three hooks, the second of which panics. *)
Definition demoDB : DB demoState :=
  opened (demoSql None goodRow None)
    (demoConfig 30 [Some (noteHook "first"); None; Some (panicHook "second");
                    Some (noteHook "third")]).

(** The error SQLite reports on a second insert of the same email. *)
Definition uniqueFailed : error :=
  driverError "UNIQUE constraint failed: users.email" noCaps None.

Definition failedRow : sqlRow := {| rowErr := Some uniqueFailed; rowVals := None |}.

(** A database on which every statement fails with [uniqueFailed]. *)
Definition failingDB : DB demoState :=
  opened (demoSql (Some uniqueFailed) failedRow None) (demoConfig 0 []).

Definition badConnection : error :=
  driverError "driver: bad connection" noCaps None.

(** A database whose commits fail. *)
Definition noCommitDB : DB demoState :=
  opened (demoSql None goodRow (Some badConnection)) (demoConfig 0 []).

Definition insertUser : string :=
  "INSERT INTO users (name, email) VALUES (?, ?) RETURNING id".

Definition aliceArgs : list any := [VString "Alice"; VString "alice@test.com"].

(** A transaction body that runs one statement and returns its error. *)
Definition insertBody (tx : Tx demoState) : M (world demoState) (option error) :=
  '(_, err) <- Tx_Exec demoNow tx Background insertUser aliceArgs ;; ret err.

(** A transaction body that returns [sql.ErrNoRows] as it got it from its
    own query on the raw transaction. *)
Definition noRowsBody (tx : Tx demoState) : M (world demoState) (option error) :=
  ret (Some sql_ErrNoRows).

(** ** Operations to retry *)

(** The state counts the calls; the operation always fails with a deadlock. *)
Definition alwaysDeadlock : M nat (option error) :=
  fun n => (S n, Returned (Some ErrDeadlock)).

(** The first two calls fail with a deadlock, the third succeeds. *)
Definition thirdTimeLucky : M nat (option error) :=
  fun n => (S n, Returned (if (n <? 2)%nat then Some ErrDeadlock else None)).

(** A world in which no context is ever done. *)
Definition neverDone : Context -> Duration -> nat -> nat * option error :=
  fun _ _ n => (n, None).

(** A world in which the cancel function of every context made by
    [context.WithCancel] has been called, and no other context is done. *)
Definition cancelCalled : Context -> Duration -> nat -> nat * option error :=
  fun ctx _ n =>
    match ctx with
    | withCancel _ => (n, Some context_Canceled)
    | _ => (n, None)
    end.

Definition threeAttempts : RetryConfig :=
  {| MaxAttempts := 3; Delay := 1000000; RetryOn := None |}.

Definition zeroAttempts : RetryConfig :=
  {| MaxAttempts := 0; Delay := 1000000; RetryOn := None |}.

(** ** The worlds a transaction goes through on these databases *)

(** The classified error of the failing insert. *)
Definition duplicateKeyError : error :=
  DBError (Some ErrDuplicateKey) (Some uniqueFailed) EmptyString.

(** After [BeginTx] on [failingDB], and after the body has run there. *)
Definition failingBegun : world demoState :=
  fst (beginTx failingDB Background None demoWorld).

Definition failingBodyDone : world demoState :=
  fst (insertBody (newTx failingDB 7%nat) failingBegun).

(** The same on [noCommitDB]. *)
Definition noCommitBegun : world demoState :=
  fst (beginTx noCommitDB Background None demoWorld).

Definition noCommitBodyDone : world demoState :=
  fst (insertBody (newTx noCommitDB 7%nat) noCommitBegun).

(** A database whose table is empty, and a transaction body that looks one
    row up with [QueryRow] and [Scan] and returns what [Scan] returns. *)
Definition emptyRow : sqlRow := {| rowErr := None; rowVals := None |}.

Definition emptyDB : DB demoState :=
  opened (demoSql None emptyRow None) (demoConfig 0 []).

Definition lookupBody (tx : Tx demoState) : M (world demoState) (option error) :=
  row <- Tx_QueryRow demoNow tx Background
           "SELECT name FROM users WHERE id = ?" [VInt 99999] ;;
  ret (Row_Scan row).

(** A composite of three hooks, the second of which panics. *)
Definition demoComposite : Hook demoState :=
  CompositeHook [Some (noteHook "a"); Some (panicHook "b"); Some (noteHook "c")].

(* ------------------------------------------------------------------------- *)
(** * The rest of the error layer *)
(* ------------------------------------------------------------------------- *)

(** The package-level [Err*] variables. *)
Definition sentinels : list error :=
  [ErrNotFound; ErrDuplicateKey; ErrForeignKeyViolation; ErrDeadlock;
   ErrTimeout; ErrCheckViolation; ErrConnectionFailed].

(** The cases of the [switch] of [mapByPGCode], read as a table. *)
Definition pgCodes : list (string * error) :=
  [("23505", ErrDuplicateKey);
   ("23503", ErrForeignKeyViolation);
   ("23514", ErrCheckViolation);
   ("40P01", ErrDeadlock);
   ("57014", ErrTimeout);
   ("08000", ErrConnectionFailed); ("08003", ErrConnectionFailed);
   ("08006", ErrConnectionFailed); ("08001", ErrConnectionFailed);
   ("08004", ErrConnectionFailed); ("08007", ErrConnectionFailed);
   ("08P01", ErrConnectionFailed)].

(** The cases of the [switch] of [mapMySQLError]. *)
Definition mysqlNumbers : list (Z * error) :=
  [(1062, ErrDuplicateKey);
   (1452, ErrForeignKeyViolation); (1216, ErrForeignKeyViolation);
   (1217, ErrForeignKeyViolation);
   (1213, ErrDeadlock);
   (3024, ErrTimeout);
   (1045, ErrConnectionFailed); (2002, ErrConnectionFailed);
   (2003, ErrConnectionFailed); (2006, ErrConnectionFailed);
   (2013, ErrConnectionFailed)].

(** The cases of the [switch] of [mapSQLiteError], in the order tested. *)
Definition sqliteTexts : list (string * error) :=
  [("UNIQUE constraint failed", ErrDuplicateKey);
   ("FOREIGN KEY constraint failed", ErrForeignKeyViolation);
   ("CHECK constraint failed", ErrCheckViolation);
   ("database is locked", ErrDeadlock)].

(** The errors that get past the first three tests of [defaultMap]: no
    [sql.ErrNoRows] and no context error on the chain, and no [*DBError]. *)
Definition reachesClassifiers (e : error) : bool :=
  negb (errors_Is (Some e) (Some sql_ErrNoRows))
  && negb (errors_Is (Some e) (Some context_deadline_exceeded))
  && negb (errors_Is (Some e) (Some context_canceled))
  && match as_DBError e with Some _ => false | None => true end.

(** An error type without any of the methods the classifiers look for. *)
Definition noDriverMethods (e : error) : Prop :=
  as_cap capGetCode e = None
  /\ as_cap capSQLState e = None
  /\ as_cap capNumber e = None.

(** ** ChainMapper *)

(** [mapped != err] on two interface values.  Go compares the dynamic types
    and then the values, pointers by their address; here the contents are
    compared.  The two agree when one side is nil, when the contents differ,
    and on the errors that [carriesIdentity] names.  They do not on a
    [*DBError], a [*fmt.wrapError] or an error of a driver that a mapper
    returns as a fresh copy with the same content: Go takes the copy for a
    change, and the chain returns it. *)
Definition error_neq (a b : option error) : bool :=
  match a, b with
  | Some x, Some y => negb (error_eqb x y)
  | None, None => false
  | _, _ => true
  end.

(** [for _, m := range mappers { if mapped := m.Map(err); mapped != err
    { return mapped } }; return err]. *)
Fixpoint ChainMapper_range (mappers : list ErrorMapper) (err : option error)
  : option error :=
  match mappers with
  | [] => err
  | m :: rest =>
      let mapped := m err in
      if error_neq mapped err then mapped else ChainMapper_range rest err
  end.

Definition ChainMapper (mappers : list ErrorMapper) : ErrorMapper :=
  fun err =>
    match err with
    | None => None
    | Some _ => ChainMapper_range mappers err
    end.

(** The errors on which [!=] is in Go what it is here: an [errors.New]
    value, a pointer whose address is part of the value here, and
    [context.DeadlineExceeded], a struct without fields, which Go compares by
    value.  A mapper that hands back such an error with the same content
    hands back the same interface value. *)
Definition carriesIdentity (e : error) : bool :=
  match e with
  | errorString _ _ | deadlineExceededError => true
  | _ => false
  end.

(** Mappers for concrete runs: one that knows a timeout of its own, one
    that turns every error into nil. *)
Definition lockMapper : ErrorMapper :=
  fun err =>
    match err with
    | Some e =>
        if strings.Contains (Error e) "lock wait timeout"
        then newDBError ErrTimeout e else err
    | None => None
    end.

Definition swallowMapper : ErrorMapper := fun _ => None.

(* ------------------------------------------------------------------------- *)
(** * Built-in hooks *)
(* ------------------------------------------------------------------------- *)

(** The horizontal ellipsis, three bytes in UTF-8. *)
Definition ellipsis : string :=
  String "226" (String "128" (String "166" EmptyString)).

Definition trimQuery (q : string) : string :=
  if 500 <? strings.len q then strings.upto q 500 ++ ellipsis else q.

(** The attributes the logging hook builds: [slog.String], [slog.Duration],
    and [slog.Any] of the bound parameters and of the error. *)
Inductive slogAttr : Type :=
| slog_String (key value : string)
| slog_Duration (key : string) (d : Duration)
| slog_Any_args (key : string) (args : list any)
| slog_Any_error (key : string) (err : option error).

Inductive slogLevel : Type := LevelDebug | LevelWarn | LevelError.

Section BuiltinHooks.

Variable Ext : Type.

(** [*slog.Logger]: [DebugContext], [WarnContext] and [ErrorContext] are
    [logAt] at the three levels. *)
Record slogLogger : Type := {
  logAt : slogLevel -> Context -> string -> list slogAttr -> M Ext unit
}.

(** [slog.Default()]. *)
Variable slog_Default : slogLogger.

Record LogHookConfig : Type := {
  Logger : option slogLogger;
  SlowQueryThreshold : Duration;
  LogArgs : bool
}.

Definition logHook_AfterQuery (cfg : LogHookConfig) (logger : slogLogger)
    (ctx : Context) (query : string) (args : list any) (d : Duration)
    (err : option error) : M Ext unit :=
  let attrs := [slog_String "query" (trimQuery query);
                slog_Duration "duration" d] in
  let attrs := if LogArgs cfg && (0 <? Z.of_nat (length args))
               then (attrs ++ [slog_Any_args "args" args])%list
               else attrs in
  match err with
  | Some _ =>
      logAt logger LevelError ctx "sqltoolkit/db: query error"
        (attrs ++ [slog_Any_error "error" err])%list
  | None =>
      if (0 <? SlowQueryThreshold cfg) && (SlowQueryThreshold cfg <? d)
      then logAt logger LevelWarn ctx "sqltoolkit/db: slow query" attrs
      else logAt logger LevelDebug ctx "sqltoolkit/db: query" attrs
  end.

Definition NewLogHook (cfg : LogHookConfig) : Hook Ext :=
  let logger := match Logger cfg with
                | Some l => l
                | None => slog_Default
                end in
  {| BeforeQuery := fun _ _ _ => ret tt;
     AfterQuery := logHook_AfterQuery cfg logger |}.

(** [MetricsCollector]. *)
Record MetricsCollector : Type := {
  RecordQuery : string -> Duration -> bool -> M Ext unit
}.

Definition NewMetricsHook (collector : MetricsCollector) : Hook Ext :=
  {| BeforeQuery := fun _ _ _ => ret tt;
     AfterQuery := fun _ query _ d err =>
       RecordQuery collector query d
         (match err with None => true | Some _ => false end) |}.

End BuiltinHooks.

(* ------------------------------------------------------------------------- *)
(** * Prepared statements and BatchExec *)
(* ------------------------------------------------------------------------- *)

Section Statements.

Variable Ext : Type.
Variable now : Ext -> Time.

(** [*sql.Stmt]: the methods the package calls on a prepared statement. *)
Record sqlStmtOps : Type := {
  stmtExecContext : sqlStmt -> Context -> list any
                    -> Ext -> Ext * (sqlResult * option error);
  stmtQueryRowContext : sqlStmt -> Context -> list any -> Ext -> Ext * sqlRow;
  stmtClose : sqlStmt -> Ext -> Ext * option error
}.

Variable ops : sqlStmtOps.

(** A call on a prepared statement: it returns, and acts on the external
    state; the trace has no marker for it. *)
Definition stmtcall {A : Type} (f : Ext -> Ext * A) : M (world Ext) A :=
  fun w => let (x, a) := f (ext w) in
           ({| ext := x; trace := trace w |}, Returned a).

Definition Stmt_Exec (s : Stmt Ext) (ctx : Context) (args : list any)
  : M (world Ext) (sqlResult * option error) :=
  start <- time_Now now ;;
  hookChain_Before (Stmt_hooks s) ctx (Stmt_query s) args ;;
  '(res, err) <- stmtcall (stmtExecContext ops (Stmt_stmt s) ctx args) ;;
  let err := Stmt_errMap s err in
  elapsed <- time_Since now start ;;
  hookChain_After (Stmt_hooks s) ctx (Stmt_query s) args elapsed err ;;
  ret (res, err).

Definition Stmt_QueryRow (s : Stmt Ext) (ctx : Context) (args : list any)
  : M (world Ext) (Row) :=
  start <- time_Now now ;;
  hookChain_Before (Stmt_hooks s) ctx (Stmt_query s) args ;;
  raw <- stmtcall (stmtQueryRowContext ops (Stmt_stmt s) ctx args) ;;
  elapsed <- time_Since now start ;;
  hookChain_After (Stmt_hooks s) ctx (Stmt_query s) args elapsed None ;;
  ret {| Row_raw := raw; Row_errMap := Stmt_errMap s |}.

Definition Stmt_Close (s : Stmt Ext) : M (world Ext) (option error) :=
  stmtcall (stmtClose ops (Stmt_stmt s)).

(** ** BatchExec *)

(** [for _, item := range items { if _, err := stmt.Exec(ctx,
    argsFn(item)...); err != nil { return err } }; return nil]. *)
Fixpoint BatchExec_range (T : Type) (stmt : Stmt Ext) (ctx : Context)
    (items : list T) (argsFn : T -> list any) : M (world Ext) (option error) :=
  match items with
  | [] => ret None
  | item :: rest =>
      '(_, err) <- Stmt_Exec stmt ctx (argsFn item) ;;
      match err with
      | Some _ => ret err
      | None => BatchExec_range stmt ctx rest argsFn
      end
  end.

(** The function [BatchExec] hands to [ExecTx]. *)
Definition BatchExec_fn (T : Type) (ctx : Context) (query : string)
    (items : list T) (argsFn : T -> list any) (tx : Tx Ext)
  : M (world Ext) (option error) :=
  '(stmt, err) <- Tx_Prepare tx ctx query ;;
  match err with
  | Some _ => ret err
  | None =>
      match stmt with
      | Some s =>
          (* defer stmt.Close() *)
          defer_ (BatchExec_range s ctx items argsFn)
            (fun o => _ <- Stmt_Close s ;; fun w => (w, o))
      | None =>
          panic "runtime error: invalid memory address or nil pointer dereference"
      end
  end.

Definition BatchExec (T : Type) (d : DB Ext) (ctx : Context) (query : string)
    (items : list T) (argsFn : T -> list any) : M (world Ext) (option error) :=
  DB_ExecTx now d ctx (BatchExec_fn ctx query items argsFn) [].

End Statements.


(* ------------------------------------------------------------------------- *)
(** * Open *)
(* ------------------------------------------------------------------------- *)

(** [time.Second]. *)
Definition Second : Duration := 1000000000.

(** The calls [Open] and [OpenWithDriver] make outside the package, in
    order. *)
Inductive poolEvent : Type :=
| EvRegister (name : string)
    (* Register() of the driver adapter called [name] *)
| EvSqlOpen (driverName dsn : string) (err : option error)
| EvSetMaxOpenConns (n : Z)
| EvSetMaxIdleConns (n : Z)
| EvSetConnMaxLifetime (d : Duration)
| EvSetConnMaxIdleTime (d : Duration)
| EvPingContext (ctx : Context) (err : option error)
| EvPoolClose (err : option error).

Section Opening.

Variable Ext : Type.
Variable now : Ext -> Time.

(** [*sql.DB] as [sql.Open] returns it: the statements and transactions of
    the pool, and the pool's own methods that [Open] calls. *)
Record sqlPool : Type := {
  pool_conn : sqlDB Ext;
  SetMaxOpenConns : Z -> Ext -> Ext;
  SetMaxIdleConns : Z -> Ext -> Ext;
  SetConnMaxLifetime : Duration -> Ext -> Ext;
  SetConnMaxIdleTime : Duration -> Ext -> Ext;
  PingContext : Context -> Ext -> Ext * option error;
  pool_Close : Ext -> Ext * option error
}.

(** [sql.Open(driverName, dsn)]. *)
Variable sql_Open : string -> string -> Ext -> Ext * (sqlPool * option error).

Record poolWorld : Type := {
  pext : Ext;
  plog : list poolEvent
}.

Definition poolcall {A : Type} (f : Ext -> Ext * A) (ev : A -> poolEvent)
  : M poolWorld A :=
  fun w =>
    let (x, a) := f (pext w) in
    ({| pext := x; plog := plog w ++ [ev a] |}, Returned a).

Definition poolset (f : Ext -> Ext) (ev : poolEvent) : M poolWorld unit :=
  fun w => ({| pext := f (pext w); plog := plog w ++ [ev] |}, Returned tt).

(** [Open].  [addr] is the address of the error value [Open] allocates when
    it rejects the configuration. *)
Definition Open (addr : positive) (cfg : Config Ext)
  : M poolWorld (option (DB Ext) * option error) :=
  if String.eqb (DSN cfg) EmptyString
  then ret (None, Some (errorString addr "sqltoolkit/db: DSN must not be empty"))
  else if String.eqb (DriverName cfg) EmptyString
  then ret (None,
            Some (errorString addr "sqltoolkit/db: DriverName must not be empty"))
  else
    '(sqldb, err) <- poolcall (sql_Open (DriverName cfg) (DSN cfg))
                       (fun r => EvSqlOpen (DriverName cfg) (DSN cfg) (snd r)) ;;
    match err with
    | Some _ =>
        ret (None, Some (wrapError ("sqltoolkit/db: open: " ++ fmt_w err) err))
    | None =>
        (* Pool tuning *)
        (if 0 <? MaxOpenConns cfg
         then poolset (SetMaxOpenConns sqldb (MaxOpenConns cfg))
                (EvSetMaxOpenConns (MaxOpenConns cfg))
         else ret tt) ;;
        (if 0 <? MaxIdleConns cfg
         then poolset (SetMaxIdleConns sqldb (MaxIdleConns cfg))
                (EvSetMaxIdleConns (MaxIdleConns cfg))
         else ret tt) ;;
        (if 0 <? ConnMaxLifetime cfg
         then poolset (SetConnMaxLifetime sqldb (ConnMaxLifetime cfg))
                (EvSetConnMaxLifetime (ConnMaxLifetime cfg))
         else ret tt) ;;
        (if 0 <? ConnMaxIdleTime cfg
         then poolset (SetConnMaxIdleTime sqldb (ConnMaxIdleTime cfg))
                (EvSetConnMaxIdleTime (ConnMaxIdleTime cfg))
         else ret tt) ;;
        let d := opened (pool_conn sqldb) cfg in
        t <- (fun w => (w, Returned (now (pext w)))) ;;
        let ctx := context_WithTimeout Background (5 * Second) t in
        err <- poolcall (PingContext sqldb ctx) (EvPingContext ctx) ;;
        match err with
        | Some _ =>
            _ <- poolcall (pool_Close sqldb) EvPoolClose ;;
            ret (None,
                 Some (wrapError ("sqltoolkit/db: ping: " ++ fmt_w err) err))
        | None => ret (Some d, None)
        end
    end.

(** The pool tuning of [Open], for stating what it does: the calls made for
    the configuration [cfg], and the external state they leave. *)
Definition tuningCalls (cfg : Config Ext) : list poolEvent :=
  ((if 0 <? MaxOpenConns cfg then [EvSetMaxOpenConns (MaxOpenConns cfg)] else [])
   ++ (if 0 <? MaxIdleConns cfg then [EvSetMaxIdleConns (MaxIdleConns cfg)]
       else [])
   ++ (if 0 <? ConnMaxLifetime cfg
       then [EvSetConnMaxLifetime (ConnMaxLifetime cfg)] else [])
   ++ (if 0 <? ConnMaxIdleTime cfg
       then [EvSetConnMaxIdleTime (ConnMaxIdleTime cfg)] else []))%list.

Definition tuned (pool : sqlPool) (cfg : Config Ext) (x : Ext) : Ext :=
  let x := if 0 <? MaxOpenConns cfg
           then SetMaxOpenConns pool (MaxOpenConns cfg) x else x in
  let x := if 0 <? MaxIdleConns cfg
           then SetMaxIdleConns pool (MaxIdleConns cfg) x else x in
  let x := if 0 <? ConnMaxLifetime cfg
           then SetConnMaxLifetime pool (ConnMaxLifetime cfg) x else x in
  if 0 <? ConnMaxIdleTime cfg
  then SetConnMaxIdleTime pool (ConnMaxIdleTime cfg) x else x.

End Opening.

(* ------------------------------------------------------------------------- *)
(** * Drivers: the adapters, the registry, OpenWithDriver *)
(* ------------------------------------------------------------------------- *)

(** [DriverOptions].  [Extra] is a Go map; here it is the list of its
    entries in the order in which a [range] over it visits them. *)
Record DriverOptions : Type := {
  Host : string;
  Port : Z;
  User : string;
  Password : string;
  Database : string;
  SSLMode : string;
  Extra : list (string * string)
}.

(** The DSN methods of the three built-in adapters.  [addr] is the address
    of the error value the call allocates when it fails. *)
Definition PostgresDriver_DSN (addr : positive) (o : DriverOptions)
  : string * option error :=
  if String.eqb (Host o) EmptyString || String.eqb (Database o) EmptyString
  then (EmptyString,
        Some (errorString addr "postgres driver: Host and Database are required"))
  else
    let port := if Port o =? 0 then 5432 else Port o in
    let sslMode := if String.eqb (SSLMode o) EmptyString then "disable"
                   else SSLMode o in
    let dsn := "host=" ++ Host o ++ " port=" ++ fmt_d port
               ++ " user=" ++ User o ++ " password=" ++ Password o
               ++ " dbname=" ++ Database o ++ " sslmode=" ++ sslMode in
    (fold_left (fun dsn kv => dsn ++ (" " ++ fst kv ++ "=" ++ snd kv))
       (Extra o) dsn,
     None).

Definition MySQLDriver_DSN (addr : positive) (o : DriverOptions)
  : string * option error :=
  if String.eqb (Host o) EmptyString || String.eqb (Database o) EmptyString
  then (EmptyString,
        Some (errorString addr "mysql driver: Host and Database are required"))
  else
    let port := if Port o =? 0 then 3306 else Port o in
    let dsn := User o ++ ":" ++ Password o ++ "@tcp(" ++ Host o ++ ":"
               ++ fmt_d port ++ ")/" ++ Database o ++ "?parseTime=true" in
    (fold_left (fun dsn kv => dsn ++ ("&" ++ fst kv ++ "=" ++ snd kv))
       (Extra o) dsn,
     None).

Definition SQLiteDriver_DSN (addr : positive) (o : DriverOptions)
  : string * option error :=
  if String.eqb (Database o) EmptyString
  then (EmptyString,
        Some (errorString addr
                "sqlite3 driver: Database (file path) is required"))
  else
    let dsn := Database o in
    let first := true in
    (fst (fold_left
            (fun (st : string * bool) kv =>
               let (dsn, first) := st in
               let dsn := if first then dsn ++ "?" else dsn ++ "&" in
               (dsn ++ (fst kv ++ "=" ++ snd kv), false))
            (Extra o) (dsn, first)),
     None).

Section Drivers.

Variable Ext : Type.
Variable now : Ext -> Time.
Variable sql_Open : string -> string -> Ext -> Ext * (sqlPool Ext * option error).

(** [%q] of a string operand ([strconv.Quote]). *)
Variable fmt_q : string -> string.

(** The [Driver] interface. *)
Record Driver : Type := {
  Driver_Name : string;
  Driver_DSN : positive -> DriverOptions -> string * option error;
  Driver_ErrorMapper : ErrorMapper;
  Driver_Register : M Ext unit
}.

Definition PostgresDriver : Driver :=
  {| Driver_Name := "postgres";
     Driver_DSN := PostgresDriver_DSN;
     Driver_ErrorMapper := DefaultErrorMapper;
     Driver_Register := ret tt |}.

Definition MySQLDriver : Driver :=
  {| Driver_Name := "mysql";
     Driver_DSN := MySQLDriver_DSN;
     Driver_ErrorMapper := DefaultErrorMapper;
     Driver_Register := ret tt |}.

Definition SQLiteDriver : Driver :=
  {| Driver_Name := "sqlite3";
     Driver_DSN := SQLiteDriver_DSN;
     Driver_ErrorMapper := DefaultErrorMapper;
     Driver_Register := ret tt |}.

(** ** The registry *)

(** The package variable [drivers], a [map[string]Driver]: the entries, at
    most one for a name. *)
Definition registry : Type := list (string * Driver).

(** [drivers[name]], with its [ok]. *)
Fixpoint registry_get (name : string) (r : registry) : option Driver :=
  match r with
  | [] => None
  | (k, d) :: rest => if String.eqb k name then Some d else registry_get name rest
  end.

(** [drivers[name] = d]. *)
Definition registry_set (name : string) (d : Driver) (r : registry) : registry :=
  (name, d) :: filter (fun kd => negb (String.eqb (fst kd) name)) r.

Definition RegisterDriver (d : Driver) : M registry unit :=
  fun r =>
    match registry_get (Driver_Name d) r with
    | Some _ =>
        (r, Panicked ("sqltoolkit/db: driver " ++ fmt_q (Driver_Name d)
                      ++ " already registered"))
    | None => (registry_set (Driver_Name d) d r, Returned tt)
    end.

Definition ReplaceDriver (d : Driver) : M registry unit :=
  fun r => (registry_set (Driver_Name d) d r, Returned tt).

(** [LookupDriver].  [addr] is the address of the error value it allocates
    when the name is not registered. *)
Definition LookupDriver (addr : positive) (name : string) (r : registry)
  : option Driver * option error :=
  match registry_get name r with
  | None =>
      (None,
       Some (errorString addr
               ("sqltoolkit/db: driver " ++ fmt_q name ++ " not registered")))
  | Some d => (Some d, None)
  end.

(** [defer func() { recover() }()] around [RegisterDriver(d)]. *)
Definition safeRegister (d : Driver) : M registry unit :=
  defer_ (RegisterDriver d) (fun _ => ret tt).

(** The [init] function that registers the built-in adapters. *)
Definition init_drivers : M registry unit :=
  safeRegister PostgresDriver ;;
  safeRegister MySQLDriver ;;
  safeRegister SQLiteDriver.

(** ** OpenWithDriver *)

(** [cfg] with [DriverName] and [DSN] set. *)
Definition withDriver (cfg : Config Ext) (name dsn : string) : Config Ext :=
  {| DSN := dsn; DriverName := name;
     MaxOpenConns := MaxOpenConns cfg; MaxIdleConns := MaxIdleConns cfg;
     ConnMaxLifetime := ConnMaxLifetime cfg;
     ConnMaxIdleTime := ConnMaxIdleTime cfg;
     DefaultTimeout := DefaultTimeout cfg; Hooks := Hooks cfg |}.

(** The call [drv.Register()], recorded. *)
Definition registerCall (drv : Driver) : M (poolWorld Ext) unit :=
  fun w =>
    let (x, o) := Driver_Register drv (pext w) in
    ({| pext := x; plog := plog w ++ [EvRegister (Driver_Name drv)] |}, o).

(** [OpenWithDriver], on the registry [r].  [a1], [a2] and [a3] are the
    addresses of the error values that [LookupDriver], the [DSN] method and
    [Open] allocate when they fail. *)
Definition OpenWithDriver (r : registry) (a1 a2 a3 : positive)
    (driverName : string) (driverOpts : DriverOptions) (cfg : Config Ext)
  : M (poolWorld Ext) (option (DB Ext) * option error) :=
  match LookupDriver a1 driverName r with
  | (_, Some err) => ret (None, Some err)
  | (None, None) =>
      panic "runtime error: invalid memory address or nil pointer dereference"
  | (Some drv, None) =>
      registerCall drv ;;
      let (dsn, err) := Driver_DSN drv a2 driverOpts in
      match err with
      | Some _ =>
          ret (None,
               Some (wrapError
                       ("sqltoolkit/db: DSN construction failed: " ++ fmt_w err)
                       err))
      | None =>
          let cfg := withDriver cfg (Driver_Name drv) dsn in
          '(db, err) <- Open now sql_Open a3 cfg ;;
          match err with
          | Some _ => ret (None, err)
          | None =>
              match db with
              | Some d =>
                  (* Install the driver-specific error mapper. *)
                  ret (Some (SetErrorMapper d
                               (ChainMapper [Driver_ErrorMapper drv;
                                             DefaultErrorMapper])),
                       None)
              | None =>
                  panic "runtime error: invalid memory address or nil pointer dereference"
              end
          end
      end
  end.

End Drivers.

(* ------------------------------------------------------------------------- *)
(** * The user repository (package repo) *)
(* ------------------------------------------------------------------------- *)

(** [models.User]. *)
Record models_User : Type := {
  ID : Z;
  Name : string;
  Email : string;
  CreatedAt : Time;
  UpdatedAt : Time
}.

(** A line break and two tabs, as in the raw string literals of the SQL
    constants. *)
Definition nltt : string := String "010" (String "009" (String "009" EmptyString)).

Definition sqlGetUserByID : string :=
  nltt ++ "SELECT id, name, email, created_at, updated_at"
  ++ nltt ++ "FROM   users"
  ++ nltt ++ "WHERE  id = $1"
  ++ nltt ++ "LIMIT  1".

Definition sqlGetUserByEmail : string :=
  nltt ++ "SELECT id, name, email, created_at, updated_at"
  ++ nltt ++ "FROM   users"
  ++ nltt ++ "WHERE  email = $1"
  ++ nltt ++ "LIMIT  1".

Definition sqlDeleteUser : string := nltt ++ "DELETE FROM users WHERE id = $1".

Section Repo.

Variable Ext : Type.
Variable now : Ext -> Time.

(** What [Scan] leaves in the five destinations [&u.ID, &u.Name, &u.Email,
    &u.CreatedAt, &u.UpdatedAt] of a fresh [models.User], given the columns
    of the row, if there is one. *)
Variable scanInto : option (list any) -> models_User.

(** The error of [RowsAffected] on a [sql.Result] that is not nil: nil, or
    what the driver answers when it cannot tell the count. *)
Variable RowsAffected_err : Z * Z -> option error.

(** [res.RowsAffected()]: the count that the result holds, and the error. *)
Definition sqlResult_RowsAffected (r : Z * Z) : Z * option error :=
  (snd r, RowsAffected_err r).

(** The methods of the [Querier] interface that the repository calls. *)
Definition Querier_QueryRow (q : Querier Ext) (ctx : Context) (query : string)
    (args : list any) : M (world Ext) Row :=
  match q with
  | QuerierDB d => DB_QueryRow now d ctx query args
  | QuerierTx t => Tx_QueryRow now t ctx query args
  end.

Definition Querier_Exec (q : Querier Ext) (ctx : Context) (query : string)
    (args : list any) : M (world Ext) (sqlResult * option error) :=
  match q with
  | QuerierDB d => DB_Exec now d ctx query args
  | QuerierTx t => Tx_Exec now t ctx query args
  end.

Record userRepo : Type := { repo_q : Querier Ext }.

Definition NewUserRepo (q : Querier Ext) : userRepo := {| repo_q := q |}.

Definition scanUser (row : Row) : option models_User * option error :=
  let err := Row_Scan row in
  match err with
  | Some _ => (None, Some (wrapError ("repo/user: " ++ fmt_w err) err))
  | None => (Some (scanInto (rowVals (Row_raw row))), None)
  end.

Definition GetByID (r : userRepo) (ctx : Context) (id : Z)
  : M (world Ext) (option models_User * option error) :=
  row <- Querier_QueryRow (repo_q r) ctx sqlGetUserByID [VInt id] ;;
  ret (scanUser row).

Definition GetByEmail (r : userRepo) (ctx : Context) (email : string)
  : M (world Ext) (option models_User * option error) :=
  row <- Querier_QueryRow (repo_q r) ctx sqlGetUserByEmail [VString email] ;;
  ret (scanUser row).

Definition Delete (r : userRepo) (ctx : Context) (id : Z)
  : M (world Ext) (option error) :=
  '(res, err) <- Querier_Exec (repo_q r) ctx sqlDeleteUser [VInt id] ;;
  match err with
  | Some _ => ret err
  | None =>
      match res with
      | None =>
          panic "runtime error: invalid memory address or nil pointer dereference"
      | Some res =>
          let (n, err) := sqlResult_RowsAffected res in
          match err with
          | Some _ => ret err
          | None => if n =? 0 then ret (Some ErrNotFound) else ret None
          end
      end
  end.

End Repo.

(* ------------------------------------------------------------------------- *)
(** * More concrete values, for concrete runs *)
(* ------------------------------------------------------------------------- *)

(** Errors as the drivers report them. *)
Definition wrappedNoRows : error :=
  wrapError "get user 42: sql: no rows in result set" (Some sql_ErrNoRows).

Definition wrappedCanceled : error :=
  wrapError "query users: context canceled" (Some context_Canceled).

Definition pqUnique : error :=
  driverError "pq: duplicate key value violates unique constraint"
    {| capGetCode := Some "23505"; capSQLState := None; capNumber := None |}
    None.

Definition mysqlDeadlock : error :=
  driverError "Error 1213: Deadlock found when trying to get lock"
    {| capGetCode := None; capSQLState := None; capNumber := Some 1213 |}
    None.

(** A mapper that leaves every error as it is. *)
Definition idleMapper : ErrorMapper := fun err => err.

(** A healthy database without hooks. *)
Definition plainDB : DB demoState :=
  opened (demoSql None goodRow None) (demoConfig 0 []).

(** A transaction body that panics. *)
Definition panicBody (tx : Tx demoState) : M (world demoState) (option error) :=
  panic "boom".

(** A database on which no transaction can be begun. *)
Definition noBeginDB : DB demoState :=
  opened
    {| ExecContext := ExecContext (demoSql None goodRow None);
       QueryContext := QueryContext (demoSql None goodRow None);
       QueryRowContext := QueryRowContext (demoSql None goodRow None);
       PrepareContext := PrepareContext (demoSql None goodRow None);
       BeginTx := fun _ _ s => (s, (0%nat, Some badConnection));
       Commit := Commit (demoSql None goodRow None);
       Rollback := Rollback (demoSql None goodRow None) |}
    (demoConfig 0 []).

(** [plainDB] with a mapper that turns every error into nil. *)
Definition swallowDB : DB demoState := SetErrorMapper plainDB swallowMapper.

(** After [BeginTx] on [plainDB], and after [insertBody] has run there. *)
Definition plainBegun : world demoState :=
  fst (beginTx plainDB Background None demoWorld).

Definition plainBodyDone : world demoState :=
  fst (insertBody (newTx plainDB 7%nat) plainBegun).

(** A logger that writes the message down, and a collector that writes
    down whether it was told of a success. *)
Definition demoLogger : slogLogger demoState :=
  {| logAt := fun _ _ msg _ s => (note msg s, Returned tt) |}.

Definition quietLogConfig : LogHookConfig demoState :=
  {| Logger := None; SlowQueryThreshold := 0; LogArgs := false |}.

Definition demoCollector : MetricsCollector demoState :=
  {| RecordQuery := fun _ _ success s =>
       (note (if success then "success" else "failure") s, Returned tt) |}.

(** A database on which every statement fails with [uniqueFailed], watched
    by the metrics hook. *)
Definition meteredDB : DB demoState :=
  opened (demoSql (Some uniqueFailed) failedRow None)
    (demoConfig 0 [Some (NewMetricsHook demoCollector)]).

(** Prepared statements that fail on the parameters of Bob. *)
Definition demoStmtOps : sqlStmtOps demoState :=
  {| stmtExecContext := fun _ _ args s =>
       (tick s,
        match args with
        | VString "Bob" :: _ => (None, Some uniqueFailed)
        | _ => (Some (1, 1), None)
        end);
     stmtQueryRowContext := fun _ _ _ s => (tick s, goodRow);
     stmtClose := fun _ s => (s, None) |}.

(** Prepared statements that always succeed. *)
Definition goodStmtOps : sqlStmtOps demoState :=
  {| stmtExecContext := fun _ _ _ s => (tick s, (Some (1, 1), None));
     stmtQueryRowContext := fun _ _ _ s => (tick s, goodRow);
     stmtClose := fun _ s => (s, None) |}.

Definition userArgs (p : string * string) : list any :=
  [VString (fst p); VString (snd p)].

Definition alice : string * string := ("Alice", "alice@test.com").
Definition bob : string * string := ("Bob", "bob@test.com").
Definition carol : string * string := ("Carol", "carol@test.com").

(** The statement [BatchExec] prepares on [plainDB], and the worlds it goes
    through with the items Alice, Bob, Carol. *)
Definition batchStmt : Stmt demoState :=
  {| Stmt_stmt := 1%nat; Stmt_query := insertUser;
     Stmt_hooks := DB_hooks plainDB; Stmt_errMap := DB_errMap plainDB |}.

Definition batchPrepared : world demoState :=
  {| ext := ext plainBegun;
     trace := trace plainBegun
              ++ [EvPrepareContext (Some 7%nat) Background insertUser 1%nat None] |}.

Definition batchAliceDone : world demoState :=
  fst (BatchExec_range demoNow demoStmtOps batchStmt Background [alice] userArgs
         batchPrepared).

Definition batchBobFailed : world demoState :=
  fst (Stmt_Exec demoNow demoStmtOps batchStmt Background (userArgs bob)
         batchAliceDone).

(** A pool whose ping comes back with [pingErr], and a [sql.Open] that
    knows the driver [sqlite3] only. *)
Definition demoPool (pingErr : option error) : sqlPool demoState :=
  {| pool_conn := demoSql None goodRow None;
     SetMaxOpenConns := fun _ => note "SetMaxOpenConns";
     SetMaxIdleConns := fun _ => note "SetMaxIdleConns";
     SetConnMaxLifetime := fun _ => note "SetConnMaxLifetime";
     SetConnMaxIdleTime := fun _ => note "SetConnMaxIdleTime";
     PingContext := fun _ s => (tick s, pingErr);
     pool_Close := fun s => (note "Close" s, None) |}.

Definition unknownDriver : error :=
  errorString 900 "sql: unknown driver (forgotten import?)".

Definition demoSqlOpen (pingErr : option error) (driverName dsn : string)
    (s : demoState) : demoState * (sqlPool demoState * option error) :=
  (s, (demoPool pingErr,
       if String.eqb driverName "sqlite3" then None else Some unknownDriver)).

Definition demoPoolWorld : poolWorld demoState :=
  {| pext := demoStart; plog := [] |}.

(** A configuration with two of the four pool limits set. *)
Definition tunedConfig : Config demoState :=
  {| DSN := ":memory:"; DriverName := "sqlite3";
     MaxOpenConns := 25; MaxIdleConns := 0;
     ConnMaxLifetime := 300 * Second; ConnMaxIdleTime := 0;
     DefaultTimeout := 0; Hooks := [] |}.

(** A configuration without a DSN. *)
Definition noDSNConfig : Config demoState :=
  {| DSN := EmptyString; DriverName := "sqlite3";
     MaxOpenConns := 0; MaxIdleConns := 0;
     ConnMaxLifetime := 0; ConnMaxIdleTime := 0;
     DefaultTimeout := 0; Hooks := [] |}.

Definition memoryOptions : DriverOptions :=
  {| Host := EmptyString; Port := 0; User := EmptyString;
     Password := EmptyString; Database := "app.db"; SSLMode := EmptyString;
     Extra := [("cache", "shared"); ("mode", "rwc")] |}.

(** [%q] for the names of the concrete runs, which need no escaping. *)
Definition plainQuote (s : string) : string :=
  String "034" (s ++ String "034" EmptyString).

(** The registry after [init]. *)
Definition builtinRegistry : registry demoState :=
  fst (init_drivers plainQuote []).

(** A database in whose table the DELETE matches nothing. *)
Definition noMatchDB : DB demoState :=
  opened
    {| ExecContext := fun _ _ _ _ s => (tick s, (Some (0, 0), None));
       QueryContext := QueryContext (demoSql None emptyRow None);
       QueryRowContext := QueryRowContext (demoSql None emptyRow None);
       PrepareContext := PrepareContext (demoSql None emptyRow None);
       BeginTx := BeginTx (demoSql None emptyRow None);
       Commit := Commit (demoSql None emptyRow None);
       Rollback := Rollback (demoSql None emptyRow None) |}
    (demoConfig 0 []).

(** A driver whose results can tell how many rows were affected, and one
    whose results cannot. *)
Definition countKnown (r : Z * Z) : option error := None.

Definition countUnknown (r : Z * Z) : option error :=
  Some (driverError "RowsAffected is not supported by this driver" noCaps None).

Definition noUser (vals : option (list any)) : models_User :=
  {| ID := 0; Name := EmptyString; Email := EmptyString;
     CreatedAt := 0; UpdatedAt := 0 |}.

(** An adapter of the caller's own, with a mapper of its own. *)
Definition crdbDriver : Driver demoState :=
  {| Driver_Name := "crdb";
     Driver_DSN := PostgresDriver_DSN;
     Driver_ErrorMapper := lockMapper;
     Driver_Register := fun s => (note "register crdb" s, Returned tt) |}.

(** Options without a database path. *)
Definition noFileOptions : DriverOptions :=
  {| Host := EmptyString; Port := 0; User := EmptyString;
     Password := EmptyString; Database := EmptyString; SSLMode := EmptyString;
     Extra := [] |}.
(* ------------------------------------------------------------------------- *)
(** * Properties of error values *)
(* ------------------------------------------------------------------------- *)

Lemma option_string_eqb_eq (a b : option string) :
  option_string_eqb a b = true <-> a = b.
Proof.
  destruct a, b; simpl; try (split; congruence).
  rewrite String.eqb_eq. split; congruence.
Qed.

Lemma option_Z_eqb_eq (a b : option Z) : option_Z_eqb a b = true <-> a = b.
Proof.
  destruct a, b; simpl; try (split; congruence).
  rewrite Z.eqb_eq. split; congruence.
Qed.

Lemma driverCaps_eqb_eq (a b : driverCaps) : driverCaps_eqb a b = true <-> a = b.
Proof.
  destruct a, b; unfold driverCaps_eqb; simpl.
  rewrite !andb_true_iff, !option_string_eqb_eq, option_Z_eqb_eq.
  split; [intros [[-> ->] ->]; reflexivity | intros H; inversion H; auto].
Qed.

(** [error_eqb] decides equality of error values. *)
Lemma error_eqb_eq (a b : error) : error_eqb a b = true <-> a = b.
Proof.
  revert b. induction a using error_deep_ind; intros b; destruct b; simpl;
    try (split; [discriminate | congruence]).
  - rewrite andb_true_iff, Pos.eqb_eq, String.eqb_eq.
    split; [intros [-> ->]; reflexivity | intros E; inversion E; auto].
  - tauto.
  - rewrite andb_true_iff, String.eqb_eq.
    destruct o as [x|], err as [y|]; simpl in *;
      try (split; [intros [_ E]; discriminate | congruence]).
    + rewrite H. split; [intros [-> ->]; reflexivity | intros E; inversion E; auto].
    + split; [intros [-> _]; reflexivity | intros E; inversion E; auto].
  - rewrite !andb_true_iff, String.eqb_eq.
    destruct s as [x|], Sentinel as [x'|], c as [y|], Cause as [y'|]; simpl in *;
      try rewrite H; try rewrite H0;
      (split; [intros [[E1 E2] ->]; try discriminate; subst; reflexivity
              | intros E; inversion E; auto]).
  - rewrite !andb_true_iff, String.eqb_eq, driverCaps_eqb_eq.
    destruct o as [x|], cause as [y|]; simpl in *; try rewrite H;
      (split; [intros [[-> ->] E]; try discriminate; subst; reflexivity
              | intros E; inversion E; auto]).
Qed.

Lemma error_eqb_refl (e : error) : error_eqb e e = true.
Proof. apply error_eqb_eq. reflexivity. Qed.

(** [errors.Is(err, err)] holds. *)
Lemma is_chain_refl (e : error) : is_chain e e = true.
Proof. destruct e; cbn [is_chain]; rewrite error_eqb_refl; reflexivity. Qed.

(** ** The default mapper *)

(** Every classifier returns nil or a fresh [*DBError] around its argument. *)
Lemma mapByPGCode_cases (code : string) (cause : error) :
  mapByPGCode code cause = None
  \/ exists s, mapByPGCode code cause = newDBError s cause.
Proof.
  unfold mapByPGCode.
  repeat match goal with
         | |- context [if ?b then _ else _] =>
             destruct b; [right; eexists; reflexivity|]
         end.
  left; reflexivity.
Qed.

(** ** The mapper on the errors of the three backends *)

Example strings_Index_examples :
  strings.Index "abcabc" "ca" = 2
  /\ strings.Index "abc" "x" = -1
  /\ strings.LastIndex "abcabc" "bc" = 4
  /\ strings.LastIndex "abc" EmptyString = 3
  /\ strings.Contains "UNIQUE constraint failed: users.email" "UNIQUE constraint failed"
     = true.
Proof. repeat split. Qed.

Example pqCodeFromString_examples :
  pqCodeFromString "pq: ERROR: duplicate key value (SQLSTATE 23505)" = "23505"
  /\ pqCodeFromString "pq: ERROR: no state" = EmptyString
  /\ pqCodeFromString "a (SQLSTATE 1) b (SQLSTATE 40P01" = "40P01".
Proof. repeat split. Qed.

Example defaultMap_nil : defaultMap None = None.
Proof. reflexivity. Qed.

(** A unique violation as each backend reports it is a duplicate key. *)
Example defaultMap_unique_violation :
  let pq := driverError "pq: duplicate key value violates unique constraint"
              {| capGetCode := Some "23505"; capSQLState := None;
                 capNumber := None |} None in
  let pqText := driverError "pq: ERROR: duplicate key value (SQLSTATE 23505)"
                  noCaps None in
  let pgx := driverError "ERROR: duplicate key value (SQLSTATE 23505)"
               {| capGetCode := None; capSQLState := Some "23505";
                  capNumber := None |} None in
  let mysql := driverError "Error 1062: Duplicate entry"
                 {| capGetCode := None; capSQLState := None;
                    capNumber := Some 1062 |} None in
  let sqlite := driverError "UNIQUE constraint failed: users.email" noCaps None in
  defaultMap (Some pq) = newDBError ErrDuplicateKey pq
  /\ defaultMap (Some pqText) = newDBError ErrDuplicateKey pqText
  /\ defaultMap (Some pgx) = newDBError ErrDuplicateKey pgx
  /\ defaultMap (Some mysql) = newDBError ErrDuplicateKey mysql
  /\ defaultMap (Some sqlite) = newDBError ErrDuplicateKey sqlite
  /\ IsDuplicateKey (defaultMap (Some sqlite)) = true.
Proof. repeat split. Qed.

(** An error nobody recognises comes back as it is; a context error, also
    under a wrapper, is a timeout. *)
Example defaultMap_other_errors :
  let unknown := errorString 900 "intentional failure" in
  let wrapped := wrapError "query users: context canceled" (Some context_Canceled) in
  defaultMap (Some unknown) = Some unknown
  /\ defaultMap (Some context_DeadlineExceeded)
     = newDBError ErrTimeout context_DeadlineExceeded
  /\ defaultMap (Some wrapped) = newDBError ErrTimeout wrapped
  /\ IsTimeout (defaultMap (Some wrapped)) = true.
Proof. repeat split. Qed.

Ltac classifier_cases :=
  repeat match goal with
         | |- context [if ?b then _ else _] =>
             destruct b; [right; eexists; reflexivity|]
         end;
  left; reflexivity.

Lemma mapPQError_cases (e : error) :
  mapPQError e = None \/ exists s, mapPQError e = newDBError s e.
Proof. unfold mapPQError. destruct (as_cap _ e); apply mapByPGCode_cases. Qed.

Lemma mapPGXError_cases (e : error) :
  mapPGXError e = None \/ exists s, mapPGXError e = newDBError s e.
Proof.
  unfold mapPGXError. destruct (as_cap _ e); [apply mapByPGCode_cases | now left].
Qed.

Lemma mapMySQLError_cases (e : error) :
  mapMySQLError e = None \/ exists s, mapMySQLError e = newDBError s e.
Proof.
  unfold mapMySQLError. destruct (as_cap _ e); [classifier_cases | now left].
Qed.

Lemma mapSQLiteError_cases (e : error) :
  mapSQLiteError e = None \/ exists s, mapSQLiteError e = newDBError s e.
Proof. unfold mapSQLiteError. classifier_cases. Qed.

(** What [defaultMap] returns is the error itself or a fresh [*DBError] whose
  cause is the error. *)
Lemma defaultMap_cases (e : error) :
  defaultMap (Some e) = Some e
  \/ exists s, defaultMap (Some e) = newDBError s e.
Proof.
  unfold defaultMap.
  destruct (errors_Is _ _); [right; eexists; reflexivity|].
  destruct (_ || _); [right; eexists; reflexivity|].
  destruct (as_DBError e); [left; reflexivity|].
  destruct (mapPQError_cases e) as [-> | [s ->]]; [|right; eexists; reflexivity].
  destruct (mapPGXError_cases e) as [-> | [s ->]]; [|right; eexists; reflexivity].
  destruct (mapMySQLError_cases e) as [-> | [s ->]]; [|right; eexists; reflexivity].
  destruct (mapSQLiteError_cases e) as [-> | [s ->]]; [|right; eexists; reflexivity].
  left; reflexivity.
Qed.

(** The default mapper never turns an error into nil. *)
Lemma defaultMap_non_nil (e : error) : defaultMap (Some e) <> None.
Proof.
  destruct (defaultMap_cases e) as [-> | [s ->]]; discriminate.
Qed.

(** So the default mapper gives every non-nil error a classification [m]
    (the error itself when nothing matches). *)
Lemma DefaultErrorMapper_classifies (e : error) :
  exists m, DefaultErrorMapper (Some e) = Some m.
Proof.
  unfold DefaultErrorMapper.
  destruct (defaultMap (Some e)) as [m|] eqn:E; [eauto|].
  now apply defaultMap_non_nil in E.
Qed.

(** Where idempotence does hold: a classified error whose chain holds neither
  [sql.ErrNoRows] nor a context error is returned as it is. *)
Lemma defaultMap_keeps_classified (e : error) :
  as_DBError e <> None ->
  errors_Is (Some e) (Some sql_ErrNoRows) = false ->
  errors_Is (Some e) (Some context_deadline_exceeded) = false ->
  errors_Is (Some e) (Some context_canceled) = false ->
  defaultMap (Some e) = Some e.
Proof.
  intros Hdb H1 H2 H3. unfold defaultMap. rewrite H1, H2, H3. simpl.
  destruct (as_DBError e); [reflexivity | contradiction].
Qed.

(** C1, at the failing input.  [notFoundError] is an already-classified error:
  it is what the default mapper returns for [sql.ErrNoRows].  Mapped again
  it is not returned unchanged: [errors.Is] reaches [sql.ErrNoRows] through
  [DBError.Unwrap], the first test of [defaultMap] fires before the
  already-mapped test, and the result is a second [DBError] wrapped around
  the first. *)
Theorem defaultMap_rewraps_not_found :
  defaultMap (Some sql_ErrNoRows) = Some notFoundError
  /\ as_DBError notFoundError = Some notFoundError
  /\ defaultMap (Some notFoundError)
     = Some (DBError (Some ErrNotFound) (Some notFoundError) EmptyString)
  /\ defaultMap (Some notFoundError) <> Some notFoundError.
Proof.
  repeat split; try reflexivity.
  vm_compute. discriminate.
Qed.

(** A classified timeout whose cause is a context error is wrapped again in
    the same way, by the second test of [defaultMap]. *)
Example defaultMap_rewraps_timeout :
  let e := DBError (Some ErrTimeout) (Some context_DeadlineExceeded) EmptyString in
  defaultMap (Some context_DeadlineExceeded) = Some e
  /\ defaultMap (Some e) = Some (DBError (Some ErrTimeout) (Some e) EmptyString).
Proof. split; reflexivity. Qed.

(* ------------------------------------------------------------------------- *)
(** * The hook chain *)
(* ------------------------------------------------------------------------- *)

Lemma dropSlog_app (a b : list event) :
  dropSlog (a ++ b) = (dropSlog a ++ dropSlog b)%list.
Proof. apply filter_app. Qed.

Lemma slogged_app (a b : list event) :
  slogged (a ++ b) = (slogged a ++ slogged b)%list.
Proof. apply flat_map_app. Qed.

Lemma slogged_cons (ev : event) (evs : list event) :
  isSlog ev = false -> slogged (ev :: evs) = slogged evs.
Proof. destruct ev; simpl; intros H; try discriminate; reflexivity. Qed.

Lemma skeleton_app (a b : list event) :
  skeleton (a ++ b) = (skeleton a ++ skeleton b)%list.
Proof. apply filter_app. Qed.

(** Log lines are hook events, so the skeleton does not see them. *)
Lemma skeleton_dropSlog (evs : list event) : skeleton (dropSlog evs) = skeleton evs.
Proof.
  induction evs as [|ev evs IH]; [reflexivity|].
  destruct ev; simpl; rewrite ?IH; reflexivity.
Qed.

(** A trace with nothing logged has no log line to drop. *)
Lemma dropSlog_quiet (evs : list event) : slogged evs = [] -> dropSlog evs = evs.
Proof.
  induction evs as [|ev evs IH]; [reflexivity|].
  destruct ev; simpl; intros H; try discriminate; f_equal; apply IH; exact H.
Qed.

Section HookChain.

Variable Ext : Type.
Variable now : Ext -> Time.


Lemma rangeBefore_rangeSafe (hooks : list (Hook Ext)) i ctx q args :
  rangeBefore i hooks ctx q args
  = rangeSafe (fun k => EvBeforeQuery k ctx q args)
      "sqltoolkit/db: hook panic in BeforeQuery"
      (fun h => BeforeQuery h ctx q args) i hooks.
Proof.
  revert i; induction hooks as [|h rest IH]; intros i; simpl;
    [|rewrite IH]; reflexivity.
Qed.

Lemma rangeAfter_rangeSafe (hooks : list (Hook Ext)) i ctx q args d err :
  rangeAfter i hooks ctx q args d err
  = rangeSafe (fun k => EvAfterQuery k ctx q args d err)
      "sqltoolkit/db: hook panic in AfterQuery"
      (fun h => AfterQuery h ctx q args d err) i hooks.
Proof.
  revert i; induction hooks as [|h rest IH]; intros i; simpl;
    [|rewrite IH]; reflexivity.
Qed.

(** The loop never panics; it calls every hook, in order; it logs exactly
    the panics raised; the external state is the one the hooks leave. *)
Lemma rangeSafe_run marker msg (call : Hook Ext -> M Ext unit) hooks :
  (forall k, isSlog (marker k) = false) ->
  forall i w,
  exists evs,
    rangeSafe marker msg call i hooks w
    = ({| ext := fst (runHooks call hooks (ext w));
          trace := trace w ++ evs |}, Returned tt)
    /\ dropSlog evs = map marker (seq i (length hooks))
    /\ slogged evs = map (pair msg) (snd (runHooks call hooks (ext w))).
Proof.
  intros Hm. induction hooks as [|h rest IH]; intros i [x tr].
  - exists []. simpl. unfold ret. rewrite app_nil_r. auto.
  - simpl. unfold bind at 1. unfold emit at 1. simpl.
    unfold bind at 1, defer_, external. simpl.
    destruct (call h x) as [x' o] eqn:Hc.
    destruct o as [[]|p]; simpl.
    + destruct (IH (S i) {| ext := x'; trace := tr ++ [marker i] |})
        as (evs & Hrun & Hd & Hs).
      simpl in Hrun, Hs. rewrite Hrun.
      destruct (runHooks call rest x') as [x'' ps] eqn:Hr. simpl in *.
      exists (marker i :: evs). rewrite <- app_assoc. simpl.
      split; [reflexivity|]. unfold dropSlog in *. simpl. rewrite Hm. simpl.
      rewrite Hd. split; [reflexivity|].
      destruct (marker i) eqn:E; specialize (Hm i); rewrite E in Hm;
        simpl in *; try discriminate; exact Hs.
    + destruct (IH (S i) {| ext := x';
                     trace := (tr ++ [marker i]) ++ [EvSlogError msg p] |})
        as (evs & Hrun & Hd & Hs).
      simpl in Hrun, Hs. rewrite Hrun.
      destruct (runHooks call rest x') as [x'' ps] eqn:Hr. simpl in *.
      exists (marker i :: EvSlogError msg p :: evs).
      rewrite <- !app_assoc. simpl.
      split; [reflexivity|]. unfold dropSlog in *. simpl. rewrite Hm. simpl.
      rewrite Hd. split; [reflexivity|].
      destruct (marker i) eqn:E; specialize (Hm i); rewrite E in Hm;
        simpl in *; try discriminate; rewrite Hs; reflexivity.
Qed.

Lemma skeleton_markers (f : nat -> event) (l : list nat) :
  (forall k, isHookEvent (f k) = true) -> skeleton (map f l) = [].
Proof.
  intros Hf. induction l as [|k l IH]; [reflexivity|].
  simpl. rewrite Hf. exact IH.
Qed.

Lemma hookChain_Before_run (c : hookChain Ext) ctx q args (w : world Ext) :
  exists evs,
    hookChain_Before c ctx q args w
    = ({| ext := extBefore c ctx q args (ext w);
          trace := trace w ++ evs |}, Returned tt)
    /\ dropSlog evs = beforeMarkers (length (chain_hooks c)) ctx q args
    /\ slogged evs
       = map (pair "sqltoolkit/db: hook panic in BeforeQuery")
           (panicsBefore c ctx q args (ext w))
    /\ skeleton evs = [EvNotifyBefore ctx q args].
Proof.
  unfold hookChain_Before, extBefore, panicsBefore. rewrite rangeBefore_rangeSafe.
  unfold bind at 1. unfold emit at 1. simpl.
  destruct (rangeSafe_run (fun k => EvBeforeQuery k ctx q args)
              "sqltoolkit/db: hook panic in BeforeQuery"
              (fun h => BeforeQuery h ctx q args) (chain_hooks c)
              (fun _ => eq_refl) 0
              {| ext := ext w; trace := trace w ++ [EvNotifyBefore ctx q args] |})
    as (evs & Hrun & Hd & Hs).
  simpl in Hrun, Hs. rewrite Hrun.
  exists (EvNotifyBefore ctx q args :: evs). rewrite <- app_assoc. simpl.
  split; [reflexivity|]. split; [|split; [exact Hs|]].
  - unfold beforeMarkers. rewrite <- Hd. reflexivity.
  - change (skeleton (EvNotifyBefore ctx q args :: evs))
      with (EvNotifyBefore ctx q args :: skeleton evs).
    rewrite <- (skeleton_dropSlog evs), Hd, skeleton_markers; auto.
Qed.

Lemma hookChain_After_run (c : hookChain Ext) ctx q args d err (w : world Ext) :
  exists evs,
    hookChain_After c ctx q args d err w
    = ({| ext := extAfter c ctx q args d err (ext w);
          trace := trace w ++ evs |}, Returned tt)
    /\ dropSlog evs = afterMarkers (length (chain_hooks c)) ctx q args d err
    /\ slogged evs
       = map (pair "sqltoolkit/db: hook panic in AfterQuery")
           (panicsAfter c ctx q args d err (ext w))
    /\ skeleton evs = [EvNotifyAfter ctx q args d err].
Proof.
  unfold hookChain_After, extAfter, panicsAfter. rewrite rangeAfter_rangeSafe.
  unfold bind at 1. unfold emit at 1. simpl.
  destruct (rangeSafe_run (fun k => EvAfterQuery k ctx q args d err)
              "sqltoolkit/db: hook panic in AfterQuery"
              (fun h => AfterQuery h ctx q args d err) (chain_hooks c)
              (fun _ => eq_refl) 0
              {| ext := ext w;
                 trace := trace w ++ [EvNotifyAfter ctx q args d err] |})
    as (evs & Hrun & Hd & Hs).
  simpl in Hrun, Hs. rewrite Hrun.
  exists (EvNotifyAfter ctx q args d err :: evs). rewrite <- app_assoc. simpl.
  split; [reflexivity|]. split; [|split; [exact Hs|]].
  - unfold afterMarkers. rewrite <- Hd. reflexivity.
  - change (skeleton (EvNotifyAfter ctx q args d err :: evs))
      with (EvNotifyAfter ctx q args d err :: skeleton evs).
    rewrite <- (skeleton_dropSlog evs), Hd, skeleton_markers; auto.
Qed.

(** Calmed hooks leave the same external state and raise nothing. *)
Lemma runHooks_calm (call : Hook Ext -> M Ext unit) (hooks : list (Hook Ext)) x :
  (forall h y, call (calm h) y = quiet (call h) y) ->
  runHooks call (map calm hooks) x = (fst (runHooks call hooks x), []).
Proof.
  intros Hq. revert x. induction hooks as [|h rest IH]; intros x; [reflexivity|].
  simpl. rewrite Hq. unfold quiet. destruct (call h x) as [x' o].
  rewrite IH. destruct (runHooks call rest x'); reflexivity.
Qed.

Lemma extBefore_calm (c : hookChain Ext) ctx q args x :
  extBefore (calmChain c) ctx q args x = extBefore c ctx q args x.
Proof. unfold extBefore. simpl. rewrite runHooks_calm; reflexivity. Qed.

Lemma panicsBefore_calm (c : hookChain Ext) ctx q args x :
  panicsBefore (calmChain c) ctx q args x = [].
Proof. unfold panicsBefore. simpl. rewrite runHooks_calm; reflexivity. Qed.

Lemma extAfter_calm (c : hookChain Ext) ctx q args d err x :
  extAfter (calmChain c) ctx q args d err x = extAfter c ctx q args d err x.
Proof. unfold extAfter. simpl. rewrite runHooks_calm; reflexivity. Qed.

Lemma panicsAfter_calm (c : hookChain Ext) ctx q args d err x :
  panicsAfter (calmChain c) ctx q args d err x = [].
Proof. unfold panicsAfter. simpl. rewrite runHooks_calm; reflexivity. Qed.

Lemma calmChain_length (c : hookChain Ext) :
  length (chain_hooks (calmChain c)) = length (chain_hooks c).
Proof. simpl. apply length_map. Qed.

(** ** The composite hook *)

(** Once a sub-hook panics the loop of the composite is over. *)
Lemma rangeHooks_panic (call : Hook Ext -> M Ext unit)
    (pre post : list (option (Hook Ext))) h x x1 x2 p :
  rangeHooks call pre x = (x1, Returned tt) ->
  call h x1 = (x2, Panicked p) ->
  rangeHooks call (pre ++ Some h :: post) x = (x2, Panicked p).
Proof.
  revert x. induction pre as [|o pre IH]; intros x Hpre Hh.
  - simpl in Hpre. inversion Hpre; subst x1. simpl. unfold bind. rewrite Hh.
    reflexivity.
  - destruct o as [h'|]; simpl in *; [|discriminate].
    unfold bind in *. destruct (call h' x) as [x' [[]|p']]; [|discriminate].
    apply IH; assumption.
Qed.

(** C10.  The loops of the composite hook recover nothing.  When the
    sub-hooks before [h] return and [h] panics, [BeforeQuery] of the composite
    panics with the panic of [h], in the state [h] left: the sub-hooks after
    [h] are not called, whatever they are.  The panic is recovered one level
    up, by [safeBeforeQuery] of the hook chain, which logs it and returns.
    The same holds of [AfterQuery]. *)
Theorem composite_hook_skips_after_panic
    (pre post : list (option (Hook Ext))) (h : Hook Ext) ctx q args :
  (forall x x1 x2 p,
     compositeHook_BeforeQuery pre ctx q args x = (x1, Returned tt) ->
     BeforeQuery h ctx q args x1 = (x2, Panicked p) ->
     BeforeQuery (CompositeHook (pre ++ Some h :: post)) ctx q args x
     = (x2, Panicked p)
     /\ BeforeQuery (CompositeHook (pre ++ Some h :: post)) ctx q args x
        = BeforeQuery (CompositeHook (pre ++ [Some h])) ctx q args x
     /\ forall tr,
          safeBeforeQuery (CompositeHook (pre ++ Some h :: post)) ctx q args
            {| ext := x; trace := tr |}
          = ({| ext := x2;
                trace := tr ++ [EvSlogError
                                  "sqltoolkit/db: hook panic in BeforeQuery" p] |},
             Returned tt))
  /\ (forall d err x x1 x2 p,
        compositeHook_AfterQuery pre ctx q args d err x = (x1, Returned tt) ->
        AfterQuery h ctx q args d err x1 = (x2, Panicked p) ->
        AfterQuery (CompositeHook (pre ++ Some h :: post)) ctx q args d err x
        = (x2, Panicked p)
        /\ AfterQuery (CompositeHook (pre ++ Some h :: post)) ctx q args d err x
           = AfterQuery (CompositeHook (pre ++ [Some h])) ctx q args d err x
        /\ forall tr,
             safeAfterQuery (CompositeHook (pre ++ Some h :: post)) ctx q args
               d err {| ext := x; trace := tr |}
             = ({| ext := x2;
                   trace := tr ++ [EvSlogError
                                     "sqltoolkit/db: hook panic in AfterQuery" p] |},
                Returned tt))
  /\ (forall (earlier later : list (Hook Ext)) d err (w : world Ext),
        let c := {| chain_hooks :=
                      earlier ++ CompositeHook (pre ++ Some h :: post) :: later |} in
        (exists w', hookChain_Before c ctx q args w = (w', Returned tt))
        /\ (exists w', hookChain_After c ctx q args d err w = (w', Returned tt))).
Proof.
  split; [|split].
  3:{ intros earlier later d err w c. split.
      - destruct (hookChain_Before_run c ctx q args w) as (evs & H & _). eauto.
      - destruct (hookChain_After_run c ctx q args d err w) as (evs & H & _).
        eauto. }
  - intros x x1 x2 p Hpre Hh. simpl.
    unfold compositeHook_BeforeQuery in *.
    pose proof (rangeHooks_panic _ pre post h x Hpre Hh) as Hall.
    pose proof (rangeHooks_panic _ pre [] h x Hpre Hh) as Hcut.
    split; [exact Hall|]. split; [rewrite Hall, Hcut; reflexivity|].
    intros tr. unfold safeBeforeQuery, defer_, external. simpl.
    unfold compositeHook_BeforeQuery. rewrite Hall. reflexivity.
  - intros d err x x1 x2 p Hpre Hh. simpl.
    unfold compositeHook_AfterQuery in *.
    pose proof (rangeHooks_panic _ pre post h x Hpre Hh) as Hall.
    pose proof (rangeHooks_panic _ pre [] h x Hpre Hh) as Hcut.
    split; [exact Hall|]. split; [rewrite Hall, Hcut; reflexivity|].
    intros tr. unfold safeAfterQuery, defer_, external. simpl.
    unfold compositeHook_AfterQuery. rewrite Hall. reflexivity.
Qed.

End HookChain.

(* ------------------------------------------------------------------------- *)
(** * Executor operations *)
(* ------------------------------------------------------------------------- *)

Lemma bind_returned (W A B : Type) (m : M W A) (k : A -> M W B) w w' a :
  m w = (w', Returned a) -> bind m k w = k a w'.
Proof. intros H. unfold bind. rewrite H. reflexivity. Qed.

Lemma bind_panicked (W A B : Type) (m : M W A) (k : A -> M W B) w w' p :
  m w = (w', Panicked p) -> bind m k w = (w', Panicked p).
Proof. intros H. unfold bind. rewrite H. reflexivity. Qed.

Section Executor.

Variable Ext : Type.
Variable now : Ext -> Time.

(** The common part of the six operations, run: nothing panics; the trace
    grows by the hook calls before, the call into [database/sql], the hook
    calls after; the value is what [database/sql] returned. *)
Lemma observed_run (A : Type) (hooks : hookChain Ext) ctx q args
    (call : Ext -> Ext * A) (ev : A -> event) (errOf : A -> option error)
    (w : world Ext) xE a :
  call (extBefore hooks ctx q args (ext w)) = (xE, a) ->
  exists evsB evsA,
    let elapsed := now xE - now (ext w) in
    observed now hooks ctx q args call ev errOf w
    = ({| ext := extAfter hooks ctx q args elapsed (errOf a) xE;
          trace := trace w ++ evsB ++ ev a :: evsA |}, Returned a)
    /\ dropSlog evsB = beforeMarkers (length (chain_hooks hooks)) ctx q args
    /\ slogged evsB
       = map (pair "sqltoolkit/db: hook panic in BeforeQuery")
           (panicsBefore hooks ctx q args (ext w))
    /\ skeleton evsB = [EvNotifyBefore ctx q args]
    /\ dropSlog evsA
       = afterMarkers (length (chain_hooks hooks)) ctx q args elapsed (errOf a)
    /\ slogged evsA
       = map (pair "sqltoolkit/db: hook panic in AfterQuery")
           (panicsAfter hooks ctx q args elapsed (errOf a) xE)
    /\ skeleton evsA = [EvNotifyAfter ctx q args elapsed (errOf a)].
Proof.
  intros Hcall. unfold observed.
  destruct (hookChain_Before_run hooks ctx q args w)
    as (evsB & HB & HdB & HsB & HkB).
  set (wE := {| ext := xE; trace := (trace w ++ evsB) ++ [ev a] |}).
  destruct (hookChain_After_run hooks ctx q args (now xE - now (ext w))
              (errOf a) wE) as (evsA & HA & HdA & HsA & HkA).
  exists evsB, evsA. cbv zeta.
  split; [|repeat split; assumption].
  erewrite bind_returned by reflexivity.
  erewrite bind_returned by exact HB.
  erewrite (bind_returned (sqlcall call ev)) with (w' := wE) (a := a)
    by (unfold sqlcall; simpl; rewrite Hcall; reflexivity).
  erewrite bind_returned by reflexivity.
  erewrite bind_returned by exact HA.
  unfold ret, wE. simpl. rewrite <- !app_assoc. reflexivity.
Qed.


Lemma applyDefaultTimeout_run (d : DB Ext) ctx (w : world Ext) :
  exists ctx',
    applyDefaultTimeout now d ctx w = (w, Returned ctx')
    /\ (Deadline ctx <> None -> ctx' = ctx)
    /\ (DefaultTimeout (DB_cfg d) = 0 -> ctx' = ctx)
    /\ (Deadline ctx = None -> DefaultTimeout (DB_cfg d) <> 0 ->
        ctx' = withDeadline ctx (now (ext w) + DefaultTimeout (DB_cfg d))).
Proof.
  unfold applyDefaultTimeout.
  destruct (DefaultTimeout (DB_cfg d) =? 0) eqn:E.
  - apply Z.eqb_eq in E. exists ctx. unfold ret.
    split; [reflexivity|]. split; [auto|]. split; [auto|].
    intros _ H; contradiction.
  - apply Z.eqb_neq in E. destruct (Deadline ctx) as [dl|] eqn:Hd.
    + exists ctx. unfold ret.
      split; [reflexivity|]. split; [auto|]. split; [auto|]. discriminate.
    + exists (withDeadline ctx (now (ext w) + DefaultTimeout (DB_cfg d))).
      split.
      * unfold bind, time_Now, ret, context_WithTimeout, context_WithDeadline.
        rewrite Hd. reflexivity.
      * split; [intros H; now elim H|]. split; [intros H; contradiction|auto].
Qed.

(** ** Each operation is the common part around its own call *)

Lemma bind_ext (W A B : Type) (m : M W A) (k1 k2 : A -> M W B) w :
  (forall a w', k1 a w' = k2 a w') -> bind m k1 w = bind m k2 w.
Proof. intros H. unfold bind. destruct (m w) as [w' [a|p]]; auto. Qed.

Lemma bind_assoc (W A B C : Type) (m : M W A) (k : A -> M W B)
    (k' : B -> M W C) w :
  bind (bind m k) k' w = bind m (fun a => bind (k a) k') w.
Proof. unfold bind. destruct (m w) as [w' [a|p]]; reflexivity. Qed.

Lemma bind_cong (W A B : Type) (m m' : M W A) (k : A -> M W B) w :
  m w = m' w -> bind m k w = bind m' k w.
Proof. intros H. unfold bind. rewrite H. reflexivity. Qed.

Ltac same_steps :=
  unfold observed;
  repeat (rewrite ?bind_assoc;
          first [ reflexivity
                | apply bind_ext;
                  let a := fresh "a" in
                  intros a ?;
                  try match type of a with (_ * _)%type => destruct a end ]).

Lemma DB_Exec_observed (d : DB Ext) ctx ctx' q args (w : world Ext) :
  applyDefaultTimeout now d ctx w = (w, Returned ctx') ->
  DB_Exec now d ctx q args w
  = (r <- observed now (DB_hooks d) ctx' q args
            (ExecContext (DB_sqldb d) None ctx' q args)
            (fun r => EvExecContext None ctx' q args (fst r) (snd r))
            (fun r => DB_mapErr d (snd r)) ;;
     ret (fst r, DB_mapErr d (snd r))) w.
Proof.
  intros H. unfold DB_Exec. erewrite bind_returned by exact H. same_steps.
Qed.

Lemma DB_Query_observed (d : DB Ext) ctx ctx' q args (w : world Ext) :
  applyDefaultTimeout now d ctx w = (w, Returned ctx') ->
  DB_Query now d ctx q args w
  = (r <- observed now (DB_hooks d) ctx' q args
            (QueryContext (DB_sqldb d) None ctx' q args)
            (fun r => EvQueryContext None ctx' q args (fst r) (snd r))
            (fun r => DB_mapErr d (snd r)) ;;
     ret (fst r, DB_mapErr d (snd r))) w.
Proof.
  intros H. unfold DB_Query. erewrite bind_returned by exact H. same_steps.
Qed.

Lemma DB_QueryRow_observed (d : DB Ext) ctx ctx' q args (w : world Ext) :
  applyDefaultTimeout now d ctx w = (w, Returned ctx') ->
  DB_QueryRow now d ctx q args w
  = (raw <- observed now (DB_hooks d) ctx' q args
              (QueryRowContext (DB_sqldb d) None ctx' q args)
              (EvQueryRowContext None ctx' q args)
              (fun _ => None) ;;
     ret {| Row_raw := raw; Row_errMap := DB_errMap d |}) w.
Proof.
  intros H. unfold DB_QueryRow. erewrite bind_returned by exact H. same_steps.
Qed.

Lemma Tx_Exec_observed (t : Tx Ext) ctx q args (w : world Ext) :
  Tx_Exec now t ctx q args w
  = (r <- observed now (Tx_hooks t) ctx q args
            (ExecContext (Tx_conn t) (Some (Tx_sqltx t)) ctx q args)
            (fun r => EvExecContext (Some (Tx_sqltx t)) ctx q args (fst r) (snd r))
            (fun r => Tx_mapErr t (snd r)) ;;
     ret (fst r, Tx_mapErr t (snd r))) w.
Proof. unfold Tx_Exec. same_steps. Qed.

Lemma Tx_Query_observed (t : Tx Ext) ctx q args (w : world Ext) :
  Tx_Query now t ctx q args w
  = (r <- observed now (Tx_hooks t) ctx q args
            (QueryContext (Tx_conn t) (Some (Tx_sqltx t)) ctx q args)
            (fun r => EvQueryContext (Some (Tx_sqltx t)) ctx q args (fst r) (snd r))
            (fun r => Tx_mapErr t (snd r)) ;;
     ret (fst r, Tx_mapErr t (snd r))) w.
Proof. unfold Tx_Query. same_steps. Qed.

Lemma Tx_QueryRow_observed (t : Tx Ext) ctx q args (w : world Ext) :
  Tx_QueryRow now t ctx q args w
  = (raw <- observed now (Tx_hooks t) ctx q args
              (QueryRowContext (Tx_conn t) (Some (Tx_sqltx t)) ctx q args)
              (EvQueryRowContext (Some (Tx_sqltx t)) ctx q args)
              (fun _ => None) ;;
     ret {| Row_raw := raw; Row_errMap := Tx_errMap t |}) w.
Proof. unfold Tx_QueryRow. same_steps. Qed.


(** ** The eight methods at once *)

Ltac call_cases :=
  unfold sqlCallOf; simpl;
  match goal with
  | |- context [let (_, _) := ?c in _] => destruct c
  end;
  reflexivity.

(** [Exec], [Query] and [QueryRow] of either handle are the common part
    around one call into [database/sql]; so are they with calmed hooks, around
    the same call. *)
Lemma invoke_observed (q : Querier Ext) (m : method) ctx query args
    (w : world Ext) :
  m <> mPrepare ->
  exists ctx' (A : Type) (call : Ext -> Ext * A) (ev : A -> event)
         (errOf : A -> option error) (f : A -> reply Ext),
    match q with
    | QuerierDB d => applyDefaultTimeout now d ctx w = (w, Returned ctx')
    | QuerierTx _ => ctx' = ctx
    end
    /\ invoke now q m ctx query args w
       = (r <- observed now (Querier_hooks q) ctx' query args call ev errOf ;;
          ret (f r)) w
    /\ invoke now (calmQuerier q) m ctx query args w
       = (r <- observed now (calmChain (Querier_hooks q)) ctx' query args
                 call ev errOf ;;
          ret (f r)) w
    /\ forall a,
         isCallOf m (Querier_tx q) query args (ev a)
         /\ callCtx (ev a) = Some ctx'
         /\ errOf a = match m with
                      | mQueryRow => None
                      | _ => Querier_mapErr q (callErr (ev a))
                      end
         /\ (m <> mQueryRow \/ callErr (ev a) <> None ->
             replyErr (f a) = Querier_mapErr q (callErr (ev a)))
         /\ replyOf q (ev a) = Some (f a)
         /\ forall x,
              sqlCallOf q m ctx' query args x = (fst (call x), ev (snd (call x))).
Proof.
  intros Hm. destruct q as [d|t].
  - destruct (applyDefaultTimeout_run d ctx w) as (ctx' & Hctx & _).
    exists ctx'.
    destruct m; [| | |contradiction]; simpl.
    + exists (sqlResult * option error)%type,
        (ExecContext (DB_sqldb d) None ctx' query args),
        (fun r => EvExecContext None ctx' query args (fst r) (snd r)),
        (fun r => DB_mapErr d (snd r)),
        (fun r => ExecReply (fst r) (DB_mapErr d (snd r))).
      split; [exact Hctx|]. split; [|split].
      * erewrite bind_cong by (apply DB_Exec_observed; exact Hctx).
        rewrite bind_assoc. apply bind_ext. intros [? ?] ?. reflexivity.
      * erewrite bind_cong by (apply DB_Exec_observed; exact Hctx).
        rewrite bind_assoc. apply bind_ext. intros [? ?] ?. reflexivity.
      * intros a. simpl. repeat split; auto.
        intros x. call_cases.
    + exists (sqlRows * option error)%type,
        (QueryContext (DB_sqldb d) None ctx' query args),
        (fun r => EvQueryContext None ctx' query args (fst r) (snd r)),
        (fun r => DB_mapErr d (snd r)),
        (fun r => QueryReply (fst r) (DB_mapErr d (snd r))).
      split; [exact Hctx|]. split; [|split].
      * erewrite bind_cong by (apply DB_Query_observed; exact Hctx).
        rewrite bind_assoc. apply bind_ext. intros [? ?] ?. reflexivity.
      * erewrite bind_cong by (apply DB_Query_observed; exact Hctx).
        rewrite bind_assoc. apply bind_ext. intros [? ?] ?. reflexivity.
      * intros a. simpl. repeat split; auto.
        intros x. call_cases.
    + exists sqlRow,
        (QueryRowContext (DB_sqldb d) None ctx' query args),
        (EvQueryRowContext None ctx' query args),
        (fun _ => None),
        (fun raw => QueryRowReply {| Row_raw := raw; Row_errMap := DB_errMap d |}).
      split; [exact Hctx|]. split; [|split].
      * erewrite bind_cong by (apply DB_QueryRow_observed; exact Hctx).
        rewrite bind_assoc. apply bind_ext. reflexivity.
      * erewrite bind_cong by (apply DB_QueryRow_observed; exact Hctx).
        rewrite bind_assoc. apply bind_ext. reflexivity.
      * intros a. simpl. split; [auto|]. split; [auto|]. split; [auto|].
        split; [|split; [reflexivity|]].
        -- intros [H|H]; [now elim H|]. unfold Row_Scan, sqlRow_Scan. simpl.
           destruct (rowErr a); [reflexivity | now elim H].
        -- intros x. call_cases.
  - exists ctx.
    destruct m; [| | |contradiction]; simpl.
    + exists (sqlResult * option error)%type,
        (ExecContext (Tx_conn t) (Some (Tx_sqltx t)) ctx query args),
        (fun r => EvExecContext (Some (Tx_sqltx t)) ctx query args (fst r) (snd r)),
        (fun r => Tx_mapErr t (snd r)),
        (fun r => ExecReply (fst r) (Tx_mapErr t (snd r))).
      split; [reflexivity|]. split; [|split].
      * erewrite bind_cong by apply Tx_Exec_observed.
        rewrite bind_assoc. apply bind_ext. intros [? ?] ?. reflexivity.
      * erewrite bind_cong by apply Tx_Exec_observed.
        rewrite bind_assoc. apply bind_ext. intros [? ?] ?. reflexivity.
      * intros a. simpl. repeat split; auto.
        intros x. call_cases.
    + exists (sqlRows * option error)%type,
        (QueryContext (Tx_conn t) (Some (Tx_sqltx t)) ctx query args),
        (fun r => EvQueryContext (Some (Tx_sqltx t)) ctx query args (fst r) (snd r)),
        (fun r => Tx_mapErr t (snd r)),
        (fun r => QueryReply (fst r) (Tx_mapErr t (snd r))).
      split; [reflexivity|]. split; [|split].
      * erewrite bind_cong by apply Tx_Query_observed.
        rewrite bind_assoc. apply bind_ext. intros [? ?] ?. reflexivity.
      * erewrite bind_cong by apply Tx_Query_observed.
        rewrite bind_assoc. apply bind_ext. intros [? ?] ?. reflexivity.
      * intros a. simpl. repeat split; auto.
        intros x. call_cases.
    + exists sqlRow,
        (QueryRowContext (Tx_conn t) (Some (Tx_sqltx t)) ctx query args),
        (EvQueryRowContext (Some (Tx_sqltx t)) ctx query args),
        (fun _ => None),
        (fun raw => QueryRowReply {| Row_raw := raw; Row_errMap := Tx_errMap t |}).
      split; [reflexivity|]. split; [|split].
      * erewrite bind_cong by apply Tx_QueryRow_observed.
        rewrite bind_assoc. apply bind_ext. reflexivity.
      * erewrite bind_cong by apply Tx_QueryRow_observed.
        rewrite bind_assoc. apply bind_ext. reflexivity.
      * intros a. simpl. split; [auto|]. split; [auto|]. split; [auto|].
        split; [|split; [reflexivity|]].
        -- intros [H|H]; [now elim H|]. unfold Row_Scan, sqlRow_Scan. simpl.
           destruct (rowErr a); [reflexivity | now elim H].
        -- intros x. call_cases.
Qed.


Lemma method_eq_dec (a b : method) : {a = b} + {a <> b}.
Proof. decide equality. Qed.

Lemma isCallOf_not_hook m tx query args ev :
  isCallOf m tx query args ev -> isHookEvent ev = false /\ isSlog ev = false.
Proof. destruct m, ev; simpl; intros H; try contradiction; auto. Qed.

(** [Prepare] of either handle: one call into [database/sql], no hooks. *)
Lemma invoke_prepare_run (q : Querier Ext) ctx query args (w : world Ext) :
  exists ctx' xE s err r,
    match q with
    | QuerierDB d => applyDefaultTimeout now d ctx w = (w, Returned ctx')
    | QuerierTx _ => ctx' = ctx
    end
    /\ invoke now q mPrepare ctx query args w
       = ({| ext := xE;
             trace := trace w
                      ++ [EvPrepareContext (Querier_tx q) ctx' query s err] |},
          Returned r).
Proof.
  destruct q as [d|t]; simpl.
  - destruct (applyDefaultTimeout_run d ctx w) as (ctx' & Hctx & _).
    destruct (PrepareContext (DB_sqldb d) None ctx' query (ext w))
      as [xE [s err]] eqn:Hp.
    exists ctx', xE, s, err.
    unfold DB_Prepare. rewrite bind_assoc. erewrite bind_returned by exact Hctx.
    rewrite bind_assoc. unfold bind at 1, sqlcall at 1. rewrite Hp. simpl.
    destruct err; eexists; (split; [exact Hctx | reflexivity]).
  - destruct (PrepareContext (Tx_conn t) (Some (Tx_sqltx t)) ctx query (ext w))
      as [xE [s err]] eqn:Hp.
    exists ctx, xE, s, err.
    unfold Tx_Prepare. rewrite bind_assoc.
    unfold bind at 1, sqlcall at 1. rewrite Hp. simpl.
    destruct err; eexists; (split; [reflexivity | reflexivity]).
Qed.

(** C2, as the code has it.  Every [Exec], [Query] and [QueryRow], on the pool
    or in a transaction, returns normally and notifies the hook chain once
    before the call into [database/sql] and once after it, whatever the call
    returned; the chain in turn calls [AfterQuery] of each of its hooks once,
    with the same arguments.  For [Exec] and [Query] the error passed to the
    after-notification is the error of the call, classified, which is also
    the error returned.  For [QueryRow] it is always nil: the error is not
    known until [Scan], which is where the caller receives it, classified. *)
Theorem after_notified_once (q : Querier Ext) (m : method) ctx query args
    (w : world Ext) :
  m <> mPrepare ->
  exists w' r evs ctx' call elapsed,
    invoke now q m ctx query args w = (w', Returned r)
    /\ trace w' = (trace w ++ evs)%list
    /\ isCallOf m (Querier_tx q) query args call
    /\ skeleton evs
       = [EvNotifyBefore ctx' query args;
          call;
          EvNotifyAfter ctx' query args elapsed
            match m with
            | mQueryRow => None
            | _ => Querier_mapErr q (callErr call)
            end]
    /\ dropSlog evs
       = (beforeMarkers (length (chain_hooks (Querier_hooks q))) ctx' query args
          ++ call
          :: afterMarkers (length (chain_hooks (Querier_hooks q))) ctx' query
               args elapsed
               match m with
               | mQueryRow => None
               | _ => Querier_mapErr q (callErr call)
               end)%list
    /\ (m <> mQueryRow \/ callErr call <> None ->
        replyErr r = Querier_mapErr q (callErr call)).
Proof.
  intros Hm.
  destruct (@invoke_observed q m ctx query args w Hm)
    as (ctx' & A & call & ev & errOf & f & _ & Hinv & _ & Hprops).
  destruct (call (extBefore (Querier_hooks q) ctx' query args (ext w)))
    as [xE a] eqn:Hcall.
  destruct (@observed_run _ (Querier_hooks q) ctx' query args call ev errOf w
              xE a Hcall)
    as (evsB & evsA & Hrun & HdB & _ & HkB & HdA & _ & HkA).
  cbv zeta in Hrun, HkA, HdA.
  destruct (Hprops a) as (Hcallof & _ & Herr & Hreply & _).
  destruct (@isCallOf_not_hook _ _ _ _ _ Hcallof) as [Hnh Hns].
  eexists _, (f a), (evsB ++ ev a :: evsA)%list, ctx', (ev a), _.
  split; [rewrite Hinv; erewrite bind_returned by exact Hrun; reflexivity|].
  split; [reflexivity|]. split; [exact Hcallof|].
  split; [|split; [|exact Hreply]].
  - rewrite skeleton_app, HkB.
    change (skeleton (ev a :: evsA))
      with (if negb (isHookEvent (ev a)) then ev a :: skeleton evsA
            else skeleton evsA).
    rewrite Hnh, HkA, Herr. reflexivity.
  - rewrite dropSlog_app, HdB.
    change (dropSlog (ev a :: evsA))
      with (if negb (isSlog (ev a)) then ev a :: dropSlog evsA
            else dropSlog evsA).
    rewrite Hns, HdA, Herr. reflexivity.
Qed.

(** C7.  Whatever the method and the handle, the call into [database/sql] is
    made with the caller's own context when that context carries a deadline,
    and when the configured default is zero.  The default timeout is set, as
    a deadline counted from the call, only on a context without deadline and
    only by the methods of DB; the methods of Tx pass the context on as it
    is. *)
Theorem default_timeout_only_without_deadline (q : Querier Ext) (m : method)
    ctx query args (w : world Ext) :
  exists w' r evs call ctx',
    invoke now q m ctx query args w = (w', Returned r)
    /\ trace w' = (trace w ++ evs)%list
    /\ In call evs
    /\ isCallOf m (Querier_tx q) query args call
    /\ callCtx call = Some ctx'
    /\ (Deadline ctx <> None -> ctx' = ctx)
    /\ match q with
       | QuerierDB d =>
           (DefaultTimeout (DB_cfg d) = 0 -> ctx' = ctx)
           /\ (Deadline ctx = None -> DefaultTimeout (DB_cfg d) <> 0 ->
               ctx' = withDeadline ctx (now (ext w) + DefaultTimeout (DB_cfg d))
               /\ Deadline ctx'
                  = Some (now (ext w) + DefaultTimeout (DB_cfg d)))
       | QuerierTx _ => ctx' = ctx
       end.
Proof.
  assert (Hprec : forall ctx',
    match q with
    | QuerierDB d => applyDefaultTimeout now d ctx w = (w, Returned ctx')
    | QuerierTx _ => ctx' = ctx
    end ->
    (Deadline ctx <> None -> ctx' = ctx)
    /\ match q with
       | QuerierDB d =>
           (DefaultTimeout (DB_cfg d) = 0 -> ctx' = ctx)
           /\ (Deadline ctx = None -> DefaultTimeout (DB_cfg d) <> 0 ->
               ctx' = withDeadline ctx (now (ext w) + DefaultTimeout (DB_cfg d))
               /\ Deadline ctx'
                  = Some (now (ext w) + DefaultTimeout (DB_cfg d)))
       | QuerierTx _ => ctx' = ctx
       end).
  { intros ctx' H. destruct q as [d|t]; [|auto].
    destruct (applyDefaultTimeout_run d ctx w) as (c & Hc & H1 & H2 & H3).
    rewrite Hc in H. inversion H; subst c.
    split; [exact H1|]. split; [exact H2|].
    intros Hd Ht. specialize (H3 Hd Ht). split; [exact H3|].
    rewrite H3. simpl. rewrite Hd. reflexivity. }
  assert (Hobs : m <> mPrepare ->
    exists w' r evs call ctx',
      invoke now q m ctx query args w = (w', Returned r)
      /\ trace w' = (trace w ++ evs)%list
      /\ In call evs
      /\ isCallOf m (Querier_tx q) query args call
      /\ callCtx call = Some ctx'
      /\ match q with
         | QuerierDB d => applyDefaultTimeout now d ctx w = (w, Returned ctx')
         | QuerierTx _ => ctx' = ctx
         end).
  { intros Hm.
    destruct (@invoke_observed q m ctx query args w Hm)
      as (ctx' & A & call & ev & errOf & f & Hctx & Hinv & _ & Hprops).
    destruct (call (extBefore (Querier_hooks q) ctx' query args (ext w)))
      as [xE a] eqn:Hcall.
    destruct (@observed_run _ (Querier_hooks q) ctx' query args call ev errOf
                w xE a Hcall) as (evsB & evsA & Hrun & _).
    cbv zeta in Hrun.
    destruct (Hprops a) as (Hcallof & Hcc & _).
    eexists _, (f a), (evsB ++ ev a :: evsA)%list, (ev a), ctx'.
    split; [rewrite Hinv; erewrite bind_returned by exact Hrun; reflexivity|].
    split; [reflexivity|].
    split; [apply in_or_app; right; left; reflexivity|]. auto. }
  destruct (method_eq_dec m mPrepare) as [->|Hm].
  2:{ destruct (Hobs Hm) as (w' & r & evs & call & ctx' & H1 & H2 & H3 & H4 & H5 & H6).
      destruct (Hprec ctx' H6) as [P1 P2].
      exists w', r, evs, call, ctx'. auto 10. }
  destruct (invoke_prepare_run q ctx query args w)
    as (ctx' & xE & s & err & r & Hctx & Hinv).
  destruct (Hprec ctx' Hctx) as [P1 P2].
  eexists _, r, _, _, ctx'.
  split; [exact Hinv|]. split; [reflexivity|].
  split; [left; reflexivity|]. simpl. auto.
Qed.

(** C8.  A panic of a hook stays inside the chain.
    - [hookChain.Before] and [hookChain.After] always return normally; they
      call every hook of the chain, in order, whether or not an earlier one
      panicked; and they log exactly the panics raised.
    - [Exec], [Query] and [QueryRow], on the pool or in a transaction, return
      normally whichever hooks panic.  The chain calls [BeforeQuery] of every
      hook, then the statement goes to [database/sql] on the state those
      calls left, then the chain calls [AfterQuery] of every hook.  The
      caller is handed what [database/sql] returned, with the error
      classified.  Each panic is logged, and nothing else is: the reply, the
      external state and the calls are those of the run in which no hook
      panics, and the two runs differ by the log lines only. *)
Theorem hook_panics_isolated :
  (forall (c : hookChain Ext) ctx query args (w : world Ext),
     exists evs,
       hookChain_Before c ctx query args w
       = ({| ext := extBefore c ctx query args (ext w);
             trace := trace w ++ evs |}, Returned tt)
       /\ dropSlog evs = beforeMarkers (length (chain_hooks c)) ctx query args
       /\ slogged evs
          = map (pair "sqltoolkit/db: hook panic in BeforeQuery")
              (panicsBefore c ctx query args (ext w)))
  /\ (forall (c : hookChain Ext) ctx query args d err (w : world Ext),
        exists evs,
          hookChain_After c ctx query args d err w
          = ({| ext := extAfter c ctx query args d err (ext w);
                trace := trace w ++ evs |}, Returned tt)
          /\ dropSlog evs
             = afterMarkers (length (chain_hooks c)) ctx query args d err
          /\ slogged evs
             = map (pair "sqltoolkit/db: hook panic in AfterQuery")
                 (panicsAfter c ctx query args d err (ext w)))
  /\ (forall (q : Querier Ext) (m : method) ctx query args (w : world Ext),
        m <> mPrepare ->
        exists ctx' xE call r evs,
          let hooks := Querier_hooks q in
          let elapsed := now xE - now (ext w) in
          let err := match m with
                     | mQueryRow => None
                     | _ => Querier_mapErr q (callErr call)
                     end in
          let x' := extAfter hooks ctx' query args elapsed err xE in
          match q with
          | QuerierDB d => applyDefaultTimeout now d ctx w = (w, Returned ctx')
          | QuerierTx _ => ctx' = ctx
          end
          /\ sqlCallOf q m ctx' query args
               (extBefore hooks ctx' query args (ext w))
             = (xE, call)
          /\ replyOf q call = Some r
          /\ invoke now q m ctx query args w
             = ({| ext := x'; trace := trace w ++ evs |}, Returned r)
          /\ invoke now (calmQuerier q) m ctx query args w
             = ({| ext := x'; trace := trace w ++ dropSlog evs |}, Returned r)
          /\ dropSlog evs
             = (beforeMarkers (length (chain_hooks hooks)) ctx' query args
                ++ call
                :: afterMarkers (length (chain_hooks hooks)) ctx' query args
                     elapsed err)%list
          /\ slogged evs
             = (map (pair "sqltoolkit/db: hook panic in BeforeQuery")
                  (panicsBefore hooks ctx' query args (ext w))
                ++ map (pair "sqltoolkit/db: hook panic in AfterQuery")
                     (panicsAfter hooks ctx' query args elapsed err xE))%list).
Proof.
  split; [|split].
  - intros c ctx query args w.
    destruct (hookChain_Before_run c ctx query args w) as (evs & H1 & H2 & H3 & _).
    exists evs. auto.
  - intros c ctx query args d err w.
    destruct (hookChain_After_run c ctx query args d err w)
      as (evs & H1 & H2 & H3 & _).
    exists evs. auto.
  - intros q m ctx query args w Hm.
    destruct (@invoke_observed q m ctx query args w Hm)
      as (ctx' & A & call & ev & errOf & f & Hctx & Hinv & Hcalm & Hprops).
    destruct (call (extBefore (Querier_hooks q) ctx' query args (ext w)))
      as [xE a] eqn:Hcall.
    destruct (@observed_run _ (Querier_hooks q) ctx' query args call ev errOf w xE a Hcall)
      as (evsB & evsA & Hrun & HdB & HsB & _ & HdA & HsA & _).
    assert (Hcall' :
      call (extBefore (calmChain (Querier_hooks q)) ctx' query args (ext w))
      = (xE, a)) by (rewrite extBefore_calm; exact Hcall).
    destruct (@observed_run _ (calmChain (Querier_hooks q)) ctx' query args
                call ev errOf w xE a Hcall')
      as (evsB' & evsA' & Hrun' & HdB' & HsB' & _ & HdA' & HsA' & _).
    cbv zeta in *.
    rewrite panicsBefore_calm in HsB'. rewrite panicsAfter_calm in HsA'.
    rewrite calmChain_length in HdB', HdA'.
    apply dropSlog_quiet in HsB'. apply dropSlog_quiet in HsA'.
    rewrite HsB' in HdB'. rewrite HsA' in HdA'.
    rewrite extAfter_calm in Hrun'.
    destruct (Hprops a) as (Hcallof & _ & Herr & _ & Hreply & Hsql).
    destruct (@isCallOf_not_hook _ _ _ _ _ Hcallof) as [_ Hns].
    rewrite Herr in Hrun, Hrun', HdA, HsA, HdA'.
    exists ctx', xE, (ev a), (f a), (evsB ++ ev a :: evsA)%list.
    split; [exact Hctx|]. split; [rewrite Hsql, Hcall; reflexivity|].
    split; [exact Hreply|]. split; [|split; [|split]].
    + rewrite Hinv. erewrite bind_returned by exact Hrun. reflexivity.
    + rewrite Hcalm. erewrite bind_returned by exact Hrun'.
      rewrite dropSlog_app.
      change (dropSlog (ev a :: evsA))
        with (if negb (isSlog (ev a)) then ev a :: dropSlog evsA
              else dropSlog evsA).
      rewrite Hns, HdB, HdA, HdB', HdA'. reflexivity.
    + rewrite dropSlog_app.
      change (dropSlog (ev a :: evsA))
        with (if negb (isSlog (ev a)) then ev a :: dropSlog evsA
              else dropSlog evsA).
      rewrite Hns, HdB, HdA. reflexivity.
    + rewrite slogged_app, (@slogged_cons (ev a) evsA Hns), HsB, HsA.
      reflexivity.
Qed.

End Executor.

(* ------------------------------------------------------------------------- *)
(** * Transactions *)
(* ------------------------------------------------------------------------- *)

Lemma HasPrefix_app (b c : string) : strings.HasPrefix (b ++ c) b = true.
Proof.
  unfold strings.HasPrefix. induction b as [|a b IH]; simpl.
  - destruct c; reflexivity.
  - destruct (ascii_dec a a) as [_|N]; [exact IH | now elim N].
Qed.

Lemma Index_app_nonneg (a s sub : string) :
  strings.HasPrefix s sub = true -> 0 <= strings.Index (a ++ s) sub.
Proof.
  intros H. induction a as [|c a IH]; cbn [append].
  - destruct s; cbn [strings.Index]; rewrite H; lia.
  - cbn [strings.Index].
    destruct (strings.HasPrefix (String c (a ++ s)) sub); [lia|].
    destruct (strings.Index (a ++ s) sub <? 0) eqn:E; [|lia].
    apply Z.ltb_lt in E. lia.
Qed.

Lemma append_nil_r (s : string) : s ++ EmptyString = s.
Proof. induction s as [|c s IH]; simpl; congruence. Qed.

Lemma append_assoc (a b c : string) : (a ++ b) ++ c = a ++ b ++ c.
Proof. induction a as [|x a IH]; simpl; congruence. Qed.

(** A text holds each piece it was put together from. *)
Lemma Contains_app (a b c : string) : strings.Contains (a ++ b ++ c) b = true.
Proof.
  unfold strings.Contains. apply Z.leb_le, Index_app_nonneg, HasPrefix_app.
Qed.

(** The combined error keeps both: the text of the rollback failure, and the
    original error, in its text and on its [Unwrap] chain. *)
Lemma rollbackFailed_keeps_both (rbErr : option error) (m : error) :
  Unwrap (rollbackFailed rbErr (Some m)) = Some m
  /\ errors_Is (Some (rollbackFailed rbErr (Some m))) (Some m) = true
  /\ strings.Contains (Error (rollbackFailed rbErr (Some m))) (fmt_v rbErr) = true
  /\ strings.Contains (Error (rollbackFailed rbErr (Some m))) (Error m) = true.
Proof.
  split; [reflexivity|]. split; [|split].
  - unfold rollbackFailed, errors_Is. cbn [is_chain].
    rewrite is_chain_refl. apply orb_true_r.
  - unfold rollbackFailed. cbn [Error]. apply Contains_app.
  - unfold rollbackFailed. cbn [Error fmt_w].
    replace ("sqltoolkit/db: rollback failed (" ++ fmt_v rbErr
             ++ ") after original error: " ++ Error m)
      with (("sqltoolkit/db: rollback failed (" ++ fmt_v rbErr
             ++ ") after original error: ") ++ Error m ++ EmptyString).
    + apply Contains_app.
    + rewrite append_nil_r, <- !append_assoc. reflexivity.
Qed.

Section Transactions.

Variable Ext : Type.
Variable now : Ext -> Time.

(** Once the transaction is begun, [ExecTxOpts] is its body under its
    deferred function. *)
Lemma ExecTxOpts_begun (d : DB Ext) ctx fn opts (w : world Ext) ctx' w1 sqltx :
  applyDefaultTimeout now d ctx w = (w, Returned ctx') ->
  beginTx d ctx' (sqlOptsOf opts) w = (w1, Returned (sqltx, None)) ->
  DB_ExecTxOpts now d ctx fn opts w
  = defer_ (ExecTxOpts_body d sqltx fn) (ExecTxOpts_deferred d sqltx) w1.
Proof.
  intros Hctx Hbegin. unfold DB_ExecTxOpts.
  erewrite bind_returned by exact Hctx.
  erewrite bind_returned by exact Hbegin. reflexivity.
Qed.

(** C3, as the code has it.  When the body returns a non-nil error [e], which
    the mapper of the handle classifies as [m], [ExecTxOpts] calls [Rollback]
    next and nothing else (no [Commit]).  When the rollback succeeds it
    returns [m]: the body error as the mapper classifies it, which is [e]
    itself wherever the mapper passes [e] through.  When the rollback fails it
    returns one error that wraps [m] and carries the text of the rollback
    failure. *)
Theorem ExecTxOpts_rolls_back_on_error (d : DB Ext) ctx fn opts (w : world Ext)
    ctx' w1 sqltx w2 e m :
  applyDefaultTimeout now d ctx w = (w, Returned ctx') ->
  beginTx d ctx' (sqlOptsOf opts) w = (w1, Returned (sqltx, None)) ->
  fn (newTx d sqltx) w1 = (w2, Returned (Some e)) ->
  DB_errMap d (Some e) = Some m ->
  exists x3 rbErr,
    Rollback (DB_sqldb d) sqltx (ext w2) = (x3, rbErr)
    /\ DB_ExecTxOpts now d ctx fn opts w
       = ({| ext := x3; trace := trace w2 ++ [EvRollback sqltx rbErr] |},
          Returned (Some match rbErr with
                         | None => m
                         | Some _ => rollbackFailed rbErr (Some m)
                         end))
    /\ DB_ExecTx now d ctx fn opts w = DB_ExecTxOpts now d ctx fn opts w
    /\ (rbErr <> None ->
        Unwrap (rollbackFailed rbErr (Some m)) = Some m
        /\ errors_Is (Some (rollbackFailed rbErr (Some m))) (Some m) = true
        /\ strings.Contains (Error (rollbackFailed rbErr (Some m))) (fmt_v rbErr)
           = true).
Proof.
  intros Hctx Hbegin Hfn Hmap.
  destruct (Rollback (DB_sqldb d) sqltx (ext w2)) as [x3 rbErr] eqn:Hrb.
  exists x3, rbErr. split; [reflexivity|]. split; [|split; [reflexivity|]].
  - rewrite (@ExecTxOpts_begun d ctx fn opts w ctx' w1 sqltx Hctx Hbegin).
    unfold defer_, ExecTxOpts_body. erewrite bind_returned by exact Hfn.
    unfold DB_mapErr. rewrite Hmap. unfold ret at 1.
    unfold ExecTxOpts_deferred, bind, rollback, sqlcall. rewrite Hrb.
    destruct rbErr; reflexivity.
  - intros _. destruct (rollbackFailed_keeps_both rbErr m) as (H1 & H2 & H3 & _).
    auto.
Qed.

(** C4, as the code has it.  When the body returns nil, [ExecTxOpts] calls
    [Commit] next.  When that fails with an error the mapper classifies as
    [m], the deferred function, which sees a non-nil result, calls [Rollback]
    as well.  When this rollback returns nil the caller gets [m], the
    classified commit error; when it fails too the caller gets one error that
    wraps [m] and carries the text of the rollback failure.  Either way
    [errors.Is] finds [m] in what is returned. *)
Theorem ExecTxOpts_commit_failure (d : DB Ext) ctx fn opts (w : world Ext)
    ctx' w1 sqltx w2 x3 ce m :
  applyDefaultTimeout now d ctx w = (w, Returned ctx') ->
  beginTx d ctx' (sqlOptsOf opts) w = (w1, Returned (sqltx, None)) ->
  fn (newTx d sqltx) w1 = (w2, Returned None) ->
  Commit (DB_sqldb d) sqltx (ext w2) = (x3, Some ce) ->
  DB_errMap d (Some ce) = Some m ->
  exists x4 rbErr result,
    Rollback (DB_sqldb d) sqltx x3 = (x4, rbErr)
    /\ DB_ExecTxOpts now d ctx fn opts w
       = ({| ext := x4;
             trace := trace w2
                      ++ [EvCommit sqltx (Some ce); EvRollback sqltx rbErr] |},
          Returned (Some result))
    /\ result = match rbErr with
                | None => m
                | Some _ => rollbackFailed rbErr (Some m)
                end
    /\ errors_Is (Some result) (Some m) = true
    /\ DB_ExecTx now d ctx fn opts w = DB_ExecTxOpts now d ctx fn opts w.
Proof.
  intros Hctx Hbegin Hfn Hcommit Hmap.
  destruct (Rollback (DB_sqldb d) sqltx x3) as [x4 rbErr] eqn:Hrb.
  exists x4, rbErr. eexists. split; [reflexivity|].
  split; [|split; [reflexivity|split; [|reflexivity]]].
  - rewrite (@ExecTxOpts_begun d ctx fn opts w ctx' w1 sqltx Hctx Hbegin).
    unfold defer_, ExecTxOpts_body. erewrite bind_returned by exact Hfn.
    unfold bind at 1, commit at 1, sqlcall at 1. rewrite Hcommit.
    unfold DB_mapErr. rewrite Hmap. unfold ret at 1.
    unfold ExecTxOpts_deferred, bind, rollback, sqlcall. simpl. rewrite Hrb.
    rewrite <- app_assoc. destruct rbErr; reflexivity.
  - destruct rbErr.
    + apply rollbackFailed_keeps_both.
    + simpl. rewrite is_chain_refl. reflexivity.
Qed.

End Transactions.

(* ------------------------------------------------------------------------- *)
(** * WithRetry *)
(* ------------------------------------------------------------------------- *)

Lemma attempts_app (a b : list retryEvent) :
  attempts (a ++ b) = (attempts a + attempts b)%nat.
Proof. unfold attempts. rewrite filter_app, length_app. reflexivity. Qed.

Lemma forallb_removelast (A : Type) (f : A -> bool) (l : list A) :
  forallb f l = true -> forallb f (removelast l) = true.
Proof.
  induction l as [|a l IH]; [reflexivity|].
  simpl. intros H. apply andb_true_iff in H as [Ha Hl].
  destruct l; [reflexivity|]. simpl in *. rewrite Ha. auto.
Qed.

Lemma forallb_removelast_app (A : Type) (f : A -> bool) (a b : list A) :
  forallb f a = true -> forallb f (removelast b) = true ->
  forallb f (removelast (a ++ b)) = true.
Proof.
  intros Ha Hb. destruct b as [|x b].
  - rewrite app_nil_r. apply forallb_removelast, Ha.
  - rewrite removelast_app by discriminate. rewrite forallb_app, Ha. exact Hb.
Qed.

(** An event after which the loop does not go on can only be the last. *)
Lemma stopped_is_last (log : list retryEvent) (ev : retryEvent) :
  forallb running (removelast log) = true ->
  In ev log -> running ev = false ->
  log = (removelast log ++ [ev])%list.
Proof.
  intros Hrun Hin Hstop.
  assert (Hne : log <> []) by (intros ->; contradiction).
  rewrite (app_removelast_last ev Hne) in Hin.
  apply in_app_or in Hin as [Hin|[Hin|[]]].
  - rewrite forallb_forall in Hrun. apply Hrun in Hin. congruence.
  - rewrite <- Hin. apply app_removelast_last, Hne.
Qed.

(** The first step of a log, if there is one, is an attempt. *)
Lemma retryLog_head (ctx : Context) (delay : Duration)
    (log : list retryEvent) :
  retryLog ctx delay log -> log = [] \/ exists r rest, log = Attempt r :: rest.
Proof.
  induction 1 as [|r|l r r' _ IH|l r e _ IH]; [now left|right; eauto| |].
  - right. destruct IH as [IH|(r0 & rest & IH)].
    + destruct l; discriminate.
    + exists r0, (rest ++ [Wait ctx delay None; Attempt r'])%list.
      change (l ++ [Attempt r; Wait ctx delay None; Attempt r'])%list
        with (l ++ [Attempt r] ++ [Wait ctx delay None; Attempt r'])%list.
      rewrite app_assoc, IH. reflexivity.
  - right. destruct IH as [IH|(r0 & rest & IH)].
    + destruct l; discriminate.
    + exists r0, (rest ++ [Wait ctx delay (Some e)])%list.
      change (l ++ [Attempt r; Wait ctx delay (Some e)])%list
        with (l ++ [Attempt r] ++ [Wait ctx delay (Some e)])%list.
      rewrite app_assoc, IH. reflexivity.
Qed.

(** Every wait of a log is on the context and for the delay of the log. *)
Lemma retryLog_waits (ctx : Context) (delay : Duration)
    (log : list retryEvent) :
  retryLog ctx delay log ->
  forall c d done, In (Wait c d done) log -> c = ctx /\ d = delay.
Proof.
  induction 1 as [|r|l r r' _ IH|l r e _ IH]; intros c d done Hin.
  - contradiction.
  - destruct Hin as [Hin|[]]. discriminate.
  - change (l ++ [Attempt r; Wait ctx delay None; Attempt r'])%list
      with (l ++ [Attempt r] ++ [Wait ctx delay None; Attempt r'])%list in Hin.
    rewrite app_assoc in Hin. apply in_app_or in Hin as [Hin|Hin].
    + eapply IH, Hin.
    + destruct Hin as [Hin|[Hin|[]]]; [|discriminate].
      inversion Hin. auto.
  - change (l ++ [Attempt r; Wait ctx delay (Some e)])%list
      with (l ++ [Attempt r] ++ [Wait ctx delay (Some e)])%list in Hin.
    rewrite app_assoc in Hin. apply in_app_or in Hin as [Hin|Hin].
    + eapply IH, Hin.
    + destruct Hin as [Hin|[]]. inversion Hin. auto.
Qed.

Section RetryFacts.

Variable W : Type.
Variable sel : Context -> Duration -> W -> W * option error.
Variable ctx : Context.
Variable cfg : RetryConfig.
Variable fn : M W (option error).


(** The recursion of [retryLoop] follows the [for] loop: with
    [remaining = max 0 (MaxAttempts - attempt)], as [WithRetry] starts it and
    as each turn keeps it, no turn is left exactly when the loop test
    [attempt < cfg.MaxAttempts] fails. *)
Lemma remaining_is_loop_test (remaining : nat) (attempt : Z) :
  Z.of_nat remaining = Z.max 0 (MaxAttempts cfg - attempt) ->
  (remaining = 0%nat <-> ~ attempt < MaxAttempts cfg)
  /\ (forall k, remaining = S k ->
      Z.of_nat k = Z.max 0 (MaxAttempts cfg - (attempt + 1))).
Proof. intros H. split; [split; intros; lia | intros k ->; lia]. Qed.

Lemma WithRetry_starts_loop :
  Z.of_nat (Z.to_nat (MaxAttempts cfg)) = Z.max 0 (MaxAttempts cfg - 0).
Proof. lia. Qed.

(** One turn of the loop, case by case: the wait when there is one, then the
    call of the operation, then what its result leads to. *)
Lemma retryLoop_step (k : nat) (attempt : Z) (lastErr : option error)
    (w : W) (l : list retryEvent) :
  exists w1 l1 cancelled,
    ((0 <? attempt) = false /\ w1 = w /\ l1 = l /\ cancelled = None
     \/ (0 <? attempt) = true /\ sel ctx (Delay cfg) w = (w1, cancelled)
        /\ l1 = (l ++ [Wait ctx (Delay cfg) cancelled])%list)
    /\ match cancelled with
       | Some e => loggedLoop sel ctx cfg fn (S k) attempt lastErr (w, l) = ((w1, l1), Returned (Some e))
       | None =>
           exists w2 o2,
             fn w1 = (w2, o2)
             /\ match o2 with
                | Returned (Some e) =>
                    if retryOnOf cfg (Some e)
                    then loggedLoop sel ctx cfg fn (S k) attempt lastErr (w, l)
                         = loggedLoop sel ctx cfg fn k (attempt + 1) (Some e)
                             (w2, (l1 ++ [Attempt o2])%list)
                    else loggedLoop sel ctx cfg fn (S k) attempt lastErr (w, l)
                         = ((w2, (l1 ++ [Attempt o2])%list), Returned (Some e))
                | _ => loggedLoop sel ctx cfg fn (S k) attempt lastErr (w, l)
                       = ((w2, (l1 ++ [Attempt o2])%list), o2)
                end
       end.
Proof.
  unfold loggedLoop. cbn [retryLoop]. unfold bind.
  destruct (0 <? attempt) eqn:Hat.
  - unfold loggedSelect. cbn [fst snd].
    destruct (sel ctx (Delay cfg) w) as [w1 c] eqn:Hsel.
    exists w1, (l ++ [Wait ctx (Delay cfg) c])%list, c.
    split; [right; auto|].
    destruct c as [e|]; [reflexivity|].
    destruct (fn w1) as [w2 o2] eqn:Hfn. exists w2, o2. split; [reflexivity|].
    unfold loggedFn. cbn [fst snd]. rewrite Hfn.
    destruct o2 as [[e|]|p]; [|reflexivity|reflexivity].
    destruct (retryOnOf cfg (Some e)); reflexivity.
  - exists w, l, None. split; [left; auto|].
    destruct (fn w) as [w2 o2] eqn:Hfn. exists w2, o2. split; [reflexivity|].
    unfold ret, loggedFn. cbn [fst snd]. rewrite Hfn.
    destruct o2 as [[e|]|p]; [|reflexivity|reflexivity].
    destruct (retryOnOf cfg (Some e)); reflexivity.
Qed.

(** When the operation always fails with an error to retry on and no wait is
    cut short, [S k] turns of the loop call the operation [S k] times and
    end on the composite error around the last error. *)
Lemma retryLoop_exhausts :
  (forall w0, exists w1 e,
      fn w0 = (w1, Returned (Some e)) /\ retryOnOf cfg (Some e) = true) ->
  (forall w0, snd (sel ctx (Delay cfg) w0) = None) ->
  forall k attempt lastErr w l,
  exists w' evs e w0,
    loggedLoop sel ctx cfg fn (S k) attempt lastErr (w, l)
    = ((w', (l ++ evs)%list),
       Returned (Some (allAttemptsFailed (MaxAttempts cfg) (Some e))))
    /\ attempts evs = S k
    /\ fn w0 = (w', Returned (Some e)).
Proof.
  intros Hfail Hsel. induction k as [|k IH]; intros attempt lastErr w l.
  - destruct (retryLoop_step 0 attempt lastErr w l)
      as (w1 & l1 & c & Hwait & Hrest).
    assert (Hc : c = None /\ exists ws, l1 = (l ++ ws)%list /\ attempts ws = 0%nat).
    { destruct Hwait as [(_ & _ & -> & ->)|(_ & Hs & ->)].
      - split; [reflexivity|]. exists []. rewrite app_nil_r. auto.
      - specialize (Hsel w). rewrite Hs in Hsel. simpl in Hsel. subst c.
        split; [reflexivity|]. eexists; split; reflexivity. }
    destruct Hc as (-> & ws & -> & Hws).
    destruct Hrest as (w2 & o2 & Hfn & Hrest).
    destruct (Hfail w1) as (w2' & e & Hfn' & Hretry).
    rewrite Hfn in Hfn'. inversion Hfn'; subst w2' o2. rewrite Hretry in Hrest.
    exists w2, (ws ++ [Attempt (Returned (Some e))])%list, e, w1.
    split; [|split; [|exact Hfn]].
    + rewrite Hrest. unfold loggedLoop. simpl. unfold ret. rewrite <- app_assoc.
      reflexivity.
    + rewrite attempts_app, Hws. reflexivity.
  - destruct (retryLoop_step (S k) attempt lastErr w l)
      as (w1 & l1 & c & Hwait & Hrest).
    assert (Hc : c = None /\ exists ws, l1 = (l ++ ws)%list /\ attempts ws = 0%nat).
    { destruct Hwait as [(_ & _ & -> & ->)|(_ & Hs & ->)].
      - split; [reflexivity|]. exists []. rewrite app_nil_r. auto.
      - specialize (Hsel w). rewrite Hs in Hsel. simpl in Hsel. subst c.
        split; [reflexivity|]. eexists; split; reflexivity. }
    destruct Hc as (-> & ws & -> & Hws).
    destruct Hrest as (w2 & o2 & Hfn & Hrest).
    destruct (Hfail w1) as (w2' & e & Hfn' & Hretry).
    rewrite Hfn in Hfn'. inversion Hfn'; subst w2' o2. rewrite Hretry in Hrest.
    destruct (IH (attempt + 1) (Some e) w2
                ((l ++ ws) ++ [Attempt (Returned (Some e))])%list)
      as (w' & evs & e' & w0 & Hrun & Hn & Hlast).
    exists w', (ws ++ [Attempt (Returned (Some e))] ++ evs)%list, e', w0.
    split; [|split; [|exact Hlast]].
    + rewrite Hrest, Hrun. rewrite <- !app_assoc. reflexivity.
    + rewrite !attempts_app, Hws, Hn. reflexivity.
Qed.

(** What the steps of any run say about its result: a wait cut short ends
    the run on the error of the context, a successful attempt ends it on nil,
    and the loop goes on after every step but the last. *)
Lemma retryLoop_events :
  forall k attempt lastErr w l w' l' o,
  loggedLoop sel ctx cfg fn k attempt lastErr (w, l) = ((w', l'), o) ->
  exists evs,
    l' = (l ++ evs)%list
    /\ (forall c d e, In (Wait c d (Some e)) evs -> o = Returned (Some e))
    /\ (In (Attempt (Returned None)) evs -> o = Returned None)
    /\ forallb running (removelast evs) = true.
Proof.
  induction k as [|k IH]; intros attempt lastErr w l w' l' o Hrun.
  - unfold loggedLoop in Hrun. simpl in Hrun. unfold ret in Hrun.
    inversion Hrun; subst. exists []. rewrite app_nil_r.
    split; [reflexivity|]. split; [|split; [|reflexivity]];
      intros; contradiction.
  - destruct (retryLoop_step k attempt lastErr w l)
      as (w1 & l1 & c & Hwait & Hrest).
    assert (Hws : exists ws, l1 = (l ++ ws)%list
                  /\ (ws = [] \/ ws = [Wait ctx (Delay cfg) c])).
    { destruct Hwait as [(_ & _ & -> & _)|(_ & _ & ->)].
      - exists []. rewrite app_nil_r. auto.
      - eexists; split; [reflexivity|auto]. }
    destruct Hws as (ws & -> & Hws).
    destruct c as [e|].
    + rewrite Hrest in Hrun. inversion Hrun; subst.
      assert (ws = [Wait ctx (Delay cfg) (Some e)]) as ->.
      { destruct Hwait as [(_ & _ & _ & D)|(_ & _ & E)]; [discriminate|].
        apply app_inv_head in E. exact E. }
      exists [Wait ctx (Delay cfg) (Some e)].
      split; [reflexivity|]. split; [|split; [|reflexivity]].
      * intros c d e0 [H|[]]. inversion H; reflexivity.
      * intros [H|[]]. discriminate.
    + destruct Hrest as (w2 & o2 & Hfn & Hrest).
      assert (Hwsrun : forallb running ws = true)
        by (destruct Hws as [-> | ->]; reflexivity).
      assert (Hwsin : forall ev, In ev ws -> ev = Wait ctx (Delay cfg) None)
        by (destruct Hws as [-> | ->]; intros ev Hin;
            [contradiction | destruct Hin as [H|[]]; auto]).
      assert (Hstop :
        loggedLoop sel ctx cfg fn (S k) attempt lastErr (w, l)
        = ((w2, ((l ++ ws) ++ [Attempt o2])%list), o2) ->
        exists evs,
          l' = (l ++ evs)%list
          /\ (forall c d e, In (Wait c d (Some e)) evs -> o = Returned (Some e))
          /\ (In (Attempt (Returned None)) evs -> o = Returned None)
          /\ forallb running (removelast evs) = true).
      { intros Hres. rewrite Hres in Hrun. inversion Hrun; subst.
        exists (ws ++ [Attempt o])%list. rewrite app_assoc.
        split; [reflexivity|]. split; [|split].
        - intros c d e Hin. apply in_app_or in Hin as [Hin|[Hin|[]]].
          + apply Hwsin in Hin. discriminate.
          + discriminate.
        - intros Hin. apply in_app_or in Hin as [Hin|[Hin|[]]].
          + apply Hwsin in Hin. discriminate.
          + inversion Hin. reflexivity.
        - rewrite removelast_last. exact Hwsrun. }
      destruct o2 as [[e|]|p]; [|apply Hstop, Hrest|apply Hstop, Hrest].
      destruct (retryOnOf cfg (Some e)); [|apply Hstop, Hrest].
      rewrite Hrest in Hrun. apply IH in Hrun.
      destruct Hrun as (evs & -> & Hw & Hs & Hr).
      exists (ws ++ [Attempt (Returned (Some e))] ++ evs)%list.
      rewrite <- !app_assoc. split; [reflexivity|]. split; [|split].
      * intros c d e0 Hin. apply in_app_or in Hin as [Hin|Hin].
        -- apply Hwsin in Hin. discriminate.
        -- destruct Hin as [Hin|Hin]; [discriminate|]. eapply Hw, Hin.
      * intros Hin. apply in_app_or in Hin as [Hin|Hin].
        -- apply Hwsin in Hin. discriminate.
        -- destruct Hin as [Hin|Hin]; [discriminate|]. apply Hs, Hin.
      * rewrite app_assoc. apply forallb_removelast_app; [|exact Hr].
        rewrite forallb_app, Hwsrun. reflexivity.
Qed.

(** The log of any run has the shape [retryLog]: waits of [cfg.Delay] stand
    between two attempts, or after an attempt at the very end when the
    context cut them short. *)
Lemma retryLoop_shape :
  forall k attempt lastErr w l w' l' o,
  retryLog ctx (Delay cfg) l ->
  (attempt = 0 /\ l = []
   \/ 0 < attempt /\ exists l0 r, l = (l0 ++ [Attempt r])%list) ->
  loggedLoop sel ctx cfg fn k attempt lastErr (w, l) = ((w', l'), o) ->
  retryLog ctx (Delay cfg) l'.
Proof.
  induction k as [|k IH]; intros attempt lastErr w l w' l' o Hlog Hpre Hrun.
  - unfold loggedLoop in Hrun. simpl in Hrun. unfold ret in Hrun.
    inversion Hrun; subst. exact Hlog.
  - destruct (retryLoop_step k attempt lastErr w l)
      as (w1 & l1 & c & Hwait & Hrest).
    assert (Hnext : forall o2,
      retryLog ctx (Delay cfg) (l1 ++ [Attempt o2])
      /\ (0 < attempt + 1
          /\ exists l0 r, (l1 ++ [Attempt o2])%list = (l0 ++ [Attempt r])%list)
      \/ c <> None).
    { intros o2.
      destruct Hwait as [(Hat & _ & -> & ->)|(Hat & _ & ->)].
      - left. apply Z.ltb_ge in Hat.
        destruct Hpre as [[-> ->]|[Hpos _]]; [|lia].
        split; [apply retryLog_first|]. split; [lia|]. exists [], o2. reflexivity.
      - apply Z.ltb_lt in Hat.
        destruct Hpre as [[-> _]|[_ (l0 & r & ->)]]; [lia|].
        destruct c as [e|]; [right; discriminate|left].
        rewrite <- !app_assoc. simpl. split.
        + apply retryLog_next. exact Hlog.
        + split; [lia|]. exists (l0 ++ [Attempt r; Wait ctx (Delay cfg) None])%list, o2.
          rewrite <- app_assoc. reflexivity. }
    destruct c as [e|].
    + rewrite Hrest in Hrun. inversion Hrun; subst.
      destruct Hwait as [(_ & _ & _ & D)|(Hat & _ & ->)]; [discriminate|].
      apply Z.ltb_lt in Hat.
      destruct Hpre as [[-> _]|[_ (l0 & r & ->)]]; [lia|].
      rewrite <- app_assoc. simpl. apply retryLog_cancelled. exact Hlog.
    + destruct Hrest as (w2 & o2 & Hfn & Hrest).
      destruct (Hnext o2) as [[Hlog2 Hpre2]|N]; [|now elim N].
      destruct o2 as [[e|]|p];
        [|rewrite Hrest in Hrun; inversion Hrun; subst; exact Hlog2
         |rewrite Hrest in Hrun; inversion Hrun; subst; exact Hlog2].
      destruct (retryOnOf cfg (Some e)).
      * rewrite Hrest in Hrun. eapply IH; [exact Hlog2| |exact Hrun].
        right. exact Hpre2.
      * rewrite Hrest in Hrun; inversion Hrun; subst; exact Hlog2.
Qed.

(** The log is only a record: without it the run is the same. *)
Lemma retryLoop_erase :
  forall k attempt lastErr w l,
  retryLoop sel k ctx cfg fn attempt lastErr w
  = (fst (fst (loggedLoop sel ctx cfg fn k attempt lastErr (w, l))),
     snd (loggedLoop sel ctx cfg fn k attempt lastErr (w, l))).
Proof.
  induction k as [|k IH]; intros attempt lastErr w l; [reflexivity|].
  destruct (retryLoop_step k attempt lastErr w l)
    as (w1 & l1 & c & Hwait & Hrest).
  cbn [retryLoop]. unfold bind.
  destruct Hwait as [(Hat & -> & -> & ->)|(Hat & Hs & ->)]; rewrite Hat.
  - destruct Hrest as (w2 & o2 & Hfn & Hrest). unfold ret at 1. rewrite Hfn.
    destruct o2 as [[e|]|p]; [|rewrite Hrest; reflexivity|rewrite Hrest; reflexivity].
    destruct (retryOnOf cfg (Some e)); rewrite Hrest; [|reflexivity].
    simpl. apply IH.
  - rewrite Hs. destruct c as [e|]; [rewrite Hrest; reflexivity|].
    destruct Hrest as (w2 & o2 & Hfn & Hrest). rewrite Hfn.
    destruct o2 as [[e|]|p]; [|rewrite Hrest; reflexivity|rewrite Hrest; reflexivity].
    destruct (retryOnOf cfg (Some e)); rewrite Hrest; [|reflexivity].
    simpl. apply IH.
Qed.

(** C5, as the code has it.
    - With [MaxAttempts = n >= 1], an operation that always fails with an
      error the predicate retries on, and no wait cut short by the context,
      [WithRetry] calls the operation exactly [n] times and returns the
      composite error that names [MaxAttempts] and wraps the error of the
      last call.
    - When the first call fails with an error the predicate does not retry
      on, [WithRetry] has called the operation once and returns that error.
    - A call that succeeds is the last step of the run, and the run
      returns nil. *)
Theorem WithRetry_bounded :
  (forall n w,
     MaxAttempts cfg = Z.of_nat n -> (1 <= n)%nat ->
     (forall w0, exists w1 e,
         fn w0 = (w1, Returned (Some e)) /\ retryOnOf cfg (Some e) = true) ->
     (forall w0, snd (sel ctx (Delay cfg) w0) = None) ->
     exists w' log e w0,
       WithRetry (loggedSelect sel) ctx cfg (loggedFn fn) (w, [])
       = ((w', log),
          Returned (Some (allAttemptsFailed (MaxAttempts cfg) (Some e))))
       /\ attempts log = n
       /\ fn w0 = (w', Returned (Some e))
       /\ Unwrap (allAttemptsFailed (MaxAttempts cfg) (Some e)) = Some e)
  /\ (forall w w' e,
        1 <= MaxAttempts cfg ->
        fn w = (w', Returned (Some e)) ->
        retryOnOf cfg (Some e) = false ->
        WithRetry (loggedSelect sel) ctx cfg (loggedFn fn) (w, [])
        = ((w', [Attempt (Returned (Some e))]), Returned (Some e)))
  /\ (forall w w' log o,
        WithRetry (loggedSelect sel) ctx cfg (loggedFn fn) (w, [])
        = ((w', log), o) ->
        In (Attempt (Returned None)) log ->
        o = Returned None
        /\ log = (removelast log ++ [Attempt (Returned None)])%list).
Proof.
  split; [|split].
  - intros n w Hn Hpos Hfail Hsel. unfold WithRetry.
    replace (Z.to_nat (MaxAttempts cfg)) with n by lia.
    destruct n as [|k]; [lia|].
    destruct (retryLoop_exhausts Hfail Hsel k 0 None w [])
      as (w' & evs & e & w0 & Hrun & Hcount & Hlast).
    exists w', evs, e, w0. unfold loggedLoop in Hrun. rewrite Hrun.
    repeat split; auto.
  - intros w w' e Hpos Hfn Hno. unfold WithRetry.
    destruct (Z.to_nat (MaxAttempts cfg)) as [|k] eqn:Hk; [lia|].
    destruct (retryLoop_step k 0 None w [])
      as (w1 & l1 & c & Hwait & Hrest).
    destruct Hwait as [(_ & -> & -> & ->)|(Hat & _)]; [|discriminate].
    destruct Hrest as (w2 & o2 & Hfn' & Hrest).
    rewrite Hfn in Hfn'. inversion Hfn'; subst w2 o2. rewrite Hno in Hrest.
    exact Hrest.
  - intros w w' log o Hrun Hin. unfold WithRetry in Hrun.
    apply retryLoop_events in Hrun.
    destruct Hrun as (evs & -> & _ & Hsucc & Hrunning). simpl in *.
    split; [apply Hsucc, Hin|].
    apply stopped_is_last; auto.
Qed.

(** C6.  In any run of [WithRetry] the first step, if there is one, is a
    call of the operation; a wait is on the context [WithRetry] was called
    with, asks for [cfg.Delay], and stands after one call and, unless that
    context cuts it short, before the next.  A wait that the context cuts
    short is the last step of the run: the operation is not called again,
    and the run returns the error that the [select] on the caller's context
    gave, which is what [ctx.Err()] returns. *)
Theorem WithRetry_waits_between_attempts (w w' : W) (log : list retryEvent)
    (o : outcome (option error)) :
  WithRetry (loggedSelect sel) ctx cfg (loggedFn fn) (w, []) = ((w', log), o) ->
  retryLog ctx (Delay cfg) log
  /\ (log = [] \/ exists r rest, log = Attempt r :: rest)
  /\ (forall c d done, In (Wait c d done) log -> c = ctx /\ d = Delay cfg)
  /\ (forall c d e,
        In (Wait c d (Some e)) log ->
        o = Returned (Some e)
        /\ log = (removelast log ++ [Wait ctx (Delay cfg) (Some e)])%list)
  /\ WithRetry sel ctx cfg fn w = (w', o).
Proof.
  intros Hrun. unfold WithRetry in Hrun.
  assert (Hshape : retryLog ctx (Delay cfg) log).
  { eapply retryLoop_shape; [apply retryLog_none| |exact Hrun]. left; auto. }
  assert (Hon : forall c d done, In (Wait c d done) log ->
                                 c = ctx /\ d = Delay cfg)
    by (apply (retryLog_waits Hshape)).
  split; [exact Hshape|]. split; [apply (retryLog_head Hshape)|].
  split; [exact Hon|]. split.
  - pose proof Hrun as Hev. apply retryLoop_events in Hev.
    destruct Hev as (evs & -> & Hwait & _ & Hrunning). simpl in *.
    intros c d e Hin. split; [eapply Hwait, Hin|].
    destruct (Hon c d (Some e) Hin) as [<- <-].
    apply stopped_is_last; auto.
  - unfold WithRetry.
    rewrite (retryLoop_erase (Z.to_nat (MaxAttempts cfg)) 0 None w []).
    unfold loggedLoop. rewrite Hrun. reflexivity.
Qed.

(** C9.  With [MaxAttempts] zero or negative the loop body never runs:
    [WithRetry] calls neither the operation nor the wait, leaves the state as
    it is, and returns the composite error, which is not nil and wraps nil. *)
Theorem WithRetry_without_attempts (w : W) :
  MaxAttempts cfg <= 0 ->
  WithRetry (loggedSelect sel) ctx cfg (loggedFn fn) (w, [])
  = ((w, []), Returned (Some (allAttemptsFailed (MaxAttempts cfg) None)))
  /\ WithRetry sel ctx cfg fn w
     = (w, Returned (Some (allAttemptsFailed (MaxAttempts cfg) None)))
  /\ Unwrap (allAttemptsFailed (MaxAttempts cfg) None) = None
  /\ Error (allAttemptsFailed (MaxAttempts cfg) None)
     = "sqltoolkit/db: all " ++ fmt_d (MaxAttempts cfg)
       ++ " attempts failed, last error: %!w(<nil>)".
Proof.
  intros Hle. unfold WithRetry.
  replace (Z.to_nat (MaxAttempts cfg)) with 0%nat by lia.
  repeat split.
Qed.

End RetryFacts.

(* ------------------------------------------------------------------------- *)
(** * Concrete runs *)
(* ------------------------------------------------------------------------- *)

(** ** Executor operations *)

(** On [demoDB], whose second hook panics, [Exec] goes through. *)
Lemma after_notified_once_witness :
  mExec <> mPrepare
  /\ exists w' r,
       invoke demoNow (QuerierDB demoDB) mExec Background insertUser aliceArgs
         demoWorld = (w', Returned r).
Proof.
  assert (H : mExec <> mPrepare) by discriminate.
  split; [exact H|].
  destruct (@after_notified_once demoState demoNow (QuerierDB demoDB) mExec
              Background insertUser aliceArgs demoWorld H)
    as (w' & r & _ & _ & _ & _ & Hrun & _).
  exists w', r. exact Hrun.
Defined.

(** C2 as stated fails on [QueryRow].  On [failingDB] the statement behind
    [QueryRow] fails with a unique violation, which the mapper classifies as a
    duplicate key; the after-notification is called once, with nil. *)
Lemma QueryRow_after_notified_with_nil :
  skeleton (trace (fst (invoke demoNow (QuerierDB failingDB) mQueryRow
                          Background insertUser aliceArgs demoWorld)))
  = [EvNotifyBefore Background insertUser aliceArgs;
     EvQueryRowContext None Background insertUser aliceArgs failedRow;
     EvNotifyAfter Background insertUser aliceArgs 5 None]
  /\ callErr (EvQueryRowContext None Background insertUser aliceArgs failedRow)
     = Some uniqueFailed
  /\ Querier_mapErr (QuerierDB failingDB) (Some uniqueFailed)
     = Some duplicateKeyError
  /\ (None : option error) <> Some duplicateKeyError.
Proof.
  split; [vm_compute; reflexivity|]. split; [reflexivity|].
  split; [vm_compute; reflexivity|]. discriminate.
Qed.

(** With a default timeout of 30 and the clock at 100, [Exec] on [demoDB] with
    a context without deadline reaches [database/sql] with deadline 130. *)
Lemma default_timeout_only_without_deadline_witness :
  exists w' r evs call,
    invoke demoNow (QuerierDB demoDB) mExec Background insertUser aliceArgs
      demoWorld = (w', Returned r)
    /\ In call evs
    /\ callCtx call = Some (withDeadline Background 130).
Proof.
  destruct (@default_timeout_only_without_deadline demoState demoNow
              (QuerierDB demoDB) mExec Background insertUser aliceArgs demoWorld)
    as (w' & r & evs & call & ctx' & Hrun & _ & Hin & _ & Hctx & _ & _ & Hset).
  destruct (Hset eq_refl) as [Heq _]; [discriminate|].
  exists w', r, evs, call. rewrite Hctx, Heq. auto.
Defined.

(** On [demoDB] the second of the three hooks panics before and after the
    statement.  The insert is made all the same, with the default deadline,
    and its result handed back; the three hooks are called before and after
    it; the two panics are logged; and with calmed hooks the run is the same
    but for the two log lines. *)
Lemma hook_panics_isolated_witness :
  mExec <> mPrepare
  /\ exists x' evs,
       invoke demoNow (QuerierDB demoDB) mExec Background insertUser aliceArgs
         demoWorld
       = ({| ext := x'; trace := trace demoWorld ++ evs |},
          Returned (ExecReply (Some (1, 1)) None))
       /\ invoke demoNow (calmQuerier (QuerierDB demoDB)) mExec Background
            insertUser aliceArgs demoWorld
          = ({| ext := x'; trace := trace demoWorld ++ dropSlog evs |},
             Returned (ExecReply (Some (1, 1)) None))
       /\ calls x' = ["first"; "second"; "third"; "first"; "second"; "third"]
       /\ skeleton evs
          = [EvNotifyBefore (withDeadline Background 130) insertUser aliceArgs;
             EvExecContext None (withDeadline Background 130) insertUser
               aliceArgs (Some (1, 1)) None;
             EvNotifyAfter (withDeadline Background 130) insertUser aliceArgs
               5 None]
       /\ slogged evs
          = [("sqltoolkit/db: hook panic in BeforeQuery", "second");
             ("sqltoolkit/db: hook panic in AfterQuery", "second")].
Proof.
  assert (H : mExec <> mPrepare) by discriminate.
  split; [exact H|].
  destruct (@hook_panics_isolated demoState demoNow) as (_ & _ & Hops).
  destruct (Hops (QuerierDB demoDB) mExec Background insertUser aliceArgs
              demoWorld H)
    as (ctx' & xE & call & r & evs & Hctx & Hsql & Hreply & Hinv & Hcalm
        & Hdrop & Hslog).
  cbv zeta in Hsql, Hreply, Hinv, Hcalm, Hdrop, Hslog.
  assert (Ec : ctx' = withDeadline Background 130)
    by (vm_compute in Hctx; congruence).
  subst ctx'.
  assert (Ex : (xE, call)
               = ({| clock := 105; txDone := false;
                     calls := ["first"; "second"; "third"] |},
                  EvExecContext None (withDeadline Background 130) insertUser
                    aliceArgs (Some (1, 1)) None))
    by (rewrite <- Hsql; reflexivity).
  injection Ex as -> ->.
  assert (Er : r = ExecReply (Some (1, 1)) None)
    by (vm_compute in Hreply; congruence).
  subst r.
  eexists _, evs. split; [exact Hinv|]. split; [exact Hcalm|].
  split; [reflexivity|]. split; [|exact Hslog].
  rewrite <- skeleton_dropSlog, Hdrop. reflexivity.
Defined.

(** The three hooks of [demoDB] are all called, and the one panic is logged. *)
Example demoDB_hooks_all_run :
  calls (ext (fst (hookChain_Before (DB_hooks demoDB) Background insertUser
                     aliceArgs demoWorld)))
  = ["first"; "second"; "third"]
  /\ slogged (trace (fst (hookChain_Before (DB_hooks demoDB) Background
                            insertUser aliceArgs demoWorld)))
     = [("sqltoolkit/db: hook panic in BeforeQuery", "second")].
Proof. split; reflexivity. Qed.

(** In [demoComposite] the hook after the panicking one is not called. *)
Lemma composite_hook_skips_after_panic_witness :
  compositeHook_BeforeQuery [Some (noteHook "a")] Background insertUser aliceArgs
    demoStart = (note "a" demoStart, Returned tt)
  /\ BeforeQuery (panicHook "b") Background insertUser aliceArgs
       (note "a" demoStart)
     = (note "b" (note "a" demoStart), Panicked "b")
  /\ BeforeQuery demoComposite Background insertUser aliceArgs demoStart
     = (note "b" (note "a" demoStart), Panicked "b")
  /\ calls (note "b" (note "a" demoStart)) = ["a"; "b"].
Proof.
  assert (H1 : compositeHook_BeforeQuery [Some (noteHook "a")] Background
                 insertUser aliceArgs demoStart
               = (note "a" demoStart, Returned tt)) by reflexivity.
  assert (H2 : BeforeQuery (panicHook "b") Background insertUser aliceArgs
                 (note "a" demoStart)
               = (note "b" (note "a" demoStart), Panicked "b")) by reflexivity.
  split; [exact H1|]. split; [exact H2|]. split; [|reflexivity].
  destruct (@composite_hook_skips_after_panic demoState
              [Some (noteHook "a")] [Some (noteHook "c")] (panicHook "b")
              Background insertUser aliceArgs) as [Hbefore _].
  destruct (Hbefore _ _ _ _ H1 H2) as [Hall _]. exact Hall.
Defined.

(** ** Transactions *)

(** On [failingDB] the body fails with the duplicate key error; the rollback
    succeeds and that error is returned. *)
Lemma ExecTxOpts_rolls_back_on_error_witness :
  applyDefaultTimeout demoNow failingDB Background demoWorld
  = (demoWorld, Returned Background)
  /\ beginTx failingDB Background (sqlOptsOf []) demoWorld
     = (failingBegun, Returned (7%nat, None))
  /\ insertBody (newTx failingDB 7%nat) failingBegun
     = (failingBodyDone, Returned (Some duplicateKeyError))
  /\ DB_errMap failingDB (Some duplicateKeyError) = Some duplicateKeyError
  /\ exists x3 rbErr,
       DB_ExecTxOpts demoNow failingDB Background insertBody [] demoWorld
       = ({| ext := x3;
             trace := trace failingBodyDone ++ [EvRollback 7%nat rbErr] |},
          Returned (Some match rbErr with
                         | None => duplicateKeyError
                         | Some _ => rollbackFailed rbErr (Some duplicateKeyError)
                         end)).
Proof.
  assert (H1 : applyDefaultTimeout demoNow failingDB Background demoWorld
               = (demoWorld, Returned Background)) by reflexivity.
  assert (H2 : beginTx failingDB Background (sqlOptsOf []) demoWorld
               = (failingBegun, Returned (7%nat, None))) by reflexivity.
  assert (H3 : insertBody (newTx failingDB 7%nat) failingBegun
               = (failingBodyDone, Returned (Some duplicateKeyError)))
    by (vm_compute; reflexivity).
  assert (H4 : DB_errMap failingDB (Some duplicateKeyError)
               = Some duplicateKeyError) by (vm_compute; reflexivity).
  repeat (split; [assumption|]).
  destruct (@ExecTxOpts_rolls_back_on_error demoState demoNow failingDB
              Background insertBody [] demoWorld Background failingBegun 7%nat
              failingBodyDone duplicateKeyError duplicateKeyError H1 H2 H3 H4)
    as (x3 & rbErr & _ & Hrun & _).
  exists x3, rbErr. exact Hrun.
Defined.

(** C3 as stated fails when the mapper classifies the body error.  The body
    returns [sql.ErrNoRows]; the rollback succeeds; what [ExecTx] returns is
    not that error but the [DBError] the mapper makes of it. *)
Lemma ExecTx_returns_classified_body_error :
  noRowsBody (newTx demoDB 7%nat)
    (fst (beginTx demoDB (withDeadline Background 130) None demoWorld))
  = (fst (beginTx demoDB (withDeadline Background 130) None demoWorld),
     Returned (Some sql_ErrNoRows))
  /\ trace (fst (DB_ExecTx demoNow demoDB Background noRowsBody [] demoWorld))
     = [EvBeginTx (withDeadline Background 130) None 7%nat None;
        EvRollback 7%nat None]
  /\ snd (DB_ExecTx demoNow demoDB Background noRowsBody [] demoWorld)
     = Returned (Some notFoundError)
  /\ notFoundError <> sql_ErrNoRows.
Proof.
  split; [reflexivity|]. split; [vm_compute; reflexivity|].
  split; [vm_compute; reflexivity|]. discriminate.
Qed.

(** How a classified error meets the mapper a second time: the body gets the
    not-found error from [Scan], already classified, and returns it;
    [ExecTx] maps what the body returns, and the caller gets a [DBError]
    around that [DBError]. *)
Example ExecTx_wraps_not_found_twice :
  snd (lookupBody (newTx emptyDB 7%nat)
         (fst (beginTx emptyDB Background None demoWorld)))
  = Returned (Some notFoundError)
  /\ snd (DB_ExecTx demoNow emptyDB Background lookupBody [] demoWorld)
     = Returned (Some (DBError (Some ErrNotFound) (Some notFoundError)
                         EmptyString))
  /\ IsNotFound (Some (DBError (Some ErrNotFound) (Some notFoundError)
                         EmptyString)) = true.
Proof. repeat split; vm_compute; reflexivity. Qed.

(** On [noCommitDB] the body succeeds and the commit fails. *)
Lemma ExecTxOpts_commit_failure_witness :
  applyDefaultTimeout demoNow noCommitDB Background demoWorld
  = (demoWorld, Returned Background)
  /\ beginTx noCommitDB Background (sqlOptsOf []) demoWorld
     = (noCommitBegun, Returned (7%nat, None))
  /\ insertBody (newTx noCommitDB 7%nat) noCommitBegun
     = (noCommitBodyDone, Returned None)
  /\ Commit (DB_sqldb noCommitDB) 7%nat (ext noCommitBodyDone)
     = (finish (ext noCommitBodyDone), Some badConnection)
  /\ DB_errMap noCommitDB (Some badConnection) = Some badConnection
  /\ exists x4 rbErr result,
       DB_ExecTxOpts demoNow noCommitDB Background insertBody [] demoWorld
       = ({| ext := x4;
             trace := trace noCommitBodyDone
                      ++ [EvCommit 7%nat (Some badConnection);
                          EvRollback 7%nat rbErr] |},
          Returned (Some result))
       /\ errors_Is (Some result) (Some badConnection) = true.
Proof.
  assert (H1 : applyDefaultTimeout demoNow noCommitDB Background demoWorld
               = (demoWorld, Returned Background)) by reflexivity.
  assert (H2 : beginTx noCommitDB Background (sqlOptsOf []) demoWorld
               = (noCommitBegun, Returned (7%nat, None))) by reflexivity.
  assert (H3 : insertBody (newTx noCommitDB 7%nat) noCommitBegun
               = (noCommitBodyDone, Returned None))
    by (vm_compute; reflexivity).
  assert (H4 : Commit (DB_sqldb noCommitDB) 7%nat (ext noCommitBodyDone)
               = (finish (ext noCommitBodyDone), Some badConnection))
    by (vm_compute; reflexivity).
  assert (H5 : DB_errMap noCommitDB (Some badConnection) = Some badConnection)
    by (vm_compute; reflexivity).
  repeat (split; [assumption|]).
  destruct (@ExecTxOpts_commit_failure demoState demoNow noCommitDB
              Background insertBody [] demoWorld Background noCommitBegun 7%nat
              noCommitBodyDone (finish (ext noCommitBodyDone)) badConnection
              badConnection H1 H2 H3 H4 H5)
    as (x4 & rbErr & result & _ & Hrun & _ & His & _).
  exists x4, rbErr, result. auto.
Defined.

(** C4 as stated fails when the rollback after the failed commit fails too,
    which is what [database/sql] answers once [Commit] was called.  The
    caller does not get the classified commit error but an error around it. *)
Lemma ExecTx_commit_failure_is_wrapped :
  trace (fst (DB_ExecTx demoNow noCommitDB Background insertBody [] demoWorld))
  = (trace noCommitBodyDone
     ++ [EvCommit 7%nat (Some badConnection);
         EvRollback 7%nat (Some sql_ErrTxDone)])%list
  /\ DB_mapErr noCommitDB (Some badConnection) = Some badConnection
  /\ snd (DB_ExecTx demoNow noCommitDB Background insertBody [] demoWorld)
     = Returned (Some (rollbackFailed (Some sql_ErrTxDone) (Some badConnection)))
  /\ rollbackFailed (Some sql_ErrTxDone) (Some badConnection) <> badConnection.
Proof.
  split; [vm_compute; reflexivity|]. split; [vm_compute; reflexivity|].
  split; [vm_compute; reflexivity|]. discriminate.
Qed.

(** ** Retries *)

(** Three attempts, all failing with a deadlock, no cancellation. *)
Lemma WithRetry_bounded_witness :
  MaxAttempts threeAttempts = Z.of_nat 3
  /\ (1 <= 3)%nat
  /\ retryOnOf threeAttempts (Some ErrDeadlock) = true
  /\ exists w' log e,
       WithRetry (loggedSelect neverDone) Background threeAttempts
         (loggedFn alwaysDeadlock) (0%nat, [])
       = ((w', log),
          Returned (Some (allAttemptsFailed (MaxAttempts threeAttempts) (Some e))))
       /\ attempts log = 3%nat.
Proof.
  split; [reflexivity|]. split; [lia|]. split; [reflexivity|].
  destruct (@WithRetry_bounded nat neverDone Background threeAttempts
              alwaysDeadlock) as [Hall _].
  destruct (Hall 3%nat 0%nat eq_refl (le_S _ _ (le_S _ _ (le_n 1))))
    as (w' & log & e & w0 & Hrun & Hcount & _).
  - intros w0. exists (S w0), ErrDeadlock. split; reflexivity.
  - intros w0. reflexivity.
  - exists w', log, e. auto.
Defined.

(** C5 as stated fails when the context is cancelled.  The operation always
    fails with a deadlock, which the default predicate retries on, and
    [MaxAttempts] is 3; the caller's context, made by [context.WithCancel],
    is done at the first wait.  The operation is called once and the error
    returned is the error of the context, not the composite error. *)
Lemma WithRetry_cancelled_stops_early :
  retryOnOf threeAttempts (Some ErrDeadlock) = true
  /\ WithRetry (loggedSelect cancelCalled) (withCancel Background)
       threeAttempts (loggedFn alwaysDeadlock) (0%nat, [])
     = ((1%nat, [Attempt (Returned (Some ErrDeadlock));
                 Wait (withCancel Background) 1000000
                   (Some context_Canceled)]),
        Returned (Some context_Canceled))
  /\ attempts [Attempt (Returned (Some ErrDeadlock));
               Wait (withCancel Background) 1000000 (Some context_Canceled)]
     = 1%nat
  /\ 1%nat <> 3%nat
  /\ context_Canceled <> allAttemptsFailed 3 (Some ErrDeadlock).
Proof.
  split; [reflexivity|]. split; [reflexivity|]. split; [reflexivity|].
  split; discriminate.
Qed.

(** A run that the caller's context, cancelled, cuts short at its first
    wait; on a context that is not done the same run goes through its three
    attempts. *)
Lemma WithRetry_waits_between_attempts_witness :
  WithRetry (loggedSelect cancelCalled) (withCancel Background) threeAttempts
    (loggedFn alwaysDeadlock) (0%nat, [])
  = ((1%nat, [Attempt (Returned (Some ErrDeadlock));
              Wait (withCancel Background) 1000000 (Some context_Canceled)]),
     Returned (Some context_Canceled))
  /\ retryLog (withCancel Background) (Delay threeAttempts)
       [Attempt (Returned (Some ErrDeadlock));
        Wait (withCancel Background) 1000000 (Some context_Canceled)]
  /\ WithRetry cancelCalled (withCancel Background) threeAttempts
       alwaysDeadlock 0%nat
     = (1%nat, Returned (Some context_Canceled))
  /\ attempts (snd (fst (WithRetry (loggedSelect cancelCalled) Background
                           threeAttempts (loggedFn alwaysDeadlock)
                           (0%nat, []))))
     = 3%nat.
Proof.
  assert (H : WithRetry (loggedSelect cancelCalled) (withCancel Background)
                threeAttempts (loggedFn alwaysDeadlock) (0%nat, [])
              = ((1%nat, [Attempt (Returned (Some ErrDeadlock));
                          Wait (withCancel Background) 1000000
                            (Some context_Canceled)]),
                 Returned (Some context_Canceled))) by reflexivity.
  split; [exact H|].
  destruct (@WithRetry_waits_between_attempts nat cancelCalled
              (withCancel Background) threeAttempts alwaysDeadlock _ _ _ _ H)
    as (Hshape & _ & _ & _ & Hplain).
  split; [exact Hshape|]. split; [exact Hplain | reflexivity].
Defined.

(** Two failures, then a success: three calls, two waits, nil. *)
Example WithRetry_third_time_lucky :
  WithRetry (loggedSelect neverDone) Background threeAttempts
    (loggedFn thirdTimeLucky) (0%nat, [])
  = ((3%nat, [Attempt (Returned (Some ErrDeadlock)); Wait Background 1000000 None;
              Attempt (Returned (Some ErrDeadlock)); Wait Background 1000000 None;
              Attempt (Returned None)]),
     Returned None).
Proof. reflexivity. Qed.

(** [MaxAttempts = 0]: no call, and the composite error around nil. *)
Lemma WithRetry_without_attempts_witness :
  MaxAttempts zeroAttempts <= 0
  /\ WithRetry (loggedSelect neverDone) Background zeroAttempts
       (loggedFn alwaysDeadlock) (0%nat, [])
     = ((0%nat, []),
        Returned (Some (wrapError
           "sqltoolkit/db: all 0 attempts failed, last error: %!w(<nil>)" None))).
Proof.
  assert (H : MaxAttempts zeroAttempts <= 0) by (simpl; lia).
  split; [exact H|].
  exact (proj1 (@WithRetry_without_attempts nat neverDone Background zeroAttempts
                  alwaysDeadlock 0%nat H)).
Defined.

(* ------------------------------------------------------------------------- *)
(** * More on the error layer *)
(* ------------------------------------------------------------------------- *)

Lemma HasPrefix_refl (s : string) : strings.HasPrefix s s = true.
Proof.
  unfold strings.HasPrefix. induction s as [|a s IH]; simpl; [reflexivity|].
  destruct (ascii_dec a a) as [_|N]; [exact IH | now elim N].
Qed.

Lemma Contains_refl (s : string) : strings.Contains s s = true.
Proof.
  unfold strings.Contains.
  destruct s; cbn [strings.Index]; rewrite HasPrefix_refl; reflexivity.
Qed.

Ltac classifier_sentinels :=
  repeat match goal with
         | |- context [if ?b then _ else _] =>
             destruct b;
             [right; eexists; split; [|reflexivity]; simpl; tauto|]
         end;
  left; reflexivity.

Lemma mapByPGCode_sentinel (code : string) (cause : error) :
  mapByPGCode code cause = None
  \/ exists s, In s sentinels /\ mapByPGCode code cause = newDBError s cause.
Proof. unfold mapByPGCode. classifier_sentinels. Qed.

Lemma mapPQError_sentinel (e : error) :
  mapPQError e = None
  \/ exists s, In s sentinels /\ mapPQError e = newDBError s e.
Proof. unfold mapPQError. destruct (as_cap _ e); apply mapByPGCode_sentinel. Qed.

Lemma mapPGXError_sentinel (e : error) :
  mapPGXError e = None
  \/ exists s, In s sentinels /\ mapPGXError e = newDBError s e.
Proof.
  unfold mapPGXError. destruct (as_cap _ e); [apply mapByPGCode_sentinel | now left].
Qed.

Lemma mapMySQLError_sentinel (e : error) :
  mapMySQLError e = None
  \/ exists s, In s sentinels /\ mapMySQLError e = newDBError s e.
Proof.
  unfold mapMySQLError. destruct (as_cap _ e); [classifier_sentinels | now left].
Qed.

Lemma mapSQLiteError_sentinel (e : error) :
  mapSQLiteError e = None
  \/ exists s, In s sentinels /\ mapSQLiteError e = newDBError s e.
Proof. unfold mapSQLiteError. classifier_sentinels. Qed.

(** What [defaultMap] returns: the error itself, or a [*DBError] that holds
    one of the package's sentinels and the error as its cause. *)
Lemma defaultMap_sentinel (e : error) :
  defaultMap (Some e) = Some e
  \/ exists s, In s sentinels /\ defaultMap (Some e) = newDBError s e.
Proof.
  unfold defaultMap.
  destruct (errors_Is _ _);
    [right; eexists; split; [|reflexivity]; simpl; tauto|].
  destruct (_ || _);
    [right; eexists; split; [|reflexivity]; simpl; tauto|].
  destruct (as_DBError e); [left; reflexivity|].
  destruct (mapPQError_sentinel e) as [-> | (s & Hs & ->)];
    [|right; eexists; split; [exact Hs|reflexivity]].
  destruct (mapPGXError_sentinel e) as [-> | (s & Hs & ->)];
    [|right; eexists; split; [exact Hs|reflexivity]].
  destruct (mapMySQLError_sentinel e) as [-> | (s & Hs & ->)];
    [|right; eexists; split; [exact Hs|reflexivity]].
  destruct (mapSQLiteError_sentinel e) as [-> | (s & Hs & ->)];
    [|right; eexists; split; [exact Hs|reflexivity]].
  left; reflexivity.
Qed.

(** A sentinel is an [errors.New] value: [errors.Is] on it is [==]. *)
Lemma sentinel_is_chain (s t : error) :
  In s sentinels -> is_chain s t = true -> s = t.
Proof.
  intros Hs H.
  assert (N : exists a m, s = errorString a m).
  { simpl in Hs.
    repeat (destruct Hs as [<- | Hs]; [eexists _, _; reflexivity|]).
    contradiction. }
  destruct N as (a & m & ->). cbn [is_chain] in H. rewrite orb_false_r in H.
  apply error_eqb_eq in H. exact H.
Qed.

Lemma newDBError_is_sentinel (s e : error) :
  errors_Is (newDBError s e) (Some s) = true.
Proof.
  unfold newDBError, errors_Is. cbn [is_chain]. rewrite is_chain_refl.
  rewrite orb_true_r. reflexivity.
Qed.

Lemma newDBError_is_cause (s e : error) :
  errors_Is (newDBError s e) (Some e) = true.
Proof.
  unfold newDBError, errors_Is. cbn [is_chain]. rewrite (is_chain_refl e).
  rewrite !orb_true_r. reflexivity.
Qed.

(** The default mapper returns nil for nil and for nothing else: it
    swallows no error and makes none up. *)
Theorem defaultMap_nil_iff (err : option error) :
  defaultMap err = None <-> err = None.
Proof.
  split.
  - destruct err as [e|]; [|reflexivity].
    intros H. now apply defaultMap_non_nil in H.
  - intros ->. reflexivity.
Qed.

(** X1.  The default mapper never loses the error it is given.  What it
    returns for a non-nil [e] is [e] itself or a [*DBError] whose [Sentinel]
    is one of the seven package sentinels, whose [Cause] is [e] and whose
    [Message] is empty; either way [errors.Is] finds [e] in the result and
    the text of the result holds the text of [e]. *)
Theorem defaultMap_keeps_cause (e : error) :
  exists r,
    defaultMap (Some e) = Some r
    /\ (r = e
        \/ exists s, In s sentinels
                     /\ r = DBError (Some s) (Some e) EmptyString
                     /\ Unwrap r = Some e)
    /\ errors_Is (Some r) (Some e) = true
    /\ strings.Contains (Error r) (Error e) = true.
Proof.
  destruct (defaultMap_sentinel e) as [H | (s & Hs & H)]; rewrite H.
  - exists e. split; [reflexivity|]. split; [left; reflexivity|].
    split; [apply is_chain_refl | apply Contains_refl].
  - eexists. split; [reflexivity|].
    split; [right; exists s; repeat split; exact Hs|].
    split; [apply (newDBError_is_cause s e)|].
    cbn [Error]. change (String.eqb EmptyString EmptyString) with true.
    cbv iota. rewrite <- append_assoc. apply Contains_app.
Qed.

(** X2.  An error with [sql.ErrNoRows] anywhere on its chain is classified
    as not found, before every other test: [IsNotFound] holds of the result,
    and [sql.ErrNoRows] is still found in it. *)
Theorem defaultMap_no_rows_is_not_found (e : error) :
  errors_Is (Some e) (Some sql_ErrNoRows) = true ->
  defaultMap (Some e) = newDBError ErrNotFound e
  /\ IsNotFound (defaultMap (Some e)) = true
  /\ errors_Is (defaultMap (Some e)) (Some sql_ErrNoRows) = true.
Proof.
  intros H.
  assert (E : defaultMap (Some e) = newDBError ErrNotFound e)
    by (unfold defaultMap; rewrite H; reflexivity).
  rewrite E. split; [reflexivity|]. split.
  - apply newDBError_is_sentinel.
  - unfold newDBError, errors_Is in *. cbn [is_chain]. rewrite H.
    rewrite !orb_true_r. reflexivity.
Qed.

(** X3.  An error with [context.DeadlineExceeded] or [context.Canceled] on
    its chain, and without [sql.ErrNoRows], is classified as a timeout: a
    cancelled context is reported as [ErrTimeout] too. *)
Theorem defaultMap_context_error_is_timeout (e : error) :
  errors_Is (Some e) (Some sql_ErrNoRows) = false ->
  errors_Is (Some e) (Some context_DeadlineExceeded) = true
  \/ errors_Is (Some e) (Some context_Canceled) = true ->
  defaultMap (Some e) = newDBError ErrTimeout e
  /\ IsTimeout (defaultMap (Some e)) = true.
Proof.
  intros Hn Hc.
  assert (Hor : errors_Is (Some e) (Some context_deadline_exceeded)
                || errors_Is (Some e) (Some context_canceled) = true).
  { apply orb_true_iff. exact Hc. }
  assert (E : defaultMap (Some e) = newDBError ErrTimeout e)
    by (unfold defaultMap; rewrite Hn, Hor; reflexivity).
  rewrite E. split; [reflexivity|]. apply newDBError_is_sentinel.
Qed.

(** ** The classifiers as tables *)

Lemma mapByPGCode_table (code : string) (s cause : error) :
  In (code, s) pgCodes -> mapByPGCode code cause = newDBError s cause.
Proof.
  intros H. simpl in H.
  repeat (destruct H as [H|H]; [inversion H; subst; reflexivity|]).
  contradiction.
Qed.

Lemma mapByPGCode_empty (cause : error) : mapByPGCode EmptyString cause = None.
Proof. reflexivity. Qed.

(** Past its first three tests [defaultMap] is the four classifiers in
    turn, and the error itself when none of them knows it. *)
Lemma defaultMap_classifiers (e : error) :
  reachesClassifiers e = true ->
  defaultMap (Some e)
  = match mapPQError e with
    | Some mapped => Some mapped
    | None =>
        match mapPGXError e with
        | Some mapped => Some mapped
        | None =>
            match mapMySQLError e with
            | Some mapped => Some mapped
            | None =>
                match mapSQLiteError e with
                | Some mapped => Some mapped
                | None => Some e
                end
            end
        end
    end.
Proof.
  unfold reachesClassifiers. rewrite !andb_true_iff, !negb_true_iff.
  intros [[[H1 H2] H3] H4]. unfold defaultMap. rewrite H1, H2, H3.
  cbn [orb]. destruct (as_DBError e); [discriminate | reflexivity].
Qed.

(** X4.  The SQLSTATE table.  An error that reaches the classifiers and
    reports one of the twelve codes of [mapByPGCode], by its [GetCode] method,
    by the text [(SQLSTATE code)] when it has no such method, or by its
    [SQLState] method when neither gives a code, is classified under the
    sentinel the table gives for the code. *)
Theorem defaultMap_by_sqlstate (e : error) (code : string) (s : error) :
  reachesClassifiers e = true ->
  In (code, s) pgCodes ->
  as_cap capGetCode e = Some code
  \/ (as_cap capGetCode e = None /\ pqCodeFromString (Error e) = code)
  \/ (as_cap capGetCode e = None /\ pqCodeFromString (Error e) = EmptyString
      /\ as_cap capSQLState e = Some code) ->
  defaultMap (Some e) = newDBError s e
  /\ errors_Is (defaultMap (Some e)) (Some s) = true.
Proof.
  intros Hr Hin Hroute.
  assert (E : defaultMap (Some e) = newDBError s e).
  { rewrite (defaultMap_classifiers e Hr).
    destruct Hroute as [Hc | [[Hc Ht] | (Hc & Ht & Hs)]].
    - unfold mapPQError. rewrite Hc, (mapByPGCode_table e Hin). reflexivity.
    - unfold mapPQError. rewrite Hc, Ht, (mapByPGCode_table e Hin). reflexivity.
    - unfold mapPQError. rewrite Hc, Ht, mapByPGCode_empty.
      unfold mapPGXError. rewrite Hs, (mapByPGCode_table e Hin). reflexivity. }
  rewrite E. split; [reflexivity | apply newDBError_is_sentinel].
Qed.

Lemma mapMySQLError_table (e : error) (n : Z) (s : error) :
  as_cap capNumber e = Some n -> In (n, s) mysqlNumbers ->
  mapMySQLError e = newDBError s e.
Proof.
  intros Hn H. unfold mapMySQLError. rewrite Hn. simpl in H.
  repeat (destruct H as [H|H]; [inversion H; subst; reflexivity|]).
  contradiction.
Qed.

(** X5.  The MySQL table.  An error that reaches the classifiers, carries no
    SQLSTATE for the two PostgreSQL classifiers and reports one of the
    eleven numbers of [mapMySQLError] by its [Number] method is classified
    under the sentinel the table gives for the number. *)
Theorem defaultMap_by_mysql_number (e : error) (n : Z) (s : error) :
  reachesClassifiers e = true ->
  as_cap capGetCode e = None ->
  pqCodeFromString (Error e) = EmptyString ->
  as_cap capSQLState e = None ->
  as_cap capNumber e = Some n ->
  In (n, s) mysqlNumbers ->
  defaultMap (Some e) = newDBError s e
  /\ errors_Is (defaultMap (Some e)) (Some s) = true.
Proof.
  intros Hr Hc Ht Hs Hn Hin.
  assert (E : defaultMap (Some e) = newDBError s e).
  { rewrite (defaultMap_classifiers e Hr).
    unfold mapPQError. rewrite Hc, Ht, mapByPGCode_empty.
    unfold mapPGXError. rewrite Hs.
    rewrite (mapMySQLError_table e Hn Hin). reflexivity. }
  rewrite E. split; [reflexivity | apply newDBError_is_sentinel].
Qed.

(** X6.  The SQLite texts, and what nobody knows.  An error that reaches the
    classifiers, has none of the driver methods and no SQLSTATE in its text is
    classified by the first of the four SQLite texts that its own text
    holds; when it holds none of them it is returned as it is, unclassified. *)
Theorem defaultMap_by_sqlite_text (e : error) :
  reachesClassifiers e = true ->
  noDriverMethods e ->
  pqCodeFromString (Error e) = EmptyString ->
  defaultMap (Some e)
  = match find (fun p => strings.Contains (Error e) (fst p)) sqliteTexts with
    | Some (_, s) => newDBError s e
    | None => Some e
    end.
Proof.
  intros Hr (Hc & Hs & Hn) Ht.
  rewrite (defaultMap_classifiers e Hr).
  unfold mapPQError. rewrite Hc, Ht, mapByPGCode_empty.
  unfold mapPGXError. rewrite Hs.
  unfold mapMySQLError. rewrite Hn.
  unfold mapSQLiteError, sqliteTexts. cbn [find fst].
  repeat match goal with
         | |- context [if ?b then _ else _] => destruct b; [reflexivity|]
         end.
  reflexivity.
Qed.

(** X7.  Classification is unambiguous.  When the error given to the default
    mapper holds none of the package sentinels itself, the result matches at
    most one of them under [errors.Is]: no two of the [Is...] helpers hold of
    it together. *)
Theorem classification_unambiguous (e r t t' : error) :
  (forall u, In u sentinels -> errors_Is (Some e) (Some u) = false) ->
  defaultMap (Some e) = Some r ->
  In t sentinels -> In t' sentinels ->
  errors_Is (Some r) (Some t) = true ->
  errors_Is (Some r) (Some t') = true ->
  t = t'.
Proof.
  intros Hfree Hmap Ht Ht' H H'.
  destruct (defaultMap_sentinel e) as [E | (s & Hs & E)]; rewrite E in Hmap;
    inversion Hmap; subst r; clear Hmap.
  - rewrite (Hfree t Ht) in H. discriminate.
  - assert (Hone : forall u, In u sentinels ->
              errors_Is (Some (DBError (Some s) (Some e) EmptyString)) (Some u)
              = true -> s = u).
    { intros u Hu Hi. unfold errors_Is in Hi. cbn [is_chain] in Hi.
      pose proof (Hfree u Hu) as Hf. unfold errors_Is in Hf. rewrite Hf in Hi.
      rewrite orb_false_r in Hi.
      assert (N : exists a m, u = errorString a m).
      { simpl in Hu.
        repeat (destruct Hu as [<- | Hu]; [eexists _, _; reflexivity|]).
        contradiction. }
      destruct N as (a & m & ->). cbn [error_eqb] in Hi. cbn [orb] in Hi.
      apply (@sentinel_is_chain s _ Hs Hi). }
    rewrite <- (Hone t Ht H), <- (Hone t' Ht' H'). reflexivity.
Qed.

(** ** ChainMapper *)

Lemma error_neq_false (a b : option error) : error_neq a b = false <-> a = b.
Proof.
  destruct a as [x|], b as [y|]; simpl; try (split; congruence).
  rewrite negb_false_iff, error_eqb_eq. split; congruence.
Qed.

Lemma error_neq_true (a b : option error) : error_neq a b = true <-> a <> b.
Proof.
  destruct (error_neq a b) eqn:E.
  - split; [intros _ H|reflexivity]. apply error_neq_false in H. congruence.
  - apply error_neq_false in E. split; [discriminate | contradiction].
Qed.

(** X8.  The first mapper that changes the error wins.  For an error that
    carries its identity, such as [sql.ErrNoRows] or another [errors.New]
    value: when the mappers before [m] return the error they were given and
    [m] returns something else, the chain returns what [m] returns, nil
    included, and the mappers after [m] are not consulted. *)
Theorem ChainMapper_first_change_wins (pre post : list ErrorMapper)
    (m : ErrorMapper) (e : error) :
  carriesIdentity e = true ->
  (forall m', In m' pre -> m' (Some e) = Some e) ->
  m (Some e) <> Some e ->
  ChainMapper (pre ++ m :: post) (Some e) = m (Some e).
Proof.
  intros _ Hpre Hm. unfold ChainMapper.
  induction pre as [|m0 pre IH]; cbn [app ChainMapper_range].
  - apply error_neq_true in Hm. rewrite Hm. reflexivity.
  - rewrite (Hpre m0 (or_introl eq_refl)).
    replace (error_neq (Some e) (Some e)) with false
      by (symmetry; apply error_neq_false; reflexivity).
    apply IH. intros m' Hin. apply Hpre. right. exact Hin.
Qed.

(** A chain whose mappers all leave the error as it is returns the
    error as it is: nothing falls back to the default mapper unless it is in
    the list, and the empty chain is the identity.  Nil goes to nil. *)
Theorem ChainMapper_passes_through (mappers : list ErrorMapper) :
  ChainMapper mappers None = None
  /\ (forall e, (forall m, In m mappers -> m (Some e) = Some e) ->
                ChainMapper mappers (Some e) = Some e)
  /\ (forall err, ChainMapper [] err = err).
Proof.
  split; [reflexivity|]. split.
  - intros e H. unfold ChainMapper.
    induction mappers as [|m ms IH]; cbn [ChainMapper_range]; [reflexivity|].
    rewrite (H m (or_introl eq_refl)).
    replace (error_neq (Some e) (Some e)) with false
      by (symmetry; apply error_neq_false; reflexivity).
    apply IH. intros m' Hin. apply H. right. exact Hin.
  - intros [e|]; reflexivity.
Qed.

(** ** The SQLSTATE in the text of an error *)

Lemma HasPrefix_char (c a : ascii) (s : string) :
  strings.HasPrefix (String a s) (String c EmptyString)
  = if ascii_dec c a then true else false.
Proof.
  unfold strings.HasPrefix. cbn [String.prefix].
  destruct (ascii_dec c a); [destruct s|]; reflexivity.
Qed.

Lemma Index_lower (s sub : string) : -1 <= strings.Index s sub.
Proof.
  induction s as [|a s IH]; cbn [strings.Index].
  - destruct (strings.HasPrefix _ _); lia.
  - destruct (strings.HasPrefix _ _); [lia|].
    destruct (strings.Index s sub <? 0) eqn:E; [lia|].
    apply Z.ltb_ge in E. lia.
Qed.

(** A text without the byte [c]. *)
Lemma Contains_char_cons (c a : ascii) (s : string) :
  strings.Contains (String a s) (String c EmptyString) = false ->
  a <> c /\ strings.Contains s (String c EmptyString) = false.
Proof.
  unfold strings.Contains. cbn [strings.Index]. rewrite HasPrefix_char.
  destruct (ascii_dec c a) as [->|N]; [discriminate|].
  destruct (strings.Index s (String c EmptyString) <? 0) eqn:E.
  - intros _. split; [congruence|]. apply Z.ltb_lt in E. apply Z.leb_gt. exact E.
  - apply Z.ltb_ge in E. intros H. apply Z.leb_gt in H. lia.
Qed.

Lemma Contains_char_app (c : ascii) (a b : string) :
  strings.Contains a (String c EmptyString) = false ->
  strings.Contains b (String c EmptyString) = false ->
  strings.Contains (a ++ b) (String c EmptyString) = false.
Proof.
  intros Ha Hb. induction a as [|x a IH]; [exact Hb|].
  destruct (@Contains_char_cons c x a Ha) as [Hx Ha'].
  specialize (IH Ha'). cbn [append].
  unfold strings.Contains in *. cbn [strings.Index]. rewrite HasPrefix_char.
  destruct (ascii_dec c x) as [->|_]; [now elim Hx|].
  apply Z.leb_gt in IH.
  destruct (strings.Index (a ++ b) (String c EmptyString) <? 0) eqn:E;
    [reflexivity|]. apply Z.ltb_ge in E. lia.
Qed.

Lemma LastIndex_absent (c : ascii) (sub s : string) :
  strings.Contains s (String c EmptyString) = false ->
  strings.LastIndex s (String c sub) = -1.
Proof.
  induction s as [|a s IH]; intros H; cbn [strings.LastIndex].
  - reflexivity.
  - destruct (@Contains_char_cons c a s H) as [Ha Hs]. rewrite (IH Hs).
    cbn [Z.leb Z.compare]. unfold strings.HasPrefix. cbn [String.prefix].
    destruct (ascii_dec c a) as [->|_]; [now elim Ha | reflexivity].
Qed.

Lemma LastIndex_cons (a : ascii) (s sub : string) :
  strings.LastIndex (String a s) sub
  = let r := strings.LastIndex s sub in
    if 0 <=? r then r + 1
    else if strings.HasPrefix (String a s) sub then 0 else -1.
Proof. reflexivity. Qed.

Lemma LastIndex_app (pre s sub : string) :
  0 <= strings.LastIndex s sub ->
  strings.LastIndex (pre ++ s) sub = strings.len pre + strings.LastIndex s sub.
Proof.
  intros H. unfold strings.len.
  induction pre as [|a pre IH]; cbn [append]; [simpl; lia|].
  cbn [strings.LastIndex]. rewrite IH.
  destruct (0 <=? Z.of_nat (String.length pre) + strings.LastIndex s sub) eqn:E.
  - cbn [String.length]. lia.
  - apply Z.leb_gt in E. lia.
Qed.

Lemma Index_app_char (c : ascii) (a s : string) :
  strings.Contains a (String c EmptyString) = false ->
  strings.Index (a ++ String c s) (String c EmptyString) = strings.len a.
Proof.
  unfold strings.len. induction a as [|x a IH]; intros H; cbn [append].
  - cbn [strings.Index]. rewrite HasPrefix_char.
    destruct (ascii_dec c c) as [_|N]; [reflexivity | now elim N].
  - destruct (@Contains_char_cons c x a H) as [Hx Ha]. specialize (IH Ha).
    cbn [strings.Index]. rewrite HasPrefix_char.
    destruct (ascii_dec c x) as [->|_]; [now elim Hx|].
    rewrite IH.
    destruct (Z.of_nat (String.length a) <? 0) eqn:E.
    + apply Z.ltb_lt in E. lia.
    + cbn [String.length]. lia.
Qed.

Lemma substring_skip (a b : string) (n : nat) :
  String.substring (String.length a) n (a ++ b) = String.substring 0 n b.
Proof. induction a as [|x a IH]; [reflexivity | exact IH]. Qed.

Lemma substring_prefix (a b : string) :
  String.substring 0 (String.length a) (a ++ b) = a.
Proof.
  induction a as [|x a IH]; cbn [append String.length String.substring].
  - destruct b; reflexivity.
  - rewrite IH. reflexivity.
Qed.

Lemma length_append (a b : string) :
  String.length (a ++ b) = (String.length a + String.length b)%nat.
Proof. induction a as [|x a IH]; simpl; congruence. Qed.

Lemma from_app (a b : string) : strings.from (a ++ b) (strings.len a) = b.
Proof.
  unfold strings.from, strings.len. rewrite Nat2Z.id, length_append.
  replace (String.length a + String.length b - String.length a)%nat
    with (String.length b) by lia.
  rewrite substring_skip. rewrite <- (append_nil_r b) at 2.
  rewrite substring_prefix. reflexivity.
Qed.

Lemma upto_app (a b : string) : strings.upto (a ++ b) (strings.len a) = a.
Proof.
  unfold strings.upto, strings.len. rewrite Nat2Z.id. apply substring_prefix.
Qed.

Lemma len_append (a b : string) :
  strings.len (a ++ b) = strings.len a + strings.len b.
Proof. unfold strings.len. rewrite length_append. lia. Qed.

(** X9.  The code is read back from a text written as lib/pq and pgx write
    it.  For a text that ends in [(SQLSTATE code)] followed by anything
    without an opening parenthesis, with a code free of parentheses,
    [pqCodeFromString] returns the code, whatever comes before. *)
Theorem pqCodeFromString_reads_code (pre code post : string) :
  strings.Contains code "(" = false ->
  strings.Contains code ")" = false ->
  strings.Contains post "(" = false ->
  pqCodeFromString (pre ++ "(SQLSTATE " ++ code ++ ")" ++ post) = code.
Proof.
  intros Hopen Hclose Hpost.
  set (tail := code ++ ")" ++ post).
  assert (Htail : strings.Contains tail "(" = false).
  { apply Contains_char_app; [exact Hopen|].
    apply (@Contains_char_app "("%char ")" post); [reflexivity | exact Hpost]. }
  assert (Hlast : strings.LastIndex ("(SQLSTATE " ++ tail) "(SQLSTATE " = 0).
  { change ("(SQLSTATE " ++ tail) with (String "(" ("SQLSTATE " ++ tail)).
    rewrite LastIndex_cons. cbv zeta.
    rewrite (@LastIndex_absent "("%char "SQLSTATE " ("SQLSTATE " ++ tail)).
    - cbn [Z.leb Z.compare].
      change (String "(" ("SQLSTATE " ++ tail)) with ("(SQLSTATE " ++ tail).
      rewrite HasPrefix_app. reflexivity.
    - apply (@Contains_char_app "("%char "SQLSTATE " tail);
        [reflexivity | exact Htail]. }
  assert (Hidx : strings.LastIndex (pre ++ "(SQLSTATE " ++ tail) "(SQLSTATE "
                 = strings.len pre).
  { rewrite LastIndex_app; rewrite Hlast; lia. }
  unfold pqCodeFromString. cbv zeta. fold tail. rewrite Hidx.
  assert (Hnn : (strings.len pre <? 0) = false)
    by (apply Z.ltb_ge; unfold strings.len; lia).
  rewrite Hnn.
  replace (strings.from (pre ++ "(SQLSTATE " ++ tail)
             (strings.len pre + strings.len "(SQLSTATE "))
    with tail.
  2:{ rewrite <- len_append, <- append_assoc, from_app. reflexivity. }
  assert (Hend : strings.Index tail ")" = strings.len code).
  { unfold tail. change (")" ++ post) with (String ")" post).
    apply Index_app_char. exact Hclose. }
  assert (Hnn' : (strings.len code <? 0) = false)
    by (apply Z.ltb_ge; unfold strings.len; lia).
  rewrite Hend, Hnn'. unfold tail. apply upto_app.
Qed.

(* ------------------------------------------------------------------------- *)
(** * More on transactions *)
(* ------------------------------------------------------------------------- *)

Section MoreTransactions.

Variable Ext : Type.
Variable now : Ext -> Time.

(** X10.  Rollback on panic.  When the body panics, [ExecTxOpts] calls
    [Rollback] next and nothing else (no [Commit]), drops what the rollback
    returns, and goes on panicking with the value the body panicked with. *)
Theorem ExecTxOpts_rolls_back_on_panic (d : DB Ext) ctx fn opts (w : world Ext)
    ctx' w1 sqltx w2 p :
  applyDefaultTimeout now d ctx w = (w, Returned ctx') ->
  beginTx d ctx' (sqlOptsOf opts) w = (w1, Returned (sqltx, None)) ->
  fn (newTx d sqltx) w1 = (w2, Panicked p) ->
  exists x3 rbErr,
    Rollback (DB_sqldb d) sqltx (ext w2) = (x3, rbErr)
    /\ DB_ExecTxOpts now d ctx fn opts w
       = ({| ext := x3; trace := trace w2 ++ [EvRollback sqltx rbErr] |},
          Panicked p)
    /\ DB_ExecTx now d ctx fn opts w = DB_ExecTxOpts now d ctx fn opts w.
Proof.
  intros Hctx Hbegin Hfn.
  destruct (Rollback (DB_sqldb d) sqltx (ext w2)) as [x3 rbErr] eqn:Hrb.
  exists x3, rbErr. split; [reflexivity|]. split; [|reflexivity].
  rewrite (@ExecTxOpts_begun Ext now d ctx fn opts w ctx' w1 sqltx Hctx Hbegin).
  unfold defer_, ExecTxOpts_body. erewrite bind_panicked by exact Hfn.
  unfold ExecTxOpts_deferred, bind, rollback, sqlcall, panic. rewrite Hrb.
  reflexivity.
Qed.

(** X11.  When [BeginTx] fails, [ExecTxOpts] returns its error as the mapper
    classifies it, in the state [BeginTx] left: the body is not run, and
    neither [Commit] nor [Rollback] is called. *)
Theorem ExecTxOpts_begin_failure (d : DB Ext) ctx fn opts (w : world Ext)
    ctx' x1 sqltx e :
  applyDefaultTimeout now d ctx w = (w, Returned ctx') ->
  BeginTx (DB_sqldb d) ctx' (sqlOptsOf opts) (ext w) = (x1, (sqltx, Some e)) ->
  DB_ExecTxOpts now d ctx fn opts w
  = ({| ext := x1;
        trace := trace w ++ [EvBeginTx ctx' (sqlOptsOf opts) sqltx (Some e)] |},
     Returned (DB_errMap d (Some e))).
Proof.
  intros Hctx Hbegin. unfold DB_ExecTxOpts.
  erewrite bind_returned by exact Hctx.
  unfold bind, beginTx, sqlcall. rewrite Hbegin. reflexivity.
Qed.

(** X12.  Commit on success.  When the body returns nil and [Commit] returns
    nil, [ExecTxOpts] returns nil, and [Commit] is the one call it makes after
    the body: no [Rollback]. *)
Theorem ExecTxOpts_commits_on_success (d : DB Ext) ctx fn opts (w : world Ext)
    ctx' w1 sqltx w2 x3 :
  applyDefaultTimeout now d ctx w = (w, Returned ctx') ->
  beginTx d ctx' (sqlOptsOf opts) w = (w1, Returned (sqltx, None)) ->
  fn (newTx d sqltx) w1 = (w2, Returned None) ->
  Commit (DB_sqldb d) sqltx (ext w2) = (x3, None) ->
  DB_ExecTxOpts now d ctx fn opts w
  = ({| ext := x3; trace := trace w2 ++ [EvCommit sqltx None] |},
     Returned None).
Proof.
  intros Hctx Hbegin Hfn Hcommit.
  rewrite (@ExecTxOpts_begun Ext now d ctx fn opts w ctx' w1 sqltx Hctx Hbegin).
  unfold defer_, ExecTxOpts_body. erewrite bind_returned by exact Hfn.
  unfold bind, commit, sqlcall. rewrite Hcommit. reflexivity.
Qed.

(** X13.  A mapper that turns the body's error into nil leaves the
    transaction open.  [ExecTxOpts] returns what the mapper makes of the body
    error; when that is nil the deferred function sees a nil result, so
    [ExecTxOpts] returns nil in the state the body left: neither [Commit] nor
    [Rollback] is called. *)
Theorem ExecTxOpts_swallowed_error_leaves_open (d : DB Ext) ctx fn opts
    (w : world Ext) ctx' w1 sqltx w2 e :
  applyDefaultTimeout now d ctx w = (w, Returned ctx') ->
  beginTx d ctx' (sqlOptsOf opts) w = (w1, Returned (sqltx, None)) ->
  fn (newTx d sqltx) w1 = (w2, Returned (Some e)) ->
  DB_errMap d (Some e) = None ->
  DB_ExecTxOpts now d ctx fn opts w = (w2, Returned None).
Proof.
  intros Hctx Hbegin Hfn Hmap.
  rewrite (@ExecTxOpts_begun Ext now d ctx fn opts w ctx' w1 sqltx Hctx Hbegin).
  unfold defer_, ExecTxOpts_body. erewrite bind_returned by exact Hfn.
  unfold DB_mapErr. rewrite Hmap. reflexivity.
Qed.

End MoreTransactions.

(* ------------------------------------------------------------------------- *)
(** * More on hooks *)
(* ------------------------------------------------------------------------- *)

(** Nil entries of [Config.Hooks] do not count.  A nil entry anywhere
    in the list gives the same chain as the list without it, and a list
    without nil entries is the chain, in its order. *)
Theorem newHookChain_skips_nil (Ext : Type) :
  (forall pre post : list (option (Hook Ext)),
     newHookChain (pre ++ None :: post) = newHookChain (pre ++ post))
  /\ (forall hooks : list (Hook Ext),
        chain_hooks (newHookChain (map Some hooks)) = hooks).
Proof.
  split.
  - intros pre post. unfold newHookChain. rewrite !flat_map_app. reflexivity.
  - intros hooks. unfold newHookChain. cbn [chain_hooks].
    induction hooks as [|h hooks IH]; [reflexivity|].
    cbn [map flat_map app]. rewrite IH. reflexivity.
Qed.

(** ** trimQuery *)

Lemma substring_all (s : string) (n : nat) :
  (String.length s <= n)%nat -> String.substring 0 n s = s.
Proof.
  revert n. induction s as [|a s IH]; intros n H.
  - destruct n; reflexivity.
  - destruct n as [|n]; [simpl in H; lia|].
    cbn [String.substring]. rewrite IH; [reflexivity | simpl in H; lia].
Qed.

Lemma substring_length (s : string) (n : nat) :
  String.length (String.substring 0 n s) = Nat.min n (String.length s).
Proof.
  revert n. induction s as [|a s IH]; intros n.
  - destruct n; reflexivity.
  - destruct n as [|n]; [reflexivity|].
    cbn [String.substring String.length]. rewrite IH. reflexivity.
Qed.

Lemma substring_is_prefix (s : string) (n : nat) :
  String.prefix (String.substring 0 n s) s = true.
Proof.
  revert n. induction s as [|a s IH]; intros n.
  - destruct n; reflexivity.
  - destruct n as [|n]; [reflexivity|].
    cbn [String.substring String.prefix].
    destruct (ascii_dec a a) as [_|N]; [apply IH | now elim N].
Qed.

Lemma len_upto_500 (q : string) :
  500 < strings.len q -> String.length (strings.upto q 500) = 500%nat.
Proof.
  unfold strings.len, strings.upto. intros H. rewrite substring_length. lia.
Qed.

Lemma trimQuery_long (q : string) :
  500 < strings.len q -> trimQuery q = strings.upto q 500 ++ ellipsis.
Proof.
  intros H. unfold trimQuery. apply Z.ltb_lt in H. rewrite H. reflexivity.
Qed.

Lemma trimQuery_short (q : string) : strings.len q <= 500 -> trimQuery q = q.
Proof.
  intros H. unfold trimQuery.
  destruct (500 <? strings.len q) eqn:E; [apply Z.ltb_lt in E; lia | reflexivity].
Qed.

(** X14.  [trimQuery] keeps a query of at most 500 bytes as it is; a longer
    one becomes its first 500 bytes and the ellipsis, 503 bytes in all.  So
    the result never has more than 503 bytes, and it always starts with the
    first 500 bytes of the query. *)
Theorem trimQuery_bounded (q : string) :
  strings.len (trimQuery q) <= 503
  /\ (strings.len q <= 500 -> trimQuery q = q)
  /\ (500 < strings.len q ->
      trimQuery q = strings.upto q 500 ++ ellipsis
      /\ strings.len (trimQuery q) = 503)
  /\ strings.HasPrefix (trimQuery q) (strings.upto q 500) = true.
Proof.
  assert (Hlong : 500 < strings.len q ->
                  trimQuery q = strings.upto q 500 ++ ellipsis
                  /\ strings.len (trimQuery q) = 503).
  { intros H. rewrite (@trimQuery_long q H). split; [reflexivity|].
    rewrite len_append. unfold strings.len at 1. rewrite (@len_upto_500 q H).
    reflexivity. }
  destruct (Z.lt_ge_cases 500 (strings.len q)) as [H|H].
  - destruct (Hlong H) as [E L]. split; [lia|]. split; [lia|].
    split; [exact Hlong|]. rewrite E. apply HasPrefix_app.
  - rewrite (@trimQuery_short q H). split; [lia|]. split; [reflexivity|].
    split; [lia|]. unfold strings.HasPrefix, strings.upto.
    apply substring_is_prefix.
Qed.

(** X15.  [trimQuery] is idempotent: trimming a trimmed query changes
    nothing, although a trimmed query can be 503 bytes long. *)
Theorem trimQuery_idempotent (q : string) :
  trimQuery (trimQuery q) = trimQuery q.
Proof.
  destruct (Z.lt_ge_cases 500 (strings.len q)) as [H|H].
  - rewrite (@trimQuery_long q H).
    assert (L : 500 < strings.len (strings.upto q 500 ++ ellipsis)).
    { rewrite len_append. unfold strings.len at 1. rewrite (@len_upto_500 q H).
      unfold strings.len, ellipsis. simpl. lia. }
    rewrite (@trimQuery_long _ L). f_equal.
    unfold strings.upto at 1. change (Z.to_nat 500) with 500%nat.
    rewrite <- (@len_upto_500 q H) at 1. apply substring_prefix.
  - rewrite !(@trimQuery_short q H). reflexivity.
Qed.

Section MoreHooks.

Variable Ext : Type.
Variable now : Ext -> Time.

(** With [LogArgs] off the bound parameters do not reach the logger:
    what the logging hook does is the same whatever the parameters are. *)
Theorem logHook_keeps_args_private (dflt : slogLogger Ext)
    (cfg : LogHookConfig Ext) ctx query (args args' : list any) d err :
  LogArgs cfg = false ->
  AfterQuery (NewLogHook dflt cfg) ctx query args d err
  = AfterQuery (NewLogHook dflt cfg) ctx query args' d err
  /\ BeforeQuery (NewLogHook dflt cfg) ctx query args
     = BeforeQuery (NewLogHook dflt cfg) ctx query args'.
Proof.
  intros H. split; [|reflexivity].
  cbn [NewLogHook AfterQuery]. unfold logHook_AfterQuery. rewrite H.
  reflexivity.
Qed.

End MoreHooks.

(* ------------------------------------------------------------------------- *)
(** * More on the executor operations *)
(* ------------------------------------------------------------------------- *)

Section MoreExecutor.

Variable Ext : Type.
Variable now : Ext -> Time.

(** [DB.QueryRow] always returns, with a row that carries what
    [database/sql] returned and the mapper of the handle. *)
Lemma DB_QueryRow_run (d : DB Ext) ctx q args (w : world Ext) ctx' xE raw :
  applyDefaultTimeout now d ctx w = (w, Returned ctx') ->
  QueryRowContext (DB_sqldb d) None ctx' q args
    (extBefore (DB_hooks d) ctx' q args (ext w)) = (xE, raw) ->
  exists evs,
    DB_QueryRow now d ctx q args w
    = ({| ext := extAfter (DB_hooks d) ctx' q args
                   (now xE - now (ext w)) None xE;
          trace := trace w ++ evs |},
       Returned {| Row_raw := raw; Row_errMap := DB_errMap d |}).
Proof.
  intros Hctx Hcall.
  rewrite (@DB_QueryRow_observed Ext now d ctx ctx' q args w Hctx).
  destruct (@observed_run Ext now _ (DB_hooks d) ctx' q args
              (QueryRowContext (DB_sqldb d) None ctx' q args)
              (EvQueryRowContext None ctx' q args) (fun _ => None) w xE raw
              Hcall) as (evsB & evsA & Hrun & _).
  cbv zeta in Hrun. eexists.
  erewrite bind_returned by exact Hrun. reflexivity.
Qed.

(** X16.  No row is not found.  On a handle as [Open] builds it, when the
    single-row query comes back without error and without a row, [Scan] on
    the row that [QueryRow] returned gives the classified error: [IsNotFound]
    holds of it, and [sql.ErrNoRows] is still found in it. *)
Theorem QueryRow_Scan_not_found (sqldb : sqlDB Ext) (cfg : Config Ext)
    ctx q args (w w' : world Ext) (row : Row) :
  DB_QueryRow now (opened sqldb cfg) ctx q args w = (w', Returned row) ->
  rowErr (Row_raw row) = None ->
  rowVals (Row_raw row) = None ->
  Row_Scan row = Some notFoundError
  /\ IsNotFound (Row_Scan row) = true
  /\ errors_Is (Row_Scan row) (Some sql_ErrNoRows) = true.
Proof.
  intros Hrun He Hv.
  destruct (applyDefaultTimeout_run now (opened sqldb cfg) ctx w)
    as (ctx' & Hctx & _).
  destruct (QueryRowContext sqldb None ctx' q args
              (extBefore (DB_hooks (opened sqldb cfg)) ctx' q args (ext w)))
    as [xE raw] eqn:Hcall.
  destruct (@DB_QueryRow_run (opened sqldb cfg) ctx q args w ctx' xE raw
              Hctx Hcall) as (evs & Hrun').
  rewrite Hrun' in Hrun. injection Hrun as _ Hrow. subst row.
  unfold Row_Scan, sqlRow_Scan in *. cbn [Row_raw Row_errMap] in *.
  rewrite He, Hv. repeat split.
Qed.

(** X17.  The metrics hook counts every [QueryRow] as a success.  On a
    handle whose chain is the metrics hook, [QueryRow] tells the collector
    [true] once the call into [database/sql] is back, whatever error the row
    holds; the caller gets that error, classified, from [Scan]. *)
Theorem metrics_QueryRow_counts_success (d : DB Ext)
    (collector : MetricsCollector Ext) ctx q args (w : world Ext) ctx' xE raw :
  DB_hooks d = {| chain_hooks := [NewMetricsHook collector] |} ->
  applyDefaultTimeout now d ctx w = (w, Returned ctx') ->
  QueryRowContext (DB_sqldb d) None ctx' q args (ext w) = (xE, raw) ->
  exists w' row,
    DB_QueryRow now d ctx q args w = (w', Returned row)
    /\ ext w' = fst (RecordQuery collector q (now xE - now (ext w)) true xE)
    /\ Row_Scan row = DB_errMap d (sqlRow_Scan raw).
Proof.
  intros Hh Hctx Hcall.
  assert (Hcall' : QueryRowContext (DB_sqldb d) None ctx' q args
                     (extBefore (DB_hooks d) ctx' q args (ext w)) = (xE, raw)).
  { rewrite Hh. unfold extBefore. cbn. exact Hcall. }
  destruct (@DB_QueryRow_run d ctx q args w ctx' xE raw Hctx Hcall')
    as (evs & Hrun).
  eexists _, _. split; [exact Hrun|]. split; [|reflexivity].
  cbn [ext]. rewrite Hh. unfold extAfter. cbn [chain_hooks runHooks].
  cbn [NewMetricsHook AfterQuery].
  destruct (RecordQuery collector q (now xE - now (ext w)) true xE);
    reflexivity.
Qed.

Variable ops : sqlStmtOps Ext.

(** [Stmt.Exec], run. *)
Lemma Stmt_Exec_run (s : Stmt Ext) ctx args (w : world Ext) xE res err :
  stmtExecContext ops (Stmt_stmt s) ctx args
    (extBefore (Stmt_hooks s) ctx (Stmt_query s) args (ext w))
  = (xE, (res, err)) ->
  exists evsB evsA,
    let elapsed := now xE - now (ext w) in
    let err' := Stmt_errMap s err in
    Stmt_Exec now ops s ctx args w
    = ({| ext := extAfter (Stmt_hooks s) ctx (Stmt_query s) args elapsed err' xE;
          trace := trace w ++ evsB ++ evsA |}, Returned (res, err'))
    /\ dropSlog evsB
       = beforeMarkers (length (chain_hooks (Stmt_hooks s))) ctx (Stmt_query s)
           args
    /\ skeleton evsB = [EvNotifyBefore ctx (Stmt_query s) args]
    /\ dropSlog evsA
       = afterMarkers (length (chain_hooks (Stmt_hooks s))) ctx (Stmt_query s)
           args elapsed err'
    /\ skeleton evsA = [EvNotifyAfter ctx (Stmt_query s) args elapsed err'].
Proof.
  intros Hcall. unfold Stmt_Exec.
  destruct (hookChain_Before_run (Stmt_hooks s) ctx (Stmt_query s) args w)
    as (evsB & HB & HdB & _ & HkB).
  set (wE := {| ext := xE; trace := trace w ++ evsB |}).
  destruct (hookChain_After_run (Stmt_hooks s) ctx (Stmt_query s) args
              (now xE - now (ext w)) (Stmt_errMap s err) wE)
    as (evsA & HA & HdA & _ & HkA).
  exists evsB, evsA. cbv zeta.
  split; [|repeat split; assumption].
  erewrite bind_returned by reflexivity.
  erewrite bind_returned by exact HB.
  erewrite (bind_returned (stmtcall _)) with (w' := wE) (a := (res, err))
    by (unfold stmtcall; cbn [ext trace]; rewrite Hcall; reflexivity).
  cbv beta iota.
  erewrite bind_returned by reflexivity.
  erewrite bind_returned by exact HA.
  unfold ret, wE. cbn [ext trace]. rewrite <- !app_assoc. reflexivity.
Qed.

(** X18.  A prepared statement notifies the chain as the handle does.
    [Stmt.Exec] returns normally; it notifies the chain once before the call
    on the statement and once after it, both times with the query text the
    statement was prepared from; the error of the after-notification is the
    error returned, which is what the mapper makes of the error of the call,
    nil included: the mapper is consulted on success too. *)
Theorem Stmt_Exec_notifies (s : Stmt Ext) ctx args (w : world Ext) :
  exists xE res err evs,
    stmtExecContext ops (Stmt_stmt s) ctx args
      (extBefore (Stmt_hooks s) ctx (Stmt_query s) args (ext w))
    = (xE, (res, err))
    /\ Stmt_Exec now ops s ctx args w
       = ({| ext := extAfter (Stmt_hooks s) ctx (Stmt_query s) args
                      (now xE - now (ext w)) (Stmt_errMap s err) xE;
             trace := trace w ++ evs |},
          Returned (res, Stmt_errMap s err))
    /\ skeleton evs
       = [EvNotifyBefore ctx (Stmt_query s) args;
          EvNotifyAfter ctx (Stmt_query s) args (now xE - now (ext w))
            (Stmt_errMap s err)]
    /\ dropSlog evs
       = (beforeMarkers (length (chain_hooks (Stmt_hooks s))) ctx
            (Stmt_query s) args
          ++ afterMarkers (length (chain_hooks (Stmt_hooks s))) ctx
               (Stmt_query s) args (now xE - now (ext w))
               (Stmt_errMap s err))%list.
Proof.
  destruct (stmtExecContext ops (Stmt_stmt s) ctx args
              (extBefore (Stmt_hooks s) ctx (Stmt_query s) args (ext w)))
    as [xE [res err]] eqn:Hcall.
  destruct (@Stmt_Exec_run s ctx args w xE res err Hcall)
    as (evsB & evsA & Hrun & HdB & HkB & HdA & HkA).
  cbv zeta in *.
  exists xE, res, err, (evsB ++ evsA)%list.
  split; [reflexivity|]. split; [exact Hrun|]. split.
  - rewrite skeleton_app, HkB, HkA. reflexivity.
  - rewrite dropSlog_app, HdB, HdA. reflexivity.
Qed.

End MoreExecutor.

(* ------------------------------------------------------------------------- *)
(** * BatchExec *)
(* ------------------------------------------------------------------------- *)



Section Batch.

Variable Ext : Type.
Variable now : Ext -> Time.
Variable ops : sqlStmtOps Ext.
Variable T : Type.

(** The loop ends at the first statement that fails. *)
Lemma BatchExec_range_stops (stmt : Stmt Ext) ctx (pre post : list T) item
    (argsFn : T -> list any) (w w1 w2 : world Ext) res e :
  BatchExec_range now ops stmt ctx pre argsFn w = (w1, Returned None) ->
  Stmt_Exec now ops stmt ctx (argsFn item) w1 = (w2, Returned (res, Some e)) ->
  BatchExec_range now ops stmt ctx (pre ++ item :: post) argsFn w
  = (w2, Returned (Some e)).
Proof.
  revert w. induction pre as [|a pre IH]; intros w Hpre Hitem.
  - cbn in Hpre. injection Hpre as ->. cbn [app BatchExec_range].
    erewrite bind_returned by exact Hitem. reflexivity.
  - cbn [app BatchExec_range] in *. unfold bind in *.
    destruct (Stmt_Exec now ops stmt ctx (argsFn a) w) as [w' [[r err]|p]];
      [|discriminate].
    destruct err as [e'|]; [discriminate|].
    apply IH; assumption.
Qed.

(** [BatchExec] up to the loop: the transaction is begun and the statement
    prepared in it, with the caller's context. *)
Lemma BatchExec_prepared (d : DB Ext) ctx query (items : list T) argsFn
    (w : world Ext) ctx' w1 sqltx x2 st :
  applyDefaultTimeout now d ctx w = (w, Returned ctx') ->
  beginTx d ctx' None w = (w1, Returned (sqltx, None)) ->
  PrepareContext (DB_sqldb d) (Some sqltx) ctx query (ext w1) = (x2, (st, None)) ->
  BatchExec now ops d ctx query items argsFn w
  = defer_
      (err <- defer_ (BatchExec_range now ops
                        {| Stmt_stmt := st; Stmt_query := query;
                           Stmt_hooks := DB_hooks d;
                           Stmt_errMap := DB_errMap d |} ctx items argsFn)
                (fun o => _ <- Stmt_Close ops
                                 {| Stmt_stmt := st; Stmt_query := query;
                                    Stmt_hooks := DB_hooks d;
                                    Stmt_errMap := DB_errMap d |} ;;
                          fun w => (w, o)) ;;
       match err with
       | Some _ => ret (DB_mapErr d err)
       | None =>
           err <- commit d sqltx ;;
           match err with
           | Some _ => ret (DB_mapErr d err)
           | None => ret None
           end
       end)
      (ExecTxOpts_deferred d sqltx)
      {| ext := x2;
         trace := trace w1 ++ [EvPrepareContext (Some sqltx) ctx query st None] |}.
Proof.
  intros Hctx Hbegin Hprep. unfold BatchExec, DB_ExecTx.
  rewrite (@ExecTxOpts_begun Ext now d ctx _ [] w ctx' w1 sqltx Hctx Hbegin).
  unfold defer_ at 1 3. unfold ExecTxOpts_body.
  unfold BatchExec_fn at 1. unfold Tx_Prepare. cbn [newTx Tx_conn Tx_sqltx].
  rewrite !bind_assoc. unfold bind at 1, sqlcall at 1. rewrite Hprep.
  cbn [fst snd]. cbn [newTx Tx_hooks Tx_errMap]. unfold ret at 1.
  unfold bind at 1. reflexivity.
Qed.

(** X19.  [BatchExec] stops at the first statement that fails and rolls
    back.  When the items before [item] go through and the statement fails on
    [item] with [e], which the mapper of the handle classifies as [m], the
    items after [item] are not touched: the statement is closed, [Rollback]
    is called and [Commit] is not, and the caller gets [m], or the combined
    error when the rollback fails. *)
Theorem BatchExec_stops_at_first_failure (d : DB Ext) ctx query
    (pre post : list T) (item : T) (argsFn : T -> list any) (w : world Ext)
    ctx' w1 sqltx x2 st w3 w4 res e m :
  applyDefaultTimeout now d ctx w = (w, Returned ctx') ->
  beginTx d ctx' None w = (w1, Returned (sqltx, None)) ->
  PrepareContext (DB_sqldb d) (Some sqltx) ctx query (ext w1) = (x2, (st, None)) ->
  BatchExec_range now ops
    {| Stmt_stmt := st; Stmt_query := query;
       Stmt_hooks := DB_hooks d; Stmt_errMap := DB_errMap d |} ctx pre argsFn
    {| ext := x2;
       trace := trace w1 ++ [EvPrepareContext (Some sqltx) ctx query st None] |}
  = (w3, Returned None) ->
  Stmt_Exec now ops
    {| Stmt_stmt := st; Stmt_query := query;
       Stmt_hooks := DB_hooks d; Stmt_errMap := DB_errMap d |} ctx
    (argsFn item) w3
  = (w4, Returned (res, Some e)) ->
  DB_errMap d (Some e) = Some m ->
  exists x5 closeErr x6 rbErr,
    stmtClose ops st (ext w4) = (x5, closeErr)
    /\ Rollback (DB_sqldb d) sqltx x5 = (x6, rbErr)
    /\ BatchExec now ops d ctx query (pre ++ item :: post) argsFn w
       = ({| ext := x6; trace := trace w4 ++ [EvRollback sqltx rbErr] |},
          Returned (Some match rbErr with
                         | None => m
                         | Some _ => rollbackFailed rbErr (Some m)
                         end)).
Proof.
  intros Hctx Hbegin Hprep Hpre Hitem Hmap.
  destruct (stmtClose ops st (ext w4)) as [x5 closeErr] eqn:Hclose.
  destruct (Rollback (DB_sqldb d) sqltx x5) as [x6 rbErr] eqn:Hrb.
  exists x5, closeErr, x6, rbErr. split; [reflexivity|]. split; [exact Hrb|].
  rewrite (@BatchExec_prepared d ctx query _ argsFn w ctx' w1 sqltx x2 st
             Hctx Hbegin Hprep).
  pose proof (@BatchExec_range_stops _ ctx pre post item argsFn _ w3 w4 res e
                Hpre Hitem) as Hloop.
  unfold defer_ at 1. unfold bind at 1. unfold defer_ at 1.
  rewrite Hloop. unfold bind at 1. unfold Stmt_Close, stmtcall.
  cbn [Stmt_stmt]. rewrite Hclose. unfold DB_mapErr. rewrite Hmap.
  unfold ret at 1. unfold ExecTxOpts_deferred, bind, rollback, sqlcall.
  cbn [ext trace]. rewrite Hrb. destruct rbErr; reflexivity.
Qed.



End Batch.

(* ------------------------------------------------------------------------- *)
(** * Open *)
(* ------------------------------------------------------------------------- *)

Section MoreOpening.

Variable Ext : Type.
Variable now : Ext -> Time.
Variable sql_Open : string -> string -> Ext -> Ext * (sqlPool Ext * option error).

(** X21.  [Open] rejects a configuration with an empty DSN or an empty
    driver name before it touches [database/sql]: it returns no handle and
    an error that says which of the two is missing, and makes no call. *)
Theorem Open_rejects_empty_config (addr : positive) (cfg : Config Ext)
    (w : poolWorld Ext) :
  DSN cfg = EmptyString \/ DriverName cfg = EmptyString ->
  exists msg,
    Open now sql_Open addr cfg w = (w, Returned (None, Some (errorString addr msg)))
    /\ (DSN cfg = EmptyString -> msg = "sqltoolkit/db: DSN must not be empty")
    /\ (DSN cfg <> EmptyString ->
        msg = "sqltoolkit/db: DriverName must not be empty").
Proof.
  intros H. unfold Open.
  destruct (String.eqb (DSN cfg) EmptyString) eqn:E1.
  - apply String.eqb_eq in E1. eexists. split; [reflexivity|].
    split; [reflexivity | intros N; contradiction].
  - apply String.eqb_neq in E1. destruct H as [H|H]; [contradiction|].
    rewrite H. cbn [String.eqb]. eexists. split; [reflexivity|].
    split; [intros N; contradiction | reflexivity].
Qed.

(** [Open] on a configuration it accepts, up to the ping. *)
Lemma Open_tuned (addr : positive) (cfg : Config Ext) (w : poolWorld Ext)
    x1 pool :
  DSN cfg <> EmptyString ->
  DriverName cfg <> EmptyString ->
  sql_Open (DriverName cfg) (DSN cfg) (pext w) = (x1, (pool, None)) ->
  Open now sql_Open addr cfg w
  = (let ctx := context_WithTimeout Background (5 * Second)
                  (now (tuned pool cfg x1)) in
     err <- poolcall (PingContext pool ctx) (EvPingContext ctx) ;;
     match err with
     | Some _ =>
         _ <- poolcall (pool_Close pool) EvPoolClose ;;
         ret (None, Some (wrapError ("sqltoolkit/db: ping: " ++ fmt_w err) err))
     | None => ret (Some (opened (pool_conn pool) cfg), None)
     end)
      {| pext := tuned pool cfg x1;
         plog := plog w ++ EvSqlOpen (DriverName cfg) (DSN cfg) None
                           :: tuningCalls cfg |}.
Proof.
  intros H1 H2 Hopen. unfold Open.
  apply String.eqb_neq in H1, H2. rewrite H1, H2.
  unfold bind at 1, poolcall at 1. rewrite Hopen. cbn [fst snd].
  unfold tuned, tuningCalls.
  destruct (0 <? MaxOpenConns cfg), (0 <? MaxIdleConns cfg),
    (0 <? ConnMaxLifetime cfg), (0 <? ConnMaxIdleTime cfg);
    unfold bind at 1 2 3 4 5, poolset, ret; cbn [pext plog];
    rewrite <- ?app_assoc; reflexivity.
Qed.

(** X22.  A failed ping closes the pool.  When [sql.Open] succeeds and the
    ping fails with [e], [Open] closes the pool, once and right after the
    ping, and returns no handle and an error that wraps [e].  The ping runs
    under a deadline of five seconds from the moment it is made. *)
Theorem Open_failed_ping_closes_pool (addr : positive) (cfg : Config Ext)
    (w : poolWorld Ext) x1 pool x2 e :
  DSN cfg <> EmptyString ->
  DriverName cfg <> EmptyString ->
  sql_Open (DriverName cfg) (DSN cfg) (pext w) = (x1, (pool, None)) ->
  PingContext pool
    (withDeadline Background (now (tuned pool cfg x1) + 5 * Second))
    (tuned pool cfg x1) = (x2, Some e) ->
  exists x3 closeErr r ctx,
    pool_Close pool x2 = (x3, closeErr)
    /\ Open now sql_Open addr cfg w
       = ({| pext := x3;
             plog := plog w ++ EvSqlOpen (DriverName cfg) (DSN cfg) None
                               :: tuningCalls cfg
                               ++ [EvPingContext ctx (Some e);
                                   EvPoolClose closeErr] |},
          Returned (None, Some r))
    /\ Deadline ctx = Some (now (tuned pool cfg x1) + 5 * Second)
    /\ Unwrap r = Some e
    /\ errors_Is (Some r) (Some e) = true
    /\ Error r = "sqltoolkit/db: ping: " ++ Error e.
Proof.
  intros H1 H2 Hopen Hping.
  destruct (pool_Close pool x2) as [x3 closeErr] eqn:Hclose.
  exists x3, closeErr,
    (wrapError ("sqltoolkit/db: ping: " ++ fmt_w (Some e)) (Some e)),
    (withDeadline Background (now (tuned pool cfg x1) + 5 * Second)).
  split; [reflexivity|]. split.
  - rewrite (@Open_tuned addr cfg w x1 pool H1 H2 Hopen). cbv zeta.
    change (context_WithTimeout Background (5 * Second)
              (now (tuned pool cfg x1)))
      with (withDeadline Background (now (tuned pool cfg x1) + 5 * Second)).
    unfold bind at 1, poolcall at 1. cbn [pext plog]. rewrite Hping.
    unfold bind, poolcall, ret. cbn [pext plog]. rewrite Hclose.
    rewrite <- !app_assoc. reflexivity.
  - split; [reflexivity|]. split; [reflexivity|].
    split; [|reflexivity].
    unfold errors_Is. cbn [is_chain]. rewrite is_chain_refl.
    apply orb_true_r.
Qed.

Ltac tuning_fact :=
  unfold tuningCalls;
  repeat match goal with
         | |- context [0 <? ?x] =>
             let E := fresh "E" in
             destruct (0 <? x) eqn:E;
             [apply Z.ltb_lt in E | apply Z.ltb_ge in E]
         end;
  cbn [app In];
  let H := fresh "H" in
  first
    [ intros H;
      repeat (destruct H as [H|H];
              [first [discriminate H
                     | injection H as <-; split; [reflexivity | assumption]]|]);
      contradiction
    | intros [-> H]; first [lia | auto 10] ].

(** X23.  What [Open] hands out.  When [sql.Open] and the ping succeed,
    [Open] returns the handle on the pool with the configuration as given,
    the non-nil hooks of the configuration as its chain and the default
    mapper.  On the way it sets each of the four pool limits that is positive
    in the configuration, and no other, and it does not close the pool. *)
Theorem Open_hands_out_handle (addr : positive) (cfg : Config Ext)
    (w : poolWorld Ext) x1 pool x2 :
  DSN cfg <> EmptyString ->
  DriverName cfg <> EmptyString ->
  sql_Open (DriverName cfg) (DSN cfg) (pext w) = (x1, (pool, None)) ->
  PingContext pool
    (withDeadline Background (now (tuned pool cfg x1) + 5 * Second))
    (tuned pool cfg x1) = (x2, None) ->
  exists d,
    Open now sql_Open addr cfg w
    = ({| pext := x2;
          plog := plog w ++ EvSqlOpen (DriverName cfg) (DSN cfg) None
                            :: tuningCalls cfg
                            ++ [EvPingContext
                                  (withDeadline Background
                                     (now (tuned pool cfg x1) + 5 * Second))
                                  None] |},
       Returned (Some d, None))
    /\ DB_sqldb d = pool_conn pool
    /\ DB_cfg d = cfg
    /\ DB_hooks d = newHookChain (Hooks cfg)
    /\ DB_errMap d = DefaultErrorMapper
    /\ (forall n, In (EvSetMaxOpenConns n) (tuningCalls cfg)
                  <-> n = MaxOpenConns cfg /\ 0 < n)
    /\ (forall n, In (EvSetMaxIdleConns n) (tuningCalls cfg)
                  <-> n = MaxIdleConns cfg /\ 0 < n)
    /\ (forall t, In (EvSetConnMaxLifetime t) (tuningCalls cfg)
                  <-> t = ConnMaxLifetime cfg /\ 0 < t)
    /\ (forall t, In (EvSetConnMaxIdleTime t) (tuningCalls cfg)
                  <-> t = ConnMaxIdleTime cfg /\ 0 < t).
Proof.
  intros H1 H2 Hopen Hping.
  exists (opened (pool_conn pool) cfg). split.
  - rewrite (@Open_tuned addr cfg w x1 pool H1 H2 Hopen). cbv zeta.
    change (context_WithTimeout Background (5 * Second)
              (now (tuned pool cfg x1)))
      with (withDeadline Background (now (tuned pool cfg x1) + 5 * Second)).
    unfold bind at 1, poolcall at 1. cbn [pext plog]. rewrite Hping.
    unfold ret. rewrite <- !app_assoc. reflexivity.
  - do 4 (split; [reflexivity|]).
    split; [intros n; split; tuning_fact|].
    split; [intros n; split; tuning_fact|].
    split; intros t; split; tuning_fact.
Qed.

(** A handle that [Open] returns is the handle on the pool [sql.Open]
    returned, with the configuration as given. *)
Lemma Open_handle (addr : positive) (cfg : Config Ext) (w w' : poolWorld Ext)
    (d : DB Ext) (err : option error) :
  Open now sql_Open addr cfg w = (w', Returned (Some d, err)) ->
  exists pool, d = opened (pool_conn pool) cfg.
Proof.
  intros Hrun.
  destruct (String.eqb_spec (DSN cfg) EmptyString) as [E1|E1].
  { unfold Open in Hrun. rewrite E1 in Hrun. discriminate. }
  destruct (String.eqb_spec (DriverName cfg) EmptyString) as [E2|E2].
  { unfold Open in Hrun. apply String.eqb_neq in E1. rewrite E1, E2 in Hrun.
    discriminate. }
  destruct (sql_Open (DriverName cfg) (DSN cfg) (pext w))
    as [x1 [pool oerr]] eqn:Hopen.
  destruct oerr as [e|].
  { unfold Open in Hrun. apply String.eqb_neq in E1, E2.
    rewrite E1, E2 in Hrun. unfold bind, poolcall in Hrun.
    rewrite Hopen in Hrun. discriminate. }
  rewrite (@Open_tuned addr cfg w x1 pool E1 E2 Hopen) in Hrun.
  cbv zeta in Hrun. unfold bind at 1, poolcall at 1 in Hrun.
  cbn [pext plog] in Hrun.
  destruct (PingContext pool _ _) as [x2 [e|]].
  - unfold bind, poolcall in Hrun. cbn [pext plog] in Hrun.
    destruct (pool_Close pool x2). discriminate.
  - injection Hrun as _ <- _. exists pool. reflexivity.
Qed.

End MoreOpening.

(* ------------------------------------------------------------------------- *)
(** * Drivers *)
(* ------------------------------------------------------------------------- *)

(** ** The DSN of the built-in adapters *)

(** The PostgreSQL DSN.  The call fails exactly when [Host] or
    [Database] is empty.  A zero [Port] stands for 5432 and an empty
    [SSLMode] for [disable]: the DSN is the one of the options with these
    values written out. *)
Theorem PostgresDriver_DSN_defaults (addr : positive) (o : DriverOptions) :
  (snd (PostgresDriver_DSN addr o) <> None
   <-> Host o = EmptyString \/ Database o = EmptyString)
  /\ (Port o = 0 ->
      PostgresDriver_DSN addr o
      = PostgresDriver_DSN addr
          {| Host := Host o; Port := 5432; User := User o;
             Password := Password o; Database := Database o;
             SSLMode := SSLMode o; Extra := Extra o |})
  /\ (SSLMode o = EmptyString ->
      PostgresDriver_DSN addr o
      = PostgresDriver_DSN addr
          {| Host := Host o; Port := Port o; User := User o;
             Password := Password o; Database := Database o;
             SSLMode := "disable"; Extra := Extra o |}).
Proof.
  unfold PostgresDriver_DSN. cbn [Host Port User Password Database SSLMode Extra].
  split; [|split].
  - destruct (String.eqb_spec (Host o) EmptyString) as [E1|E1];
      destruct (String.eqb_spec (Database o) EmptyString) as [E2|E2];
      cbn [orb snd]; split; intros H; try discriminate; try tauto;
      try congruence.
  - intros ->. reflexivity.
  - intros ->. reflexivity.
Qed.

Lemma sqlite_extras_fold (l : list (string * string)) (s : string)
    (kv : string * string) :
  fst (fold_left
         (fun (st : string * bool) kv =>
            let (dsn, first) := st in
            let dsn := if first then dsn ++ "?" else dsn ++ "&" in
            (dsn ++ (fst kv ++ "=" ++ snd kv), false))
         l (s ++ (fst kv ++ "=" ++ snd kv), false))
  = s ++ String.concat "&" (map (fun kv => fst kv ++ "=" ++ snd kv) (kv :: l)).
Proof.
  revert s kv.
  match goal with |- context [fold_left ?g] => set (f := g) end.
  induction l as [|kv' l IH]; intros s kv.
  - reflexivity.
  - cbn [fold_left].
    change (f (s ++ (fst kv ++ "=" ++ snd kv), false) kv')
      with (((s ++ (fst kv ++ "=" ++ snd kv)) ++ "&")
            ++ (fst kv' ++ "=" ++ snd kv'), false).
    rewrite (IH ((s ++ (fst kv ++ "=" ++ snd kv)) ++ "&") kv').
    cbn [map String.concat]. rewrite !append_assoc. reflexivity.
Qed.

(** X24.  The SQLite DSN.  With a database path the call succeeds, and the
    DSN is the path, followed when there are extra parameters by a question
    mark and the parameters as [key=value], joined by ampersands, in the
    order the map yields them. *)
Theorem SQLiteDriver_DSN_joins_extras (addr : positive) (o : DriverOptions) :
  Database o <> EmptyString ->
  SQLiteDriver_DSN addr o
  = (Database o
     ++ match Extra o with
        | [] => EmptyString
        | _ => "?" ++ String.concat "&"
                        (map (fun kv => fst kv ++ "=" ++ snd kv) (Extra o))
        end,
     None).
Proof.
  intros H. unfold SQLiteDriver_DSN. apply String.eqb_neq in H. rewrite H.
  cbv zeta. f_equal. destruct (Extra o) as [|kv l].
  - cbn [fold_left fst]. rewrite append_nil_r. reflexivity.
  - rewrite <- (append_assoc (Database o) "?" _).
    exact (sqlite_extras_fold l (Database o ++ "?") kv).
Qed.

Section MoreDrivers.

Variable Ext : Type.
Variable now : Ext -> Time.
Variable sql_Open : string -> string -> Ext -> Ext * (sqlPool Ext * option error).
Variable fmt_q : string -> string.

(** ** The registry *)

Lemma registry_get_set_same (name : string) (d : Driver Ext)
    (r : registry Ext) :
  registry_get name (registry_set name d r) = Some d.
Proof. unfold registry_set. cbn [registry_get]. rewrite String.eqb_refl. reflexivity. Qed.

Lemma registry_get_set_other (name name' : string) (d : Driver Ext)
    (r : registry Ext) :
  name' <> name ->
  registry_get name' (registry_set name d r) = registry_get name' r.
Proof.
  intros H. unfold registry_set. cbn [registry_get].
  assert (E : String.eqb name name' = false)
    by (apply String.eqb_neq; congruence).
  rewrite E. induction r as [|[k d0] r IH]; [reflexivity|].
  cbn [filter fst registry_get].
  destruct (String.eqb k name) eqn:Ek; cbn [negb].
  - apply String.eqb_eq in Ek. subst k. rewrite E. exact IH.
  - cbn [registry_get]. rewrite IH. reflexivity.
Qed.

(** X25.  The registry keeps what is registered.  [RegisterDriver] under a
    name that is free adds the adapter: [LookupDriver] then finds it,
    and finds under every other name what it found before.  Under a name
    that is taken it panics and leaves the registry as it is.
    [ReplaceDriver] never panics and puts the adapter under its name whether
    the name is free or taken.  [LookupDriver] of a name that is not
    registered returns no adapter and an error. *)
Theorem registry_keeps_drivers (d : Driver Ext) (r : registry Ext)
    (addr : positive) :
  (registry_get (Driver_Name d) r = None ->
   exists r',
     RegisterDriver fmt_q d r = (r', Returned tt)
     /\ LookupDriver fmt_q addr (Driver_Name d) r' = (Some d, None)
     /\ forall name, name <> Driver_Name d ->
          LookupDriver fmt_q addr name r' = LookupDriver fmt_q addr name r)
  /\ (registry_get (Driver_Name d) r <> None ->
      RegisterDriver fmt_q d r
      = (r, Panicked ("sqltoolkit/db: driver " ++ fmt_q (Driver_Name d)
                      ++ " already registered")))
  /\ (exists r',
        ReplaceDriver d r = (r', Returned tt)
        /\ LookupDriver fmt_q addr (Driver_Name d) r' = (Some d, None)
        /\ forall name, name <> Driver_Name d ->
             LookupDriver fmt_q addr name r' = LookupDriver fmt_q addr name r)
  /\ (forall name, registry_get name r = None ->
        LookupDriver fmt_q addr name r
        = (None,
           Some (errorString addr
                   ("sqltoolkit/db: driver " ++ fmt_q name
                    ++ " not registered")))).
Proof.
  assert (Hset : LookupDriver fmt_q addr (Driver_Name d)
                   (registry_set (Driver_Name d) d r) = (Some d, None)
                 /\ forall name, name <> Driver_Name d ->
                      LookupDriver fmt_q addr name
                        (registry_set (Driver_Name d) d r)
                      = LookupDriver fmt_q addr name r).
  { unfold LookupDriver. split.
    - rewrite registry_get_set_same. reflexivity.
    - intros name H. rewrite (registry_get_set_other d r H). reflexivity. }
  split; [|split; [|split]].
  - intros H. exists (registry_set (Driver_Name d) d r).
    unfold RegisterDriver. rewrite H. split; [reflexivity | exact Hset].
  - intros H. unfold RegisterDriver.
    destruct (registry_get (Driver_Name d) r); [reflexivity | now elim H].
  - exists (registry_set (Driver_Name d) d r). split; [reflexivity | exact Hset].
  - intros name H. unfold LookupDriver. rewrite H. reflexivity.
Qed.

Lemma safeRegister_run (d : Driver Ext) (r : registry Ext) :
  exists r',
    safeRegister fmt_q d r = (r', Returned tt)
    /\ forall name,
         registry_get name r'
         = match registry_get name r with
           | Some d0 => Some d0
           | None => if String.eqb name (Driver_Name d) then Some d else None
           end.
Proof.
  unfold safeRegister, defer_, RegisterDriver.
  destruct (registry_get (Driver_Name d) r) as [d0|] eqn:E.
  - exists r. split; [reflexivity|]. intros name.
    destruct (registry_get name r) eqn:En; [reflexivity|].
    destruct (String.eqb name (Driver_Name d)) eqn:Ed; [|reflexivity].
    apply String.eqb_eq in Ed. subst name. congruence.
  - exists (registry_set (Driver_Name d) d r). split; [reflexivity|].
    intros name. destruct (String.eqb name (Driver_Name d)) eqn:Ed.
    + apply String.eqb_eq in Ed. subst name.
      rewrite registry_get_set_same, E. reflexivity.
    + apply String.eqb_neq in Ed. rewrite (registry_get_set_other d r Ed).
      destruct (registry_get name r); reflexivity.
Qed.

(** X26.  The built-in adapters are registered at start, and nothing is
    overwritten.  [init] never panics, whatever is registered already: a name
    that is taken keeps its adapter, and [postgres], [mysql] and [sqlite3]
    get the built-in adapters when they are free.  No other name changes. *)
Theorem init_registers_builtins (r : registry Ext) :
  exists r',
    init_drivers fmt_q r = (r', Returned tt)
    /\ forall name,
         registry_get name r'
         = match registry_get name r with
           | Some d => Some d
           | None =>
               if String.eqb name "postgres" then Some (PostgresDriver Ext)
               else if String.eqb name "mysql" then Some (MySQLDriver Ext)
               else if String.eqb name "sqlite3" then Some (SQLiteDriver Ext)
               else None
           end.
Proof.
  destruct (safeRegister_run (PostgresDriver Ext) r) as (r1 & H1 & G1).
  destruct (safeRegister_run (MySQLDriver Ext) r1) as (r2 & H2 & G2).
  destruct (safeRegister_run (SQLiteDriver Ext) r2) as (r3 & H3 & G3).
  exists r3. split.
  - unfold init_drivers. erewrite bind_returned by exact H1.
    erewrite bind_returned by exact H2. exact H3.
  - intros name. rewrite G3, G2, G1. cbn [Driver_Name PostgresDriver MySQLDriver SQLiteDriver].
    destruct (registry_get name r); [reflexivity|].
    destruct (String.eqb name "postgres"); [reflexivity|].
    destruct (String.eqb name "mysql"); reflexivity.
Qed.

(** ** OpenWithDriver *)

(** X27.  [OpenWithDriver] fails before anything is opened when the adapter
    is unknown or rejects the options.  For a name that is not registered it
    returns the error of [LookupDriver] and makes no call at all.  When the
    adapter's [DSN] fails with [e] it has called the adapter's [Register]
    and nothing else, [sql.Open] in particular not, and it returns an error
    that wraps [e]. *)
Theorem OpenWithDriver_fails_early (r : registry Ext) (a1 a2 a3 : positive)
    (driverName : string) (opts : DriverOptions) (cfg : Config Ext)
    (w : poolWorld Ext) :
  (registry_get driverName r = None ->
   OpenWithDriver now sql_Open fmt_q r a1 a2 a3 driverName opts cfg w
   = (w, Returned (None,
                   Some (errorString a1
                           ("sqltoolkit/db: driver " ++ fmt_q driverName
                            ++ " not registered")))))
  /\ (forall drv x1 dsn e,
        registry_get driverName r = Some drv ->
        Driver_Register drv (pext w) = (x1, Returned tt) ->
        Driver_DSN drv a2 opts = (dsn, Some e) ->
        exists err,
          OpenWithDriver now sql_Open fmt_q r a1 a2 a3 driverName opts cfg w
          = ({| pext := x1;
                plog := plog w ++ [EvRegister (Driver_Name drv)] |},
             Returned (None, Some err))
          /\ Unwrap err = Some e
          /\ errors_Is (Some err) (Some e) = true
          /\ Error err = "sqltoolkit/db: DSN construction failed: " ++ Error e).
Proof.
  split.
  - intros H. unfold OpenWithDriver, LookupDriver. rewrite H. reflexivity.
  - intros drv x1 dsn e Hget Hreg Hdsn.
    exists (wrapError ("sqltoolkit/db: DSN construction failed: "
                       ++ fmt_w (Some e)) (Some e)).
    split; [|split; [reflexivity|split; [|reflexivity]]].
    + unfold OpenWithDriver, LookupDriver. rewrite Hget.
      unfold bind at 1, registerCall at 1. rewrite Hreg, Hdsn. reflexivity.
    + unfold errors_Is. cbn [is_chain]. rewrite is_chain_refl.
      apply orb_true_r.
Qed.

(** X28.  What [OpenWithDriver] hands out.  A handle it returns was opened
    with the adapter's name as driver name, and its mapper is the adapter's
    mapper chained before the default mapper.  For an adapter whose mapper
    is the default mapper, as the three built-in ones, that chain maps
    every error as the default mapper does. *)
Theorem OpenWithDriver_installs_chain (r : registry Ext) (a1 a2 a3 : positive)
    (driverName : string) (opts : DriverOptions) (cfg : Config Ext)
    (w w' : poolWorld Ext) (d : DB Ext) (drv : Driver Ext) :
  registry_get driverName r = Some drv ->
  OpenWithDriver now sql_Open fmt_q r a1 a2 a3 driverName opts cfg w
  = (w', Returned (Some d, None)) ->
  DB_errMap d = ChainMapper [Driver_ErrorMapper drv; DefaultErrorMapper]
  /\ DriverName (DB_cfg d) = Driver_Name drv
  /\ DSN (DB_cfg d) = fst (Driver_DSN drv a2 opts)
  /\ (Driver_ErrorMapper drv = DefaultErrorMapper ->
      forall err, DB_errMap d err = defaultMap err).
Proof.
  intros Hget Hrun.
  assert (Hd : DB_errMap d
               = ChainMapper [Driver_ErrorMapper drv; DefaultErrorMapper]
               /\ DB_cfg d
                  = withDriver cfg (Driver_Name drv)
                      (fst (Driver_DSN drv a2 opts))).
  { unfold OpenWithDriver, LookupDriver in Hrun. rewrite Hget in Hrun.
    unfold bind at 1 in Hrun.
    destruct (registerCall drv w) as [w1 [[]|p]]; [|discriminate].
    destruct (Driver_DSN drv a2 opts) as [dsn [e|]]; [discriminate|].
    unfold bind in Hrun.
    destruct (Open now sql_Open a3 (withDriver cfg (Driver_Name drv) dsn) w1)
      as [w2 [[db err]|p]] eqn:Hopen; [|discriminate].
    destruct err as [e|]; [discriminate|].
    destruct db as [d0|]; [|discriminate].
    injection Hrun as _ <-.
    assert (Hcfg : DB_cfg d0 = withDriver cfg (Driver_Name drv) dsn).
    { destruct (@Open_handle Ext now sql_Open a3 _ w1 w2 d0 None Hopen)
        as [pool ->]. reflexivity. }
    split; [reflexivity|]. cbn [SetErrorMapper DB_cfg fst]. exact Hcfg. }
  destruct Hd as [Hmap Hcfg].
  split; [exact Hmap|]. rewrite Hcfg. split; [reflexivity|].
  split; [reflexivity|].
  intros Hdef err. rewrite Hmap, Hdef. unfold ChainMapper.
  destruct err as [e|]; [|reflexivity].
  cbn [ChainMapper_range]. unfold DefaultErrorMapper.
  destruct (error_neq (defaultMap (Some e)) (Some e)) eqn:E; [reflexivity|].
  apply error_neq_false in E. symmetry. exact E.
Qed.

End MoreDrivers.

(* ------------------------------------------------------------------------- *)
(** * The user repository *)
(* ------------------------------------------------------------------------- *)

Section MoreRepo.

Variable Ext : Type.
Variable now : Ext -> Time.
Variable scanInto : option (list any) -> models_User.
Variable RowsAffected_err : Z * Z -> option error.

(** [QueryRow] of either handle always returns, with a row that carries what
    [database/sql] returned and the mapper of the handle. *)
Lemma Querier_QueryRow_run (q : Querier Ext) ctx query args (w : world Ext) :
  exists w' tx ctx' x,
    Querier_QueryRow now q ctx query args w
    = (w', Returned {| Row_raw := snd (QueryRowContext (Querier_conn q) tx ctx'
                                         query args x);
                       Row_errMap := Querier_errMap q |}).
Proof.
  destruct q as [d|t]; cbn [Querier_QueryRow Querier_conn Querier_errMap].
  - destruct (applyDefaultTimeout_run now d ctx w) as (ctx' & Hctx & _).
    rewrite (@DB_QueryRow_observed Ext now d ctx ctx' query args w Hctx).
    destruct (QueryRowContext (DB_sqldb d) None ctx' query args
                (extBefore (DB_hooks d) ctx' query args (ext w)))
      as [xE raw] eqn:Hcall.
    destruct (@observed_run Ext now _ (DB_hooks d) ctx' query args
                (QueryRowContext (DB_sqldb d) None ctx' query args)
                (EvQueryRowContext None ctx' query args) (fun _ => None) w xE raw
                Hcall) as (evsB & evsA & Hrun & _).
    cbv zeta in Hrun.
    eexists _, None, ctx', (extBefore (DB_hooks d) ctx' query args (ext w)).
    erewrite bind_returned by exact Hrun. rewrite Hcall. reflexivity.
  - rewrite (@Tx_QueryRow_observed Ext now t ctx query args w).
    destruct (QueryRowContext (Tx_conn t) (Some (Tx_sqltx t)) ctx query args
                (extBefore (Tx_hooks t) ctx query args (ext w)))
      as [xE raw] eqn:Hcall.
    destruct (@observed_run Ext now _ (Tx_hooks t) ctx query args
                (QueryRowContext (Tx_conn t) (Some (Tx_sqltx t)) ctx query args)
                (EvQueryRowContext (Some (Tx_sqltx t)) ctx query args)
                (fun _ => None) w xE raw Hcall) as (evsB & evsA & Hrun & _).
    cbv zeta in Hrun.
    eexists _, (Some (Tx_sqltx t)), ctx,
      (extBefore (Tx_hooks t) ctx query args (ext w)).
    erewrite bind_returned by exact Hrun. rewrite Hcall. reflexivity.
Qed.

(** [Exec] of either handle always returns what [database/sql] returned,
    with the error classified. *)
Lemma Querier_Exec_run (q : Querier Ext) ctx query args (w : world Ext) :
  exists w' tx ctx' x,
    let r := snd (ExecContext (Querier_conn q) tx ctx' query args x) in
    Querier_Exec now q ctx query args w
    = (w', Returned (fst r, Querier_mapErr q (snd r))).
Proof.
  destruct q as [d|t]; cbn [Querier_Exec Querier_conn Querier_mapErr].
  - destruct (applyDefaultTimeout_run now d ctx w) as (ctx' & Hctx & _).
    rewrite (@DB_Exec_observed Ext now d ctx ctx' query args w Hctx).
    destruct (ExecContext (DB_sqldb d) None ctx' query args
                (extBefore (DB_hooks d) ctx' query args (ext w)))
      as [xE r] eqn:Hcall.
    destruct (@observed_run Ext now _ (DB_hooks d) ctx' query args
                (ExecContext (DB_sqldb d) None ctx' query args)
                (fun r => EvExecContext None ctx' query args (fst r) (snd r))
                (fun r => DB_mapErr d (snd r)) w xE r Hcall)
      as (evsB & evsA & Hrun & _).
    cbv zeta in Hrun.
    eexists _, None, ctx', (extBefore (DB_hooks d) ctx' query args (ext w)).
    cbv zeta. erewrite bind_returned by exact Hrun. rewrite Hcall. reflexivity.
  - rewrite (@Tx_Exec_observed Ext now t ctx query args w).
    destruct (ExecContext (Tx_conn t) (Some (Tx_sqltx t)) ctx query args
                (extBefore (Tx_hooks t) ctx query args (ext w)))
      as [xE r] eqn:Hcall.
    destruct (@observed_run Ext now _ (Tx_hooks t) ctx query args
                (ExecContext (Tx_conn t) (Some (Tx_sqltx t)) ctx query args)
                (fun r => EvExecContext (Some (Tx_sqltx t)) ctx query args
                            (fst r) (snd r))
                (fun r => Tx_mapErr t (snd r)) w xE r Hcall)
      as (evsB & evsA & Hrun & _).
    cbv zeta in Hrun.
    eexists _, (Some (Tx_sqltx t)), ctx,
      (extBefore (Tx_hooks t) ctx query args (ext w)).
    cbv zeta. erewrite bind_returned by exact Hrun. rewrite Hcall. reflexivity.
Qed.

(** X29.  [GetByID] on an id nobody has.  On a handle with the default
    mapper, pool or transaction, when the single-row query for the id comes
    back without error and without a row, [GetByID] returns no user and an
    error under the prefix of the repository, for which [IsNotFound] holds
    and in which [sql.ErrNoRows] is still found. *)
Theorem GetByID_not_found (q : Querier Ext) ctx (id : Z) (w : world Ext) :
  Querier_errMap q = DefaultErrorMapper ->
  (forall tx c x,
     snd (QueryRowContext (Querier_conn q) tx c sqlGetUserByID [VInt id] x)
     = {| rowErr := None; rowVals := None |}) ->
  exists w' err,
    GetByID now scanInto (NewUserRepo q) ctx id w = (w', Returned (None, Some err))
    /\ IsNotFound (Some err) = true
    /\ errors_Is (Some err) (Some sql_ErrNoRows) = true
    /\ Error err
       = "repo/user: sqltoolkit/db: record not found (cause: sql: no rows in result set)".
Proof.
  intros Hmap Hrow.
  destruct (Querier_QueryRow_run q ctx sqlGetUserByID [VInt id] w)
    as (w' & tx & ctx' & x & Hrun).
  rewrite Hrow, Hmap in Hrun.
  exists w'. eexists. split.
  - unfold GetByID. cbn [NewUserRepo repo_q].
    erewrite bind_returned by exact Hrun. reflexivity.
  - repeat split.
Qed.

(** X30.  [Delete] of an id nobody has.  On either handle, when the DELETE
    comes back without error and the result can tell its count, [Delete]
    returns the bare [ErrNotFound] sentinel if no row was affected, for which
    [IsNotFound] holds, and nil otherwise; the mapper has no part in it.
    When the result cannot tell its count, [Delete] returns the error of
    [RowsAffected] as it is, whatever the count. *)
Theorem Delete_not_found (q : Querier Ext) ctx (id : Z) (w : world Ext)
    (lastId n : Z) :
  (forall tx c x,
     snd (ExecContext (Querier_conn q) tx c sqlDeleteUser [VInt id] x)
     = (Some (lastId, n), None)) ->
  exists w' r,
    Delete now RowsAffected_err (NewUserRepo q) ctx id w = (w', Returned r)
    /\ (RowsAffected_err (lastId, n) = None ->
        (n = 0 -> r = Some ErrNotFound /\ IsNotFound r = true)
        /\ (n <> 0 -> r = None))
    /\ (forall e, RowsAffected_err (lastId, n) = Some e -> r = Some e).
Proof.
  intros Hexec.
  destruct (Querier_Exec_run q ctx sqlDeleteUser [VInt id] w)
    as (w' & tx & ctx' & x & Hrun).
  cbv zeta in Hrun. rewrite Hexec in Hrun. cbn [fst snd] in Hrun.
  assert (Hnil : Querier_mapErr q None = None) by (destruct q; reflexivity).
  rewrite Hnil in Hrun.
  exists w', (match RowsAffected_err (lastId, n) with
              | Some e => Some e
              | None => if n =? 0 then Some ErrNotFound else None
              end).
  split; [|split].
  - unfold Delete. cbn [NewUserRepo repo_q].
    erewrite bind_returned by exact Hrun. cbv beta iota.
    unfold sqlResult_RowsAffected. cbn [snd].
    destruct (RowsAffected_err (lastId, n)); [reflexivity|].
    destruct (n =? 0); reflexivity.
  - intros ->. split.
    + intros ->. split; reflexivity.
    + intros H. apply Z.eqb_neq in H. rewrite H. reflexivity.
  - intros e ->. reflexivity.
Qed.

End MoreRepo.

(* ------------------------------------------------------------------------- *)
(** * More concrete runs *)
(* ------------------------------------------------------------------------- *)

(** ** The error layer *)

(** [sql.ErrNoRows] under a wrapper of the caller is still not found. *)
Lemma defaultMap_no_rows_is_not_found_witness :
  errors_Is (Some wrappedNoRows) (Some sql_ErrNoRows) = true
  /\ defaultMap (Some wrappedNoRows) = newDBError ErrNotFound wrappedNoRows
  /\ IsNotFound (defaultMap (Some wrappedNoRows)) = true.
Proof.
  assert (H : errors_Is (Some wrappedNoRows) (Some sql_ErrNoRows) = true)
    by reflexivity.
  split; [exact H|].
  destruct (@defaultMap_no_rows_is_not_found wrappedNoRows H) as (H1 & H2 & _).
  split; [exact H1 | exact H2].
Defined.

(** A cancelled context is a timeout. *)
Lemma defaultMap_context_error_is_timeout_witness :
  errors_Is (Some wrappedCanceled) (Some sql_ErrNoRows) = false
  /\ errors_Is (Some wrappedCanceled) (Some context_Canceled) = true
  /\ IsTimeout (defaultMap (Some wrappedCanceled)) = true.
Proof.
  assert (H1 : errors_Is (Some wrappedCanceled) (Some sql_ErrNoRows) = false)
    by reflexivity.
  assert (H2 : errors_Is (Some wrappedCanceled) (Some context_Canceled) = true)
    by reflexivity.
  split; [exact H1|]. split; [exact H2|].
  exact (proj2 (@defaultMap_context_error_is_timeout wrappedCanceled H1
                  (or_intror H2))).
Defined.

(** A unique violation of lib/pq, by its [GetCode]. *)
Lemma defaultMap_by_sqlstate_witness :
  reachesClassifiers pqUnique = true
  /\ In ("23505", ErrDuplicateKey) pgCodes
  /\ as_cap capGetCode pqUnique = Some "23505"
  /\ defaultMap (Some pqUnique) = newDBError ErrDuplicateKey pqUnique.
Proof.
  assert (H1 : reachesClassifiers pqUnique = true) by reflexivity.
  assert (H2 : In ("23505", ErrDuplicateKey) pgCodes) by (left; reflexivity).
  assert (H3 : as_cap capGetCode pqUnique = Some "23505") by reflexivity.
  split; [exact H1|]. split; [exact H2|]. split; [exact H3|].
  exact (proj1 (@defaultMap_by_sqlstate pqUnique "23505" ErrDuplicateKey H1 H2
                  (or_introl H3))).
Defined.

(** A deadlock of MySQL, by its [Number]. *)
Lemma defaultMap_by_mysql_number_witness :
  reachesClassifiers mysqlDeadlock = true
  /\ as_cap capGetCode mysqlDeadlock = None
  /\ pqCodeFromString (Error mysqlDeadlock) = EmptyString
  /\ as_cap capSQLState mysqlDeadlock = None
  /\ as_cap capNumber mysqlDeadlock = Some 1213
  /\ In (1213, ErrDeadlock) mysqlNumbers
  /\ IsDeadlock (defaultMap (Some mysqlDeadlock)) = true.
Proof.
  assert (H1 : reachesClassifiers mysqlDeadlock = true) by reflexivity.
  assert (H2 : as_cap capGetCode mysqlDeadlock = None) by reflexivity.
  assert (H3 : pqCodeFromString (Error mysqlDeadlock) = EmptyString)
    by reflexivity.
  assert (H4 : as_cap capSQLState mysqlDeadlock = None) by reflexivity.
  assert (H5 : as_cap capNumber mysqlDeadlock = Some 1213) by reflexivity.
  assert (H6 : In (1213, ErrDeadlock) mysqlNumbers)
    by (simpl; auto 10).
  repeat (split; [assumption|]).
  exact (proj2 (@defaultMap_by_mysql_number mysqlDeadlock 1213 ErrDeadlock
                  H1 H2 H3 H4 H5 H6)).
Defined.

(** The unique violation of SQLite, by its text. *)
Lemma defaultMap_by_sqlite_text_witness :
  reachesClassifiers uniqueFailed = true
  /\ noDriverMethods uniqueFailed
  /\ pqCodeFromString (Error uniqueFailed) = EmptyString
  /\ defaultMap (Some uniqueFailed) = Some duplicateKeyError.
Proof.
  assert (H1 : reachesClassifiers uniqueFailed = true) by reflexivity.
  assert (H2 : noDriverMethods uniqueFailed) by (repeat split).
  assert (H3 : pqCodeFromString (Error uniqueFailed) = EmptyString)
    by reflexivity.
  repeat (split; [assumption|]).
  exact (@defaultMap_by_sqlite_text uniqueFailed H1 H2 H3).
Defined.

(** The duplicate key error is a duplicate key and nothing else. *)
Lemma classification_unambiguous_witness :
  (forall u, In u sentinels -> errors_Is (Some uniqueFailed) (Some u) = false)
  /\ defaultMap (Some uniqueFailed) = Some duplicateKeyError
  /\ In ErrDuplicateKey sentinels
  /\ errors_Is (Some duplicateKeyError) (Some ErrDuplicateKey) = true
  /\ forall t, In t sentinels ->
       errors_Is (Some duplicateKeyError) (Some t) = true -> t = ErrDuplicateKey.
Proof.
  assert (H1 : forall u, In u sentinels ->
                 errors_Is (Some uniqueFailed) (Some u) = false).
  { intros u Hu. simpl in Hu.
    repeat (destruct Hu as [<- | Hu]; [reflexivity|]). contradiction. }
  assert (H2 : defaultMap (Some uniqueFailed) = Some duplicateKeyError)
    by reflexivity.
  assert (H3 : In ErrDuplicateKey sentinels) by (simpl; auto).
  assert (H4 : errors_Is (Some duplicateKeyError) (Some ErrDuplicateKey) = true)
    by reflexivity.
  split; [exact H1|]. split; [exact H2|]. split; [exact H3|].
  split; [exact H4|].
  intros t Ht Hi.
  exact (@classification_unambiguous uniqueFailed duplicateKeyError t
           ErrDuplicateKey H1 H2 Ht H3 Hi H4).
Defined.

(** A chain of a mapper that knows nothing, the default mapper and one that
    swallows everything, on [sql.ErrNoRows]: the default mapper decides. *)
Lemma ChainMapper_first_change_wins_witness :
  carriesIdentity sql_ErrNoRows = true
  /\ (forall m', In m' [idleMapper] -> m' (Some sql_ErrNoRows) = Some sql_ErrNoRows)
  /\ ChainMapper [idleMapper; DefaultErrorMapper; swallowMapper]
       (Some sql_ErrNoRows)
     = Some notFoundError
  /\ ChainMapper [idleMapper; swallowMapper; DefaultErrorMapper]
       (Some sql_ErrNoRows)
     = None.
Proof.
  assert (H0 : carriesIdentity sql_ErrNoRows = true) by reflexivity.
  assert (H1 : forall m', In m' [idleMapper] ->
                 m' (Some sql_ErrNoRows) = Some sql_ErrNoRows).
  { intros m' [<- | []]. reflexivity. }
  assert (H2 : DefaultErrorMapper (Some sql_ErrNoRows) <> Some sql_ErrNoRows)
    by (vm_compute; discriminate).
  assert (H3 : swallowMapper (Some sql_ErrNoRows) <> Some sql_ErrNoRows)
    by discriminate.
  split; [exact H0|]. split; [exact H1|]. split.
  - exact (@ChainMapper_first_change_wins [idleMapper] [swallowMapper]
             DefaultErrorMapper sql_ErrNoRows H0 H1 H2).
  - exact (@ChainMapper_first_change_wins [idleMapper] [DefaultErrorMapper]
             swallowMapper sql_ErrNoRows H0 H1 H3).
Defined.

(** The text of a unique violation as pgx writes it. *)
Lemma pqCodeFromString_reads_code_witness :
  strings.Contains "23505" "(" = false
  /\ strings.Contains "23505" ")" = false
  /\ strings.Contains EmptyString "(" = false
  /\ pqCodeFromString
       ("ERROR: duplicate key value violates unique constraint "
        ++ "(SQLSTATE " ++ "23505" ++ ")" ++ EmptyString)
     = "23505".
Proof.
  assert (H1 : strings.Contains "23505" "(" = false) by reflexivity.
  assert (H2 : strings.Contains "23505" ")" = false) by reflexivity.
  assert (H3 : strings.Contains EmptyString "(" = false) by reflexivity.
  repeat (split; [assumption|]).
  exact (@pqCodeFromString_reads_code
           "ERROR: duplicate key value violates unique constraint "
           "23505" EmptyString H1 H2 H3).
Defined.

(** ** Transactions *)

(** On [plainDB] a body that panics: the rollback, then the panic. *)
Lemma ExecTxOpts_rolls_back_on_panic_witness :
  applyDefaultTimeout demoNow plainDB Background demoWorld
  = (demoWorld, Returned Background)
  /\ beginTx plainDB Background (sqlOptsOf []) demoWorld
     = (plainBegun, Returned (7%nat, None))
  /\ panicBody (newTx plainDB 7%nat) plainBegun = (plainBegun, Panicked "boom")
  /\ exists x3 rbErr,
       DB_ExecTxOpts demoNow plainDB Background panicBody [] demoWorld
       = ({| ext := x3; trace := trace plainBegun ++ [EvRollback 7%nat rbErr] |},
          Panicked "boom").
Proof.
  assert (H1 : applyDefaultTimeout demoNow plainDB Background demoWorld
               = (demoWorld, Returned Background)) by reflexivity.
  assert (H2 : beginTx plainDB Background (sqlOptsOf []) demoWorld
               = (plainBegun, Returned (7%nat, None))) by reflexivity.
  assert (H3 : panicBody (newTx plainDB 7%nat) plainBegun
               = (plainBegun, Panicked "boom")) by reflexivity.
  repeat (split; [assumption|]).
  destruct (@ExecTxOpts_rolls_back_on_panic demoState demoNow plainDB
              Background panicBody [] demoWorld Background plainBegun 7%nat
              plainBegun "boom" H1 H2 H3) as (x3 & rbErr & _ & Hrun & _).
  exists x3, rbErr. exact Hrun.
Defined.

(** On [noBeginDB] nothing is begun and nothing else is called. *)
Lemma ExecTxOpts_begin_failure_witness :
  applyDefaultTimeout demoNow noBeginDB Background demoWorld
  = (demoWorld, Returned Background)
  /\ BeginTx (DB_sqldb noBeginDB) Background (sqlOptsOf []) (ext demoWorld)
     = (demoStart, (0%nat, Some badConnection))
  /\ DB_ExecTxOpts demoNow noBeginDB Background insertBody [] demoWorld
     = ({| ext := demoStart;
           trace := [EvBeginTx Background None 0%nat (Some badConnection)] |},
        Returned (Some badConnection)).
Proof.
  assert (H1 : applyDefaultTimeout demoNow noBeginDB Background demoWorld
               = (demoWorld, Returned Background)) by reflexivity.
  assert (H2 : BeginTx (DB_sqldb noBeginDB) Background (sqlOptsOf [])
                 (ext demoWorld) = (demoStart, (0%nat, Some badConnection)))
    by reflexivity.
  split; [exact H1|]. split; [exact H2|].
  exact (@ExecTxOpts_begin_failure demoState demoNow noBeginDB Background
           insertBody [] demoWorld Background demoStart 0%nat badConnection
           H1 H2).
Defined.

(** On [plainDB] the insert goes through and is committed. *)
Lemma ExecTxOpts_commits_on_success_witness :
  applyDefaultTimeout demoNow plainDB Background demoWorld
  = (demoWorld, Returned Background)
  /\ beginTx plainDB Background (sqlOptsOf []) demoWorld
     = (plainBegun, Returned (7%nat, None))
  /\ insertBody (newTx plainDB 7%nat) plainBegun
     = (plainBodyDone, Returned None)
  /\ Commit (DB_sqldb plainDB) 7%nat (ext plainBodyDone)
     = (finish (ext plainBodyDone), None)
  /\ DB_ExecTxOpts demoNow plainDB Background insertBody [] demoWorld
     = ({| ext := finish (ext plainBodyDone);
           trace := trace plainBodyDone ++ [EvCommit 7%nat None] |},
        Returned None).
Proof.
  assert (H1 : applyDefaultTimeout demoNow plainDB Background demoWorld
               = (demoWorld, Returned Background)) by reflexivity.
  assert (H2 : beginTx plainDB Background (sqlOptsOf []) demoWorld
               = (plainBegun, Returned (7%nat, None))) by reflexivity.
  assert (H3 : insertBody (newTx plainDB 7%nat) plainBegun
               = (plainBodyDone, Returned None)) by (vm_compute; reflexivity).
  assert (H4 : Commit (DB_sqldb plainDB) 7%nat (ext plainBodyDone)
               = (finish (ext plainBodyDone), None))
    by (vm_compute; reflexivity).
  repeat (split; [assumption|]).
  exact (@ExecTxOpts_commits_on_success demoState demoNow plainDB Background
           insertBody [] demoWorld Background plainBegun 7%nat plainBodyDone
           (finish (ext plainBodyDone)) H1 H2 H3 H4).
Defined.

(** On [swallowDB] the body's error disappears, and the transaction stays
    open: the trace ends with [BeginTx]. *)
Lemma ExecTxOpts_swallowed_error_leaves_open_witness :
  applyDefaultTimeout demoNow swallowDB Background demoWorld
  = (demoWorld, Returned Background)
  /\ beginTx swallowDB Background (sqlOptsOf []) demoWorld
     = (plainBegun, Returned (7%nat, None))
  /\ noRowsBody (newTx swallowDB 7%nat) plainBegun
     = (plainBegun, Returned (Some sql_ErrNoRows))
  /\ DB_errMap swallowDB (Some sql_ErrNoRows) = None
  /\ DB_ExecTxOpts demoNow swallowDB Background noRowsBody [] demoWorld
     = (plainBegun, Returned None)
  /\ trace plainBegun = [EvBeginTx Background None 7%nat None].
Proof.
  assert (H1 : applyDefaultTimeout demoNow swallowDB Background demoWorld
               = (demoWorld, Returned Background)) by reflexivity.
  assert (H2 : beginTx swallowDB Background (sqlOptsOf []) demoWorld
               = (plainBegun, Returned (7%nat, None))) by reflexivity.
  assert (H3 : noRowsBody (newTx swallowDB 7%nat) plainBegun
               = (plainBegun, Returned (Some sql_ErrNoRows))) by reflexivity.
  assert (H4 : DB_errMap swallowDB (Some sql_ErrNoRows) = None) by reflexivity.
  repeat (split; [assumption|]).
  split; [|reflexivity].
  exact (@ExecTxOpts_swallowed_error_leaves_open demoState demoNow swallowDB
           Background noRowsBody [] demoWorld Background plainBegun 7%nat
           plainBegun sql_ErrNoRows H1 H2 H3 H4).
Defined.

(** ** Hooks *)

(** The logging hook with [LogArgs] off does the same with and without the
    parameters of Alice. *)
Lemma logHook_keeps_args_private_witness :
  LogArgs quietLogConfig = false
  /\ AfterQuery (NewLogHook demoLogger quietLogConfig) Background insertUser
       aliceArgs 5 None
     = AfterQuery (NewLogHook demoLogger quietLogConfig) Background insertUser
         [] 5 None.
Proof.
  assert (H : LogArgs quietLogConfig = false) by reflexivity.
  split; [exact H|].
  exact (proj1 (@logHook_keeps_args_private demoState demoLogger quietLogConfig
                  Background insertUser aliceArgs [] 5 None H)).
Defined.

(** ** Executor operations *)

(** On [emptyDB] the looked-up row is not found. *)
Lemma QueryRow_Scan_not_found_witness :
  exists w' row,
    DB_QueryRow demoNow (opened (demoSql None emptyRow None) (demoConfig 0 []))
      Background sqlGetUserByID [VInt 42] demoWorld = (w', Returned row)
    /\ rowErr (Row_raw row) = None
    /\ rowVals (Row_raw row) = None
    /\ Row_Scan row = Some notFoundError
    /\ IsNotFound (Row_Scan row) = true.
Proof.
  destruct (DB_QueryRow demoNow
              (opened (demoSql None emptyRow None) (demoConfig 0 []))
              Background sqlGetUserByID [VInt 42] demoWorld)
    as [w' [row|p]] eqn:Hrun; [|vm_compute in Hrun; discriminate].
  assert (Hraw : Row_raw row = emptyRow).
  { vm_compute in Hrun. injection Hrun as _ <-. reflexivity. }
  assert (H1 : rowErr (Row_raw row) = None) by (rewrite Hraw; reflexivity).
  assert (H2 : rowVals (Row_raw row) = None) by (rewrite Hraw; reflexivity).
  exists w', row. split; [reflexivity|]. split; [exact H1|]. split; [exact H2|].
  destruct (@QueryRow_Scan_not_found demoState demoNow
              (demoSql None emptyRow None) (demoConfig 0 []) Background
              sqlGetUserByID [VInt 42] demoWorld w' row Hrun H1 H2)
    as (E & Hnf & _).
  split; [exact E | exact Hnf].
Defined.

(** On [meteredDB] the statement behind [QueryRow] fails, the collector is
    told of a success, and [Scan] returns the duplicate key error. *)
Lemma metrics_QueryRow_counts_success_witness :
  DB_hooks meteredDB = {| chain_hooks := [NewMetricsHook demoCollector] |}
  /\ applyDefaultTimeout demoNow meteredDB Background demoWorld
     = (demoWorld, Returned Background)
  /\ QueryRowContext (DB_sqldb meteredDB) None Background insertUser aliceArgs
       (ext demoWorld) = (tick demoStart, failedRow)
  /\ exists w' row,
       DB_QueryRow demoNow meteredDB Background insertUser aliceArgs demoWorld
       = (w', Returned row)
       /\ calls (ext w') = ["success"]
       /\ Row_Scan row = Some duplicateKeyError.
Proof.
  assert (H1 : DB_hooks meteredDB
               = {| chain_hooks := [NewMetricsHook demoCollector] |})
    by reflexivity.
  assert (H2 : applyDefaultTimeout demoNow meteredDB Background demoWorld
               = (demoWorld, Returned Background)) by reflexivity.
  assert (H3 : QueryRowContext (DB_sqldb meteredDB) None Background insertUser
                 aliceArgs (ext demoWorld) = (tick demoStart, failedRow))
    by reflexivity.
  repeat (split; [assumption|]).
  destruct (@metrics_QueryRow_counts_success demoState demoNow meteredDB
              demoCollector Background insertUser aliceArgs demoWorld
              Background (tick demoStart) failedRow H1 H2 H3)
    as (w' & row & Hrun & Hext & Hscan).
  exists w', row. split; [exact Hrun|]. split.
  - rewrite Hext. reflexivity.
  - rewrite Hscan. reflexivity.
Defined.

(** ** BatchExec *)

(** Alice goes in, Bob fails, Carol is not tried: one rollback, and the
    duplicate key error. *)
Lemma BatchExec_stops_at_first_failure_witness :
  applyDefaultTimeout demoNow plainDB Background demoWorld
  = (demoWorld, Returned Background)
  /\ beginTx plainDB Background None demoWorld
     = (plainBegun, Returned (7%nat, None))
  /\ PrepareContext (DB_sqldb plainDB) (Some 7%nat) Background insertUser
       (ext plainBegun) = (ext plainBegun, (1%nat, None))
  /\ BatchExec_range demoNow demoStmtOps batchStmt Background [alice] userArgs
       batchPrepared = (batchAliceDone, Returned None)
  /\ Stmt_Exec demoNow demoStmtOps batchStmt Background (userArgs bob)
       batchAliceDone
     = (batchBobFailed, Returned (None, Some duplicateKeyError))
  /\ DB_errMap plainDB (Some duplicateKeyError) = Some duplicateKeyError
  /\ exists x6 rbErr,
       BatchExec demoNow demoStmtOps plainDB Background insertUser
         [alice; bob; carol] userArgs demoWorld
       = ({| ext := x6;
             trace := trace batchBobFailed ++ [EvRollback 7%nat rbErr] |},
          Returned (Some match rbErr with
                         | None => duplicateKeyError
                         | Some _ =>
                             rollbackFailed rbErr (Some duplicateKeyError)
                         end)).
Proof.
  assert (H1 : applyDefaultTimeout demoNow plainDB Background demoWorld
               = (demoWorld, Returned Background)) by reflexivity.
  assert (H2 : beginTx plainDB Background None demoWorld
               = (plainBegun, Returned (7%nat, None))) by reflexivity.
  assert (H3 : PrepareContext (DB_sqldb plainDB) (Some 7%nat) Background
                 insertUser (ext plainBegun) = (ext plainBegun, (1%nat, None)))
    by reflexivity.
  assert (H4 : BatchExec_range demoNow demoStmtOps batchStmt Background [alice]
                 userArgs batchPrepared = (batchAliceDone, Returned None))
    by (vm_compute; reflexivity).
  assert (H5 : Stmt_Exec demoNow demoStmtOps batchStmt Background (userArgs bob)
                 batchAliceDone
               = (batchBobFailed, Returned (None, Some duplicateKeyError)))
    by (vm_compute; reflexivity).
  assert (H6 : DB_errMap plainDB (Some duplicateKeyError)
               = Some duplicateKeyError) by (vm_compute; reflexivity).
  repeat (split; [assumption|]).
  destruct (@BatchExec_stops_at_first_failure demoState demoNow demoStmtOps
              (string * string) plainDB Background insertUser [alice] [carol]
              bob userArgs demoWorld Background plainBegun 7%nat
              (ext plainBegun) 1%nat batchAliceDone batchBobFailed None
              duplicateKeyError duplicateKeyError H1 H2 H3 H4 H5 H6)
    as (x5 & closeErr & x6 & rbErr & _ & _ & Hrun).
  exists x6, rbErr. exact Hrun.
Defined.


(** The same run, computed: nil, and the commit at the end of the trace. *)
Example BatchExec_alice_and_carol :
  snd (BatchExec demoNow goodStmtOps plainDB Background insertUser
         [alice; carol] userArgs demoWorld) = Returned None
  /\ skeleton (trace (fst (BatchExec demoNow goodStmtOps plainDB Background
                             insertUser [alice; carol] userArgs demoWorld)))
     = [EvBeginTx Background None 7%nat None;
        EvPrepareContext (Some 7%nat) Background insertUser 1%nat None;
        EvNotifyBefore Background insertUser (userArgs alice);
        EvNotifyAfter Background insertUser (userArgs alice) 5 None;
        EvNotifyBefore Background insertUser (userArgs carol);
        EvNotifyAfter Background insertUser (userArgs carol) 5 None;
        EvCommit 7%nat None].
Proof. split; vm_compute; reflexivity. Qed.

(** ** Open and the drivers *)

(** Without a DSN nothing is opened. *)
Lemma Open_rejects_empty_config_witness :
  (DSN noDSNConfig = EmptyString \/ DriverName noDSNConfig = EmptyString)
  /\ Open demoNow (demoSqlOpen None) 1 noDSNConfig demoPoolWorld
     = (demoPoolWorld,
        Returned (None,
                  Some (errorString 1 "sqltoolkit/db: DSN must not be empty"))).
Proof.
  assert (H : DSN noDSNConfig = EmptyString
              \/ DriverName noDSNConfig = EmptyString) by (left; reflexivity).
  split; [exact H|].
  destruct (@Open_rejects_empty_config demoState demoNow (demoSqlOpen None) 1
              noDSNConfig demoPoolWorld H) as (msg & Hrun & Hmsg & _).
  rewrite Hrun, (Hmsg eq_refl). reflexivity.
Defined.

(** The ping fails: the pool is closed after it. *)
Lemma Open_failed_ping_closes_pool_witness :
  DSN tunedConfig <> EmptyString
  /\ DriverName tunedConfig <> EmptyString
  /\ demoSqlOpen (Some badConnection) (DriverName tunedConfig) (DSN tunedConfig)
       (pext demoPoolWorld)
     = (demoStart, (demoPool (Some badConnection), None))
  /\ PingContext (demoPool (Some badConnection))
       (withDeadline Background
          (demoNow (tuned (demoPool (Some badConnection)) tunedConfig demoStart)
           + 5 * Second))
       (tuned (demoPool (Some badConnection)) tunedConfig demoStart)
     = (tick (tuned (demoPool (Some badConnection)) tunedConfig demoStart),
        Some badConnection)
  /\ exists x3 closeErr r ctx,
       Open demoNow (demoSqlOpen (Some badConnection)) 1 tunedConfig
         demoPoolWorld
       = ({| pext := x3;
             plog := [EvSqlOpen "sqlite3" ":memory:" None;
                      EvSetMaxOpenConns 25;
                      EvSetConnMaxLifetime (300 * Second);
                      EvPingContext ctx (Some badConnection);
                      EvPoolClose closeErr] |},
          Returned (None, Some r))
       /\ errors_Is (Some r) (Some badConnection) = true.
Proof.
  assert (H1 : DSN tunedConfig <> EmptyString) by discriminate.
  assert (H2 : DriverName tunedConfig <> EmptyString) by discriminate.
  assert (H3 : demoSqlOpen (Some badConnection) (DriverName tunedConfig)
                 (DSN tunedConfig) (pext demoPoolWorld)
               = (demoStart, (demoPool (Some badConnection), None)))
    by reflexivity.
  assert (H4 : PingContext (demoPool (Some badConnection))
                 (withDeadline Background
                    (demoNow (tuned (demoPool (Some badConnection)) tunedConfig
                                demoStart) + 5 * Second))
                 (tuned (demoPool (Some badConnection)) tunedConfig demoStart)
               = (tick (tuned (demoPool (Some badConnection)) tunedConfig
                          demoStart),
                  Some badConnection)) by reflexivity.
  repeat (split; [assumption|]).
  destruct (@Open_failed_ping_closes_pool demoState demoNow
              (demoSqlOpen (Some badConnection)) 1 tunedConfig demoPoolWorld
              demoStart (demoPool (Some badConnection)) _ badConnection
              H1 H2 H3 H4)
    as (x3 & closeErr & r & ctx & _ & Hrun & _ & _ & His & _).
  exists x3, closeErr, r, ctx. split; [exact Hrun | exact His].
Defined.

(** The ping succeeds: the handle, and the two limits that are set. *)
Lemma Open_hands_out_handle_witness :
  DSN tunedConfig <> EmptyString
  /\ DriverName tunedConfig <> EmptyString
  /\ demoSqlOpen None (DriverName tunedConfig) (DSN tunedConfig)
       (pext demoPoolWorld)
     = (demoStart, (demoPool None, None))
  /\ PingContext (demoPool None)
       (withDeadline Background
          (demoNow (tuned (demoPool None) tunedConfig demoStart) + 5 * Second))
       (tuned (demoPool None) tunedConfig demoStart)
     = (tick (tuned (demoPool None) tunedConfig demoStart), None)
  /\ exists d w',
       Open demoNow (demoSqlOpen None) 1 tunedConfig demoPoolWorld
       = (w', Returned (Some d, None))
       /\ plog w'
          = [EvSqlOpen "sqlite3" ":memory:" None;
             EvSetMaxOpenConns 25;
             EvSetConnMaxLifetime (300 * Second);
             EvPingContext (withDeadline Background (100 + 5 * Second)) None]
       /\ DB_errMap d = DefaultErrorMapper.
Proof.
  assert (H1 : DSN tunedConfig <> EmptyString) by discriminate.
  assert (H2 : DriverName tunedConfig <> EmptyString) by discriminate.
  assert (H3 : demoSqlOpen None (DriverName tunedConfig) (DSN tunedConfig)
                 (pext demoPoolWorld) = (demoStart, (demoPool None, None)))
    by reflexivity.
  assert (H4 : PingContext (demoPool None)
                 (withDeadline Background
                    (demoNow (tuned (demoPool None) tunedConfig demoStart)
                     + 5 * Second))
                 (tuned (demoPool None) tunedConfig demoStart)
               = (tick (tuned (demoPool None) tunedConfig demoStart), None))
    by reflexivity.
  repeat (split; [assumption|]).
  destruct (@Open_hands_out_handle demoState demoNow (demoSqlOpen None) 1
              tunedConfig demoPoolWorld demoStart (demoPool None) _ H1 H2 H3 H4)
    as (d & Hrun & _ & _ & _ & Hmap & _).
  exists d. eexists. split; [exact Hrun|]. split; [reflexivity | exact Hmap].
Defined.

(** A database file with two extra parameters. *)
Lemma SQLiteDriver_DSN_joins_extras_witness :
  Database memoryOptions <> EmptyString
  /\ SQLiteDriver_DSN 1 memoryOptions
     = ("app.db?cache=shared&mode=rwc", None).
Proof.
  assert (H : Database memoryOptions <> EmptyString) by discriminate.
  split; [exact H|].
  rewrite (@SQLiteDriver_DSN_joins_extras 1 memoryOptions H). reflexivity.
Defined.

(** [sqlite3] out of the registry as [init] leaves it. *)
Lemma OpenWithDriver_installs_chain_witness :
  registry_get "sqlite3" builtinRegistry = Some (SQLiteDriver demoState)
  /\ exists w' d,
       OpenWithDriver demoNow (demoSqlOpen None) plainQuote builtinRegistry
         1 2 3 "sqlite3" memoryOptions tunedConfig demoPoolWorld
       = (w', Returned (Some d, None))
       /\ DSN (DB_cfg d) = "app.db?cache=shared&mode=rwc"
       /\ forall err, DB_errMap d err = defaultMap err.
Proof.
  assert (H1 : registry_get "sqlite3" builtinRegistry
               = Some (SQLiteDriver demoState)) by reflexivity.
  split; [exact H1|].
  destruct (OpenWithDriver demoNow (demoSqlOpen None) plainQuote
              builtinRegistry 1 2 3 "sqlite3" memoryOptions tunedConfig
              demoPoolWorld) as [w' [[[d|] [e|]]|p]] eqn:Hrun;
    try (exfalso; vm_compute in Hrun; discriminate).
  exists w', d. split; [reflexivity|].
  destruct (@OpenWithDriver_installs_chain demoState demoNow (demoSqlOpen None)
              plainQuote builtinRegistry 1 2 3 "sqlite3" memoryOptions
              tunedConfig demoPoolWorld w' d (SQLiteDriver demoState) H1 Hrun)
    as (_ & _ & Hdsn & Hdef).
  split; [rewrite Hdsn; reflexivity | exact (Hdef eq_refl)].
Defined.

(** ** The user repository *)

(** Nobody has the id 42 on [emptyDB]. *)
Lemma GetByID_not_found_witness :
  Querier_errMap (QuerierDB emptyDB) = DefaultErrorMapper
  /\ (forall tx c x,
        snd (QueryRowContext (Querier_conn (QuerierDB emptyDB)) tx c
               sqlGetUserByID [VInt 42] x)
        = {| rowErr := None; rowVals := None |})
  /\ exists w' err,
       GetByID demoNow noUser (NewUserRepo (QuerierDB emptyDB)) Background 42
         demoWorld = (w', Returned (None, Some err))
       /\ IsNotFound (Some err) = true.
Proof.
  assert (H1 : Querier_errMap (QuerierDB emptyDB) = DefaultErrorMapper)
    by reflexivity.
  assert (H2 : forall tx c x,
                 snd (QueryRowContext (Querier_conn (QuerierDB emptyDB)) tx c
                        sqlGetUserByID [VInt 42] x)
                 = {| rowErr := None; rowVals := None |}) by reflexivity.
  split; [exact H1|]. split; [exact H2|].
  destruct (@GetByID_not_found demoState demoNow noUser (QuerierDB emptyDB)
              Background 42 demoWorld H1 H2) as (w' & err & Hrun & Hnf & _).
  exists w', err. split; [exact Hrun | exact Hnf].
Defined.

(** The DELETE matches nothing on [noMatchDB]: not found when the result
    can tell, the error of [RowsAffected] when it cannot. *)
Lemma Delete_not_found_witness :
  (forall tx c x,
     snd (ExecContext (Querier_conn (QuerierDB noMatchDB)) tx c sqlDeleteUser
            [VInt 42] x)
     = (Some (0, 0), None))
  /\ (exists w',
        Delete demoNow countKnown (NewUserRepo (QuerierDB noMatchDB))
          Background 42 demoWorld
        = (w', Returned (Some ErrNotFound)))
  /\ (exists w',
        Delete demoNow countUnknown (NewUserRepo (QuerierDB noMatchDB))
          Background 42 demoWorld
        = (w', Returned (countUnknown (0, 0)))).
Proof.
  assert (H : forall tx c x,
                snd (ExecContext (Querier_conn (QuerierDB noMatchDB)) tx c
                       sqlDeleteUser [VInt 42] x)
                = (Some (0, 0), None)) by reflexivity.
  split; [exact H|]. split.
  - destruct (@Delete_not_found demoState demoNow countKnown
                (QuerierDB noMatchDB) Background 42 demoWorld 0 0 H)
      as (w' & r & Hrun & Hknown & _).
    destruct (Hknown eq_refl) as [Hzero _].
    destruct (Hzero eq_refl) as [-> _]. exists w'. exact Hrun.
  - destruct (@Delete_not_found demoState demoNow countUnknown
                (QuerierDB noMatchDB) Background 42 demoWorld 0 0 H)
      as (w' & r & Hrun & _ & Hunknown).
    rewrite (Hunknown _ eq_refl) in Hrun. exists w'. exact Hrun.
Defined.

(** ** The registry, and the failures before anything is opened *)

(** [crdb] is free in the registry that [init] leaves and can be registered;
    [sqlite3] is taken, and registering it again panics. *)
Lemma registry_keeps_drivers_witness :
  registry_get (Driver_Name crdbDriver) builtinRegistry = None
  /\ (exists r',
        RegisterDriver plainQuote crdbDriver builtinRegistry = (r', Returned tt)
        /\ LookupDriver plainQuote 1 "crdb" r' = (Some crdbDriver, None))
  /\ registry_get (Driver_Name (SQLiteDriver demoState)) builtinRegistry <> None
  /\ RegisterDriver plainQuote (SQLiteDriver demoState) builtinRegistry
     = (builtinRegistry,
        Panicked ("sqltoolkit/db: driver "
                  ++ plainQuote "sqlite3" ++ " already registered")).
Proof.
  assert (H1 : registry_get (Driver_Name crdbDriver) builtinRegistry = None)
    by reflexivity.
  assert (H2 : registry_get (Driver_Name (SQLiteDriver demoState))
                 builtinRegistry <> None) by (vm_compute; discriminate).
  destruct (@registry_keeps_drivers demoState plainQuote crdbDriver
              builtinRegistry 1) as (Hfree & _).
  destruct (@registry_keeps_drivers demoState plainQuote
              (SQLiteDriver demoState) builtinRegistry 1) as (_ & Htaken & _).
  split; [exact H1|]. split.
  - destruct (Hfree H1) as (r' & Hreg & Hlook & _). exists r'.
    split; [exact Hreg | exact Hlook].
  - split; [exact H2 | exact (Htaken H2)].
Defined.

(** No adapter is called [oracle]; and [sqlite3] without a database path is
    rejected by the adapter, after its [Register] and before [sql.Open]. *)
Lemma OpenWithDriver_fails_early_witness :
  registry_get "oracle" builtinRegistry = None
  /\ OpenWithDriver demoNow (demoSqlOpen None) plainQuote builtinRegistry 1 2 3
       "oracle" memoryOptions tunedConfig demoPoolWorld
     = (demoPoolWorld,
        Returned (None,
                  Some (errorString 1
                          ("sqltoolkit/db: driver " ++ plainQuote "oracle"
                           ++ " not registered"))))
  /\ registry_get "sqlite3" builtinRegistry = Some (SQLiteDriver demoState)
  /\ Driver_Register (SQLiteDriver demoState) (pext demoPoolWorld)
     = (demoStart, Returned tt)
  /\ Driver_DSN (SQLiteDriver demoState) 2 noFileOptions
     = (EmptyString,
        Some (errorString 2 "sqlite3 driver: Database (file path) is required"))
  /\ exists err,
       OpenWithDriver demoNow (demoSqlOpen None) plainQuote builtinRegistry
         1 2 3 "sqlite3" noFileOptions tunedConfig demoPoolWorld
       = ({| pext := demoStart; plog := [EvRegister "sqlite3"] |},
          Returned (None, Some err))
       /\ Error err
          = "sqltoolkit/db: DSN construction failed: sqlite3 driver: Database (file path) is required".
Proof.
  assert (H1 : registry_get "oracle" builtinRegistry = None) by reflexivity.
  assert (H2 : registry_get "sqlite3" builtinRegistry
               = Some (SQLiteDriver demoState)) by reflexivity.
  assert (H3 : Driver_Register (SQLiteDriver demoState) (pext demoPoolWorld)
               = (demoStart, Returned tt)) by reflexivity.
  assert (H4 : Driver_DSN (SQLiteDriver demoState) 2 noFileOptions
               = (EmptyString,
                  Some (errorString 2
                          "sqlite3 driver: Database (file path) is required")))
    by reflexivity.
  destruct (@OpenWithDriver_fails_early demoState demoNow (demoSqlOpen None)
              plainQuote builtinRegistry 1 2 3 "oracle" memoryOptions
              tunedConfig demoPoolWorld) as (Hunknown & _).
  destruct (@OpenWithDriver_fails_early demoState demoNow (demoSqlOpen None)
              plainQuote builtinRegistry 1 2 3 "sqlite3" noFileOptions
              tunedConfig demoPoolWorld) as (_ & Hdsn).
  split; [exact H1|]. split; [exact (Hunknown H1)|].
  split; [exact H2|]. split; [exact H3|]. split; [exact H4|].
  destruct (Hdsn _ _ _ _ H2 H3 H4) as (err & Hrun & _ & _ & Htext).
  exists err. split; [exact Hrun | exact Htext].
Defined.
